(** * County splitter for GeoParquet files: model and verified properties

    The development embeds the two splitter programs of the repository,
    [split_geoparquet_by_county.py] (DuckDB for discovery and pinned
    extraction, GeoPandas for geometry handling) and
    [split_geoparquet_modern.py] (DuckDB only), and proves properties of
    their partitioning and schema-splitting logic.

    Layout:
    - strings, tables and the pandas operations the programs use;
    - the outside world: input directory, backing engine, geometry library
      and file system, whose behaviour the programs cannot decide, as
      fields of a record [world];
    - a state-and-exception monad for the Python control flow: the state
      holds the directories made, the files written and the log;
    - module [ByCounty] and module [Modern], one per source file, with the
      methods of [ModernGeoParquetSplitter] under their source names;
    - concrete input directories, the vocabulary of the properties, and
      the properties.

    What the model takes for granted:
    - a cell is null, text, a geometry object or raw bytes; the partition
      key of a row is the text of its [COUNTY] cell;
    - the engine resolves column names by exact match, a quote in an
      interpolated literal or a name that cannot stand unquoted makes the
      statement fail, and [COPY] writes its file also for an empty result;
    - the input directory is a snapshot the programs only read; what they
      write is kept apart, keyed by path;
    - wall-clock time and the texts of exceptions are left out. *)

From Stdlib Require Import String Ascii List NArith.
From stdpp Require Import gmap strings list sorting.

Open Scope string_scope.

(* ===================================================================== *)
(** * Strings *)
(* ===================================================================== *)

(** [str.lower()] on the ASCII letters; other octets are left alone. *)
Definition lower_ascii (c : ascii) : ascii :=
  let n := nat_of_ascii c in
  if (65 <=? n)%nat && (n <=? 90)%nat then ascii_of_nat (n + 32) else c.

Fixpoint lower (s : string) : string :=
  match s with
  | EmptyString => EmptyString
  | String c s' => String (lower_ascii c) (lower s')
  end.

(** [sub in s] for strings. *)
Fixpoint contains (sub s : string) : bool :=
  String.prefix sub s ||
  match s with
  | EmptyString => false
  | String _ s' => contains sub s'
  end.

(** The test of the identifier fallback:
    ['id' in col.lower() or 'lid' in col.lower()]. *)
Definition looks_like_id (col : string) : bool :=
  contains "id" (lower col) || contains "lid" (lower col).

(** [s.replace(a, b)] for one-character [a] and [b]. *)
Fixpoint replace_char (a b : ascii) (s : string) : string :=
  match s with
  | EmptyString => EmptyString
  | String c s' => String (if Ascii.eqb c a then b else c) (replace_char a b s')
  end.

(** [county.replace(' ', '_').replace('-', '_')] *)
Definition county_safe_of (county : string) : string :=
  replace_char "-" "_" (replace_char " " "_" county).

(** [sorted(...)] on strings: Python orders [str] by code point, which on
    the octets of a string is [String.leb]. *)
Definition str_le (a b : string) : Prop := String.leb a b = true.

#[global] Instance str_le_dec : RelDecision str_le.
Proof. intros a b. unfold str_le. apply _. Defined.

Definition sorted (l : list string) : list string := merge_sort str_le l.

(** Path joining, [a / b]. *)
Definition path_join (a b : string) : string := a ++ "/" ++ b.

(* ===================================================================== *)
(** * Tables *)
(* ===================================================================== *)

(** A cell.  Scalar attributes are opaque text; a geometry cell is either
    a structured geometry object, of which only its validity is visible,
    or the raw bytes of an undecoded encoding. *)
Inductive value :=
| VNull
| VText (s : string)
| VGeom (valid : bool)
| VBytes (b : string).

#[global] Instance value_eq_dec : EqDecision value.
Proof. solve_decision. Defined.

(** A data frame, row-major: every row is aligned with [columns]. *)
Record frame := Frame { columns : list string; rows : list (list value) }.

#[global] Instance frame_eq_dec : EqDecision frame.
Proof. solve_decision. Defined.

(** [len(df)] *)
Definition len (df : frame) : nat := length (rows df).

(** [c in df.columns] *)
Definition has_column (c : string) (df : frame) : bool :=
  bool_decide (c ∈ columns df).

(** The value of column [c] in a row laid out along [cols]. *)
Fixpoint cell (cols : list string) (r : list value) (c : string) : value :=
  match cols, r with
  | c' :: cols', v :: r' => if String.eqb c' c then v else cell cols' r' c
  | _, _ => VNull
  end.

(** The partition key of a row: the text in its [COUNTY] cell.  The
    programs take keys as [str]; a cell that holds no text gives no
    key. *)
Definition county_of (cols : list string) (r : list value) : option string :=
  match cell cols r "COUNTY" with
  | VText s => Some s
  | _ => None
  end.

(** [isinstance(v, (bytes, bytearray))] *)
Definition is_bytes (v : value) : bool :=
  match v with VBytes _ => true | _ => false end.

(** The rows whose [COUNTY] cell equals [county]; shared by the pandas
    mask [df['COUNTY'] == county] and the SQL predicate
    [WHERE COUNTY = 'county']. *)
Definition rows_of_county (cols : list string) (county : string)
    (rs : list (list value)) : list (list value) :=
  filter (λ r, county_of cols r = Some county) rs.

(** Keep from a row the cells of the columns satisfying [keep]. *)
Fixpoint keep_cells (keep : string → bool) (cols : list string)
    (r : list value) : list value :=
  match cols, r with
  | c :: cols', v :: r' =>
      if keep c then v :: keep_cells keep cols' r' else keep_cells keep cols' r'
  | _, _ => []
  end.

(** Keep the columns satisfying [keep], in their order. *)
Definition keep_columns (keep : string → bool) (df : frame) : frame :=
  {| columns := List.filter keep (columns df);
     rows := map (keep_cells keep (columns df)) (rows df) |}.

(** Project a frame on a list of column names, in the order of the list. *)
Definition project (cols : list string) (df : frame) : frame :=
  {| columns := cols;
     rows := map (λ r, map (cell (columns df) r) cols) (rows df) |}.

Definition is_geometry_name (c : string) : bool := String.eqb c "geometry".
Definition not_geometry_name (c : string) : bool := negb (is_geometry_name c).

(** The report [create_summary_report] writes: the county of the title
    when one is pinned, per file its name, its sorted county lines and its
    total, and the grand total. *)
Record report := Report {
  title_county : option string;
  file_sections : list (string * list (string * nat) * nat);
  grand_total : nat;
  method_line : bool;       (* the closing "Processing method" line *)
}.

(** What a written file holds. *)
Inductive content :=
| Parquet (t : frame)
| Summary (r : report).

(* ===================================================================== *)
(** * The outside world *)
(* ===================================================================== *)

(** One file of the input directory. *)
Record parquet_file := ParquetFile {
  stem : string;            (* [file_path.stem] *)
  st_size : N;              (* [file_path.stat().st_size] *)
  data : frame;             (* the stored table *)
  scannable : bool;         (* the engine's [read_parquet('...')] works:
                               readable, well-formed, and a path that
                               does not break the query text *)
  geo_readable : bool;      (* [gpd.read_parquet] accepts the file *)
}.

(** [file_path.name]; the listing is [glob("*.parquet")]. *)
Definition name (f : parquet_file) : string := stem f ++ ".parquet".

(** What the programs cannot decide for themselves. *)
Record world := World {
  glob_parquet : string → list parquet_file;
      (* [list(input_dir.glob("*.parquet"))] in listing order *)
  spatial_ok : bool;
      (* INSTALL/LOAD spatial and the self-test succeed; what the engine
         answers afterwards is given by the other fields, which the model
         does not relate to this one *)
  df_geometry : bool → value;
      (* how the engine's [.df()] hands a stored geometry cell to pandas:
         a structured geometry again, or its raw bytes *)
  ident_ok : string → bool;
      (* the name can stand unquoted in a SQL projection list *)
  geoframe_ok : frame → bool;
      (* [gpd.GeoDataFrame(df, geometry='geometry')] and the validity
         check succeed on [df] *)
  write_ok : string → content → bool;
      (* writing this content at this path succeeds *)
  mkdir_ok : string → bool;
      (* [mkdir(exist_ok=True)] succeeds at this path *)
}.

(** Exceptions. *)
Inductive exn :=
| KeyError (column : string)
| EngineError (what : string)
| ReadError (file : string)
| GeometryError
| WriteError (path : string)
| OSError (path : string).

Inductive result (A : Type) :=
| Ok (a : A)
| Raise (e : exn).
Arguments Ok {A} a.
Arguments Raise {A} e.

(** ** pandas operations that can raise *)

(** [df[df['COUNTY'] == county]] *)
Definition filter_county (df : frame) (county : string) : result frame :=
  if has_column "COUNTY" df
  then Ok {| columns := columns df;
             rows := rows_of_county (columns df) county (rows df) |}
  else Raise (KeyError "COUNTY").

(** [df[cols]] *)
Definition select (cols : list string) (df : frame) : result frame :=
  match List.find (λ c, negb (has_column c df)) cols with
  | Some c => Raise (KeyError c)
  | None => Ok (project cols df)
  end.

(** [df.drop(columns=['geometry'])] *)
Definition drop_geometry (df : frame) : result frame :=
  if has_column "geometry" df
  then Ok (keep_columns not_geometry_name df)
  else Raise (KeyError "geometry").

(** [df.geometry.iloc[0]], for a frame with a geometry column and at
    least one row. *)
Definition first_geometry (df : frame) : value :=
  match rows df with
  | r :: _ => cell (columns df) r "geometry"
  | [] => VNull
  end.

(** ** The backing engine (DuckDB)

    Names are resolved by exact match.  A string literal ['{county}']
    denotes [county] when it holds no quote character; with one the
    statement text is different SQL and is modelled as a parser error.
    The engine itself resolves names without regard to letter case,
    runs the different SQL when it is valid, and returns every non-null
    value of the key column, text or not: the model is exact for files
    that spell the queried names as the queries do, for counties without
    a quote and for key columns that hold text (see [binds_exactly],
    [quote_free] and [text_keyed] below). *)

Definition literal_ok (s : string) : bool := negb (contains "'" s).

(** [read_parquet('{file_path}')] as a relation. *)
Definition read_parquet (f : parquet_file) : result frame :=
  if scannable f then Ok (data f) else Raise (EngineError "read_parquet").

(** The rows of [FROM read_parquet(f) WHERE COUNTY = '{county}']. *)
Definition where_county (f : parquet_file) (county : string)
    : result frame :=
  match read_parquet f with
  | Raise e => Raise e
  | Ok t =>
      if negb (literal_ok county) then Raise (EngineError "parser")
      else if negb (has_column "COUNTY" t) then Raise (EngineError "binder")
      else Ok {| columns := columns t;
                 rows := rows_of_county (columns t) county (rows t) |}
  end.

(** [SELECT DISTINCT COUNTY FROM read_parquet(f) WHERE COUNTY IS NOT NULL
    ORDER BY COUNTY], as [fetchall()] returns it: one value per row. *)
Definition select_distinct_county (f : parquet_file) : result (list string) :=
  match read_parquet f with
  | Raise e => Raise e
  | Ok t =>
      if has_column "COUNTY" t
      then Ok (sorted (remove_dups (omap (county_of (columns t)) (rows t))))
      else Raise (EngineError "binder")
  end.

(** [SELECT COUNT( * ) FROM read_parquet(f) WHERE COUNTY = '{county}'] *)
Definition select_count (f : parquet_file) (county : string) : result nat :=
  match where_county f county with
  | Raise e => Raise e
  | Ok t => Ok (len t)
  end.

(** [SELECT column_name FROM (DESCRIBE SELECT * FROM read_parquet(f)
    LIMIT 1) WHERE <keep column_name>] *)
Definition describe_columns (keep : string → bool) (f : parquet_file)
    : result (list string) :=
  match read_parquet f with
  | Raise e => Raise e
  | Ok t => Ok (List.filter keep (columns t))
  end.

(** [conn.execute(...).df()]: the selected rows as a pandas frame, every
    stored geometry cell handed over the engine's way. *)
Definition export_cell (W : world) (v : value) : value :=
  match v with
  | VGeom valid => df_geometry W valid
  | _ => v
  end.

Definition to_df (W : world) (t : frame) : frame :=
  {| columns := columns t; rows := map (map (export_cell W)) (rows t) |}.

(** ** The geometry library (GeoPandas) *)

(** [gpd.read_parquet(file_path)] *)
Definition gpd_read_parquet (f : parquet_file) : result frame :=
  if geo_readable f then Ok (data f) else Raise (ReadError (name f)).

(* ===================================================================== *)
(** * Dictionaries *)
(* ===================================================================== *)

(** A Python [dict] with [str] keys: insertion-ordered, one entry per key. *)
Definition dict (V : Type) : Type := list (string * V).

Fixpoint dict_set {V} (d : dict V) (k : string) (v : V) : dict V :=
  match d with
  | [] => [(k, v)]
  | (k', v') :: d' =>
      if String.eqb k' k then (k', v) :: d' else (k', v') :: dict_set d' k v
  end.

Fixpoint dict_get {V} (d : dict V) (k : string) : option V :=
  match d with
  | [] => None
  | (k', v') :: d' => if String.eqb k' k then Some v' else dict_get d' k
  end.

(** [d.values()] and [sum(d.values())] *)
Definition values {V} (d : dict V) : list V := map snd d.
Definition sum_values (d : dict nat) : nat := sum_list (values d).

(** [d.get(k, 0)] *)
Definition count_for (d : dict nat) (k : string) : nat :=
  default 0 (dict_get d k).

(** [sorted(d.items())]: tuples compare by key first, then by count. *)
Definition item_le (p q : string * nat) : Prop :=
  match String.compare (fst p) (fst q) with
  | Lt => True
  | Eq => (snd p <= snd q)%nat
  | Gt => False
  end.

#[global] Instance item_le_dec : RelDecision item_le.
Proof.
  intros p q. unfold item_le.
  destruct (String.compare p.1 q.1); apply _.
Defined.

Definition sorted_items (d : dict nat) : list (string * nat) :=
  merge_sort item_le d.

(* ===================================================================== *)
(** * Effects: file system, log, exceptions *)
(* ===================================================================== *)

(** Log records, one constructor per logging call of the sources. *)
Inductive level := DEBUG | INFO | WARNING | ERROR.

Inductive message :=
| SpatialLoaded
| SpatialNotLoaded
| SetupFailed
| DiscoveringCounties (file : string)
| FoundCounties (n : nat) (shown : list string)
| DiscoveryFailed
| TargetNotFound (county : string)
| AvailableCounties (counties : list string)
| ProcessingFile (file : string)
| NoRecords (county file : string)
| ConvertingBytes (county : string)
| GeometryValidationFailed (county file : string)
| FallingBackToGeoPandas (county : string)
| FailedToReadGeoParquet
| FallingBackToParquet (file : string)
| CountyDone (county : string) (n : nat)
| ErrorProcessingCounty (county : string)
| CreatedGeometryFile (path : string)
| CreatedAttributesFile (path : string)
| SummaryCreated (path : string)
| NoParquetFiles (dir : string)
| FoundFiles (n : nat)
| NoCountiesFound
| ExtractingOnly (county : string)
| ProcessingAll (n : nat)
| Completed
| OutputSaved (dir : string).

Record state := State {
  dirs : gset string;               (* directories made by the run *)
  files : gmap string content;      (* files written by the run *)
  log : list (level * message);     (* oldest first *)
}.

Definition M (A : Type) : Type := state → result A * state.

Definition ret {A} (a : A) : M A := λ s, (Ok a, s).

Definition bind {A B} (m : M A) (k : A → M B) : M B :=
  λ s, match m s with
       | (Ok a, s') => k a s'
       | (Raise e, s') => (Raise e, s')
       end.

(** [raise e] *)
Definition raise {A} (e : exn) : M A := λ s, (Raise e, s).

(** [try: m  except Exception as e: h e] *)
Definition try_except {A} (m : M A) (h : exn → M A) : M A :=
  λ s, match m s with
       | (Ok a, s') => (Ok a, s')
       | (Raise e, s') => h e s'
       end.

(** A call into a library that returns or raises without touching the
    state. *)
Definition call {A} (r : result A) : M A := λ s, (r, s).

Declare Scope splitter_scope.
Delimit Scope splitter_scope with splitter.
Notation "x <- m ;; k" := (bind m (λ x, k))
  (at level 100, m at next level, right associativity) : splitter_scope.
Notation "m ;;; k" := (bind m (λ _, k))
  (at level 100, right associativity) : splitter_scope.
Open Scope splitter_scope.

(** [logger.<level>(msg)] *)
Definition logger (l : level) (m : message) : M unit :=
  λ s, (Ok tt, {| dirs := dirs s; files := files s;
                  log := log s ++ [(l, m)] |}).

(** [path.mkdir(exist_ok=True)] *)
Definition mkdir (W : world) (path : string) : M unit :=
  λ s, if mkdir_ok W path
       then (Ok tt, {| dirs := {[path]} ∪ dirs s; files := files s;
                       log := log s |})
       else (Raise (OSError path), s).

(** Writing one file: [to_parquet], [COPY ... TO], or the report. *)
Definition write_file (W : world) (path : string) (c : content) : M unit :=
  λ s, if write_ok W path c
       then (Ok tt, {| dirs := dirs s; files := <[path := c]> (files s);
                       log := log s |})
       else (Raise (WriteError path), s).

(** [for x in l: body], threading an accumulator. *)
Fixpoint for_each {A B} (l : list A) (body : B → A → M B) (acc : B) : M B :=
  match l with
  | [] => ret acc
  | x :: l' => acc' <- body acc x ;; for_each l' body acc'
  end.

(** [max(parquet_files, key=lambda f: f.stat().st_size)]: the first file
    of largest size. *)
Fixpoint max_by_size (best : parquet_file) (l : list parquet_file)
    : parquet_file :=
  match l with
  | [] => best
  | f :: l' =>
      if (st_size best <? st_size f)%N then max_by_size f l'
      else max_by_size best l'
  end.

(** The configuration held by a [ModernGeoParquetSplitter]; its engine
    connection is the [world]. *)
Record splitter := Splitter {
  input_dir : string;
  output_dir : string;
  target_county : option string;
}.

(** [self.target_county] in a condition: [None] and the empty string are
    both false. *)
Definition pinned (self : splitter) : option string :=
  match target_county self with
  | Some "" => None
  | Some c => Some c
  | None => None
  end.

(** [county_dir / f"{county_safe}_{file_stem}_{role}.parquet"] *)
Definition out_file (county_dir county_safe file_stem role : string)
    : string :=
  path_join county_dir
    (county_safe ++ "_" ++ file_stem ++ "_" ++ role ++ ".parquet").

(** [self.output_dir / "split_summary.txt"] *)
Definition summary_file (self : splitter) : string :=
  path_join (output_dir self) "split_summary.txt".

(** The sections and the grand total of the report, as the loop of
    [create_summary_report] computes them. *)
Definition report_of (self : splitter) (results : dict (dict nat))
    (native : bool) : report :=
  {| title_county := pinned self;
     method_line := native;
     file_sections :=
       map (λ fr, (fst fr, sorted_items (snd fr), sum_values (snd fr))) results;
     grand_total := sum_list (map (λ fr, sum_values (snd fr)) results) |}.

(* ===================================================================== *)
(** * The command line *)
(* ===================================================================== *)

(** [args], as [parser.parse_args()] returns it: [input_dir], [--county],
    [--output] with its default [output_by_county], [--list-counties]. *)
Record args := Args {
  args_input_dir : string;
  args_county : option string;
  args_output : string;
  args_list_counties : bool;
}.

(** What [main] logs itself, beside the records of the splitter. *)
Inductive main_message :=
| InputDirMissing (dir : string)
| DiscoveringAvailable
| NoParquetFilesFound
| Starting
| InputDirectory (dir : string)
| TargetCounty (county : string)
| OutputDirectory (dir : string)
| ProcessingComplete.

(** The lines [main] sends to the console: its log records and what it
    prints. *)
Inductive console :=
| Log (l : level) (m : main_message)
| Print (text : string).

(** How [main] ends: it returns, it calls [sys.exit(code)], or an
    exception leaves it. *)
Inductive ending :=
| Returns
| Exits (code : nat)
| Uncaught (e : exn).

(** The exit status of the interpreter. *)
Definition exit_status (e : ending) : nat :=
  match e with
  | Returns => 0
  | Exits code => code
  | Uncaught _ => 1
  end.

(** The state of the process: the state of the splitter and the lines of
    [main]. *)
Record process := Process { disk : state; shown : list console }.

Definition emit (c : console) (p : process) : process :=
  {| disk := disk p; shown := shown p ++ [c] |}.

(** A method of the splitter, called from [main]. *)
Definition run {A} (m : M A) (p : process) : result A * process :=
  let (r, st) := m (disk p) in (r, {| disk := st; shown := shown p |}).

(** [print("\nAvailable counties:")] and the loop of
    [print(f"  - {county}")]. *)
Definition print_counties (counties : gset string) (p : process) : process :=
  foldl (λ p county, emit (Print ("  - " ++ county)) p)
    (emit (Print (String "010" "Available counties:")) p)
    (sorted (elements counties)).

(** [if args.county: logger.info(...)] *)
Definition log_target (a : args) (p : process) : process :=
  match args_county a with
  | Some "" | None => p
  | Some county => emit (Log INFO (TargetCounty county)) p
  end.

(* ===================================================================== *)
(** * [split_geoparquet_by_county.py] *)
(* ===================================================================== *)

Module ByCounty.
Section Methods.
Context (W : world).

Definition __init__ (input output : string) (target : option string)
    : M splitter :=
  mkdir W output ;;;
  (if spatial_ok W then logger INFO SpatialLoaded
   else logger WARNING SpatialNotLoaded) ;;;
  ret {| input_dir := input; output_dir := output;
         target_county := target |}.

Definition discover_counties (self : splitter) (file_path : parquet_file)
    : M (gset string) :=
  logger INFO (DiscoveringCounties (name file_path)) ;;;
  result <- call (select_distinct_county file_path) ;;
  let counties : gset string := list_to_set result in
  logger INFO (FoundCounties (size counties) (sorted (elements counties))) ;;;
  ret counties.

Definition validate_target_county (self : splitter)
    (available_counties : gset string) : M bool :=
  match pinned self with
  | Some target =>
      if bool_decide (target ∉ available_counties) then
        logger ERROR (TargetNotFound target) ;;;
        logger INFO (AvailableCounties (sorted (elements available_counties))) ;;;
        ret false
      else ret true
  | None => ret true
  end.

(** The identifier column of the geometry output, when there is one. *)
Definition id_cols (gdf : frame) : list string :=
  List.filter looks_like_id (columns gdf).

Definition _create_geometry_and_attributes (gdf : frame)
    (county_safe county_dir file_stem : string) : M unit :=
  geom_gdf <-
    (if has_column "PARCEL_LID" gdf then
       call (select ["PARCEL_LID"; "geometry"] gdf)
     else
       match id_cols gdf with
       | c :: _ => call (select [c; "geometry"] gdf)
       | [] => call (select ["geometry"] gdf)
       end) ;;
  let geom_file := out_file county_dir county_safe file_stem "geometry" in
  write_file W geom_file (Parquet geom_gdf) ;;;
  attr_df <- call (drop_geometry gdf) ;;
  let attr_file := out_file county_dir county_safe file_stem "attributes" in
  write_file W attr_file (Parquet attr_df) ;;;
  logger DEBUG (CreatedGeometryFile geom_file) ;;;
  logger DEBUG (CreatedAttributesFile attr_file).

Definition _save_attributes_only (gdf : frame) (output_file : string)
    : M unit :=
  attr_df <-
    (if has_column "geometry" gdf then call (drop_geometry gdf)
     else ret gdf) ;;
  write_file W output_file (Parquet attr_df) ;;;
  logger DEBUG (CreatedAttributesFile output_file).

(** Path A: the geometry-aware load of the whole file, then the mask on
    the partition-key column. *)
Definition path_A (file_path : parquet_file) (county : string) : M frame :=
  full_gdf <- call (gpd_read_parquet file_path) ;;
  call (filter_county full_gdf county).

(** Path B: the filtered query on the engine, as a pandas frame. *)
Definition path_B (file_path : parquet_file) (county : string) : M frame :=
  t <- call (where_county file_path county) ;;
  ret (to_df W t).

(** The first half of the [try] body of [split_file_by_county]: the row
    subset of one county, or [None] where the source says [continue]. *)
Definition extract (self : splitter) (file_path : parquet_file)
    (county : string) : M (option frame) :=
  match pinned self with
  | Some _ =>
      df <- path_B file_path county ;;
      if (len df =? 0)%nat then
        logger WARNING (NoRecords county (name file_path)) ;;;
        ret None
      else if has_column "geometry" df then
        gdf <-
          try_except
            (if is_bytes (first_geometry df) then
               logger INFO (ConvertingBytes county) ;;;
               path_A file_path county
             else if geoframe_ok W df then ret df
             else raise GeometryError)
            (λ geom_error,
               logger WARNING
                 (GeometryValidationFailed county (name file_path)) ;;;
               logger INFO (FallingBackToGeoPandas county) ;;;
               path_A file_path county) ;;
        ret (Some gdf)
      else ret (Some df)
  | None =>
      gdf <-
        try_except
          (path_A file_path county)
          (λ read_error,
             logger WARNING FailedToReadGeoParquet ;;;
             logger INFO (FallingBackToParquet (name file_path)) ;;;
             path_B file_path county) ;;
      ret (Some gdf)
  end.

(** The second half of the [try] body: the outputs of a row subset and
    its count. *)
Definition write_subset (file_path : parquet_file) (is_main_file : bool)
    (results : dict nat) (county county_safe county_dir : string)
    (gdf : frame) : M (dict nat) :=
  if (len gdf =? 0)%nat then
    logger WARNING (NoRecords county (name file_path)) ;;;
    ret results
  else
    (if is_main_file && has_column "geometry" gdf then
       _create_geometry_and_attributes gdf county_safe county_dir
         (stem file_path)
     else
       _save_attributes_only gdf
         (out_file county_dir county_safe (stem file_path) "attributes")) ;;;
    let results := dict_set results county (len gdf) in
    logger INFO (CountyDone county (len gdf)) ;;;
    ret results.

(** The [try] body for one county; it returns the updated [results]. *)
Definition process_county (self : splitter) (file_path : parquet_file)
    (is_main_file : bool) (results : dict nat) (county : string)
    (county_safe county_dir : string) : M (dict nat) :=
  r <- extract self file_path county ;;
  match r with
  | None => ret results
  | Some gdf =>
      write_subset file_path is_main_file results county county_safe
        county_dir gdf
  end.

(** One turn of the loop over the counties. *)
Definition county_step (self : splitter) (file_path : parquet_file)
    (is_main_file : bool) (results : dict nat) (county : string)
    : M (dict nat) :=
  let county_safe := county_safe_of county in
  let county_dir := path_join (output_dir self) county_safe in
  mkdir W county_dir ;;;
  try_except
    (process_county self file_path is_main_file results county
       county_safe county_dir)
    (λ e,
       logger ERROR (ErrorProcessingCounty county) ;;;
       ret (dict_set results county 0)).

Definition counties_to_process (self : splitter) (counties : gset string)
    : gset string :=
  match pinned self with
  | Some target => {[ target ]}
  | None => counties
  end.

Definition split_file_by_county (self : splitter) (file_path : parquet_file)
    (counties : gset string) (is_main_file : bool) : M (dict nat) :=
  logger INFO (ProcessingFile (name file_path)) ;;;
  for_each (sorted (elements (counties_to_process self counties)))
    (county_step self file_path is_main_file) [].

Definition create_summary_report (self : splitter)
    (results : dict (dict nat)) : M unit :=
  write_file W (summary_file self) (Summary (report_of self results false)) ;;;
  logger INFO (SummaryCreated (summary_file self)).

Definition process_all_files (self : splitter) : M unit :=
  let parquet_files := glob_parquet W (input_dir self) in
  match parquet_files with
  | [] => logger ERROR (NoParquetFiles (input_dir self))
  | first :: others =>
      logger INFO (FoundFiles (length parquet_files)) ;;;
      let main_file := max_by_size first others in
      counties <- discover_counties self main_file ;;
      if bool_decide (counties = ∅) then logger ERROR NoCountiesFound
      else
        valid <- validate_target_county self counties ;;
        if negb valid then ret tt
        else
          match pinned self with
          | Some target => logger INFO (ExtractingOnly target)
          | None => logger INFO (ProcessingAll (size counties))
          end ;;;
          all_results <-
            for_each parquet_files
              (λ all_results file_path,
                 let is_main :=
                   bool_decide (name file_path = name main_file) in
                 results <-
                   split_file_by_county self file_path counties is_main ;;
                 ret (dict_set all_results (name file_path) results))
              [] ;;
          create_summary_report self all_results ;;;
          logger INFO Completed ;;;
          logger INFO (OutputSaved (output_dir self))
  end.

Definition main (path_exists : string → bool) (a : args) (p : process)
    : ending * process :=
  if negb (path_exists (args_input_dir a)) then
    (Exits 1, emit (Log ERROR (InputDirMissing (args_input_dir a))) p)
  else if args_list_counties a then
    let p := emit (Log INFO DiscoveringAvailable) p in
    match run (__init__ (args_input_dir a) "output_by_county" None) p with
    | (Raise e, p) => (Uncaught e, p)
    | (Ok temp_splitter, p) =>
        match glob_parquet W (args_input_dir a) with
        | [] => (Returns, emit (Log ERROR NoParquetFilesFound) p)
        | first :: others =>
            let main_file := max_by_size first others in
            match run (discover_counties temp_splitter main_file) p with
            | (Raise e, p) => (Uncaught e, p)
            | (Ok counties, p) => (Returns, print_counties counties p)
            end
        end
    end
  else
    let p := emit (Log INFO Starting) p in
    let p := emit (Log INFO (InputDirectory (args_input_dir a))) p in
    let p := log_target a p in
    let p := emit (Log INFO (OutputDirectory (args_output a))) p in
    match run (__init__ (args_input_dir a) (args_output a) (args_county a)) p
    with
    | (Raise e, p) => (Uncaught e, p)
    | (Ok splitter, p) =>
        match run (process_all_files splitter) p with
        | (Raise e, p) => (Uncaught e, p)
        | (Ok _, p) => (Returns, emit (Log INFO ProcessingComplete) p)
        end
    end.

End Methods.
End ByCounty.

(* ===================================================================== *)
(** * [split_geoparquet_modern.py] *)
(* ===================================================================== *)

(** [COPY (SELECT <cols> FROM read_parquet(f) WHERE COUNTY = '{county}')
    TO '{path}' (FORMAT 'parquet', COMPRESSION 'zstd')].  The statement
    is parsed, then bound against the file, then run; the file is written
    also when no row matches. *)
Definition copy_select (W : world) (cols : list string) (f : parquet_file)
    (county path : string) : M unit :=
  if negb (forallb (ident_ok W) cols) || bool_decide (cols = []) then
    raise (EngineError "parser")
  else
    t <- call (where_county f county) ;;
    match List.find (λ c, negb (has_column c t)) cols with
    | Some c => raise (EngineError "binder")
    | None => write_file W path (Parquet (project cols t))
    end.

Module Modern.
Section Methods.
Context (W : world).

Definition _setup_duckdb : M unit :=
  if spatial_ok W then logger INFO SpatialLoaded
  else logger ERROR SetupFailed ;;; raise (EngineError "spatial").

Definition __init__ (input output : string) (target : option string)
    : M splitter :=
  mkdir W output ;;;
  _setup_duckdb ;;;
  ret {| input_dir := input; output_dir := output;
         target_county := target |}.

Definition discover_counties (self : splitter) (file_path : parquet_file)
    : M (gset string) :=
  logger INFO (DiscoveringCounties (name file_path)) ;;;
  try_except
    (result <- call (select_distinct_county file_path) ;;
     let counties : gset string := list_to_set result in
     logger INFO
       (FoundCounties (size counties) (take 5 (sorted (elements counties)))) ;;;
     ret counties)
    (λ e, logger ERROR DiscoveryFailed ;;; raise e).

Definition validate_target_county (self : splitter)
    (available_counties : gset string) : M bool :=
  match pinned self with
  | Some target =>
      if bool_decide (target ∉ available_counties) then
        logger ERROR (TargetNotFound target) ;;;
        logger INFO (AvailableCounties (sorted (elements available_counties))) ;;;
        ret false
      else ret true
  | None => ret true
  end.

Definition _check_geometry_column (file_path : parquet_file) : M bool :=
  try_except
    (result <- call (describe_columns is_geometry_name file_path) ;;
     ret (match result with [] => false | _ :: _ => true end))
    (λ _, ret false).

Definition _create_geometry_and_attributes_native
    (file_path : parquet_file) (county county_safe county_dir
     file_stem : string) : M nat :=
  let geom_file := out_file county_dir county_safe file_stem "geometry" in
  copy_select W ["PARCEL_LID"; "geometry"] file_path county geom_file ;;;
  let attr_file := out_file county_dir county_safe file_stem "attributes" in
  columns <- call (describe_columns not_geometry_name file_path) ;;
  copy_select W columns file_path county attr_file ;;;
  count <- call (select_count file_path county) ;;
  logger DEBUG (CreatedGeometryFile geom_file) ;;;
  logger DEBUG (CreatedAttributesFile attr_file) ;;;
  ret count.

Definition _save_attributes_only_native
    (file_path : parquet_file) (county county_safe county_dir
     file_stem : string) : M nat :=
  let attr_file := out_file county_dir county_safe file_stem "attributes" in
  columns <- call (describe_columns not_geometry_name file_path) ;;
  copy_select W columns file_path county attr_file ;;;
  count <- call (select_count file_path county) ;;
  logger DEBUG (CreatedAttributesFile attr_file) ;;;
  ret count.

(** The [try] body for one county; it returns the updated [results]. *)
Definition process_county (self : splitter) (file_path : parquet_file)
    (is_main_file : bool) (results : dict nat) (county : string)
    (county_safe county_dir : string) : M (dict nat) :=
  has_geometry <- _check_geometry_column file_path ;;
  count <-
    (if is_main_file && has_geometry then
       _create_geometry_and_attributes_native file_path county county_safe
         county_dir (stem file_path)
     else
       _save_attributes_only_native file_path county county_safe
         county_dir (stem file_path)) ;;
  let results := dict_set results county count in
  logger INFO (CountyDone county count) ;;;
  ret results.

(** One turn of the loop over the counties. *)
Definition county_step (self : splitter) (file_path : parquet_file)
    (is_main_file : bool) (results : dict nat) (county : string)
    : M (dict nat) :=
  let county_safe := county_safe_of county in
  let county_dir := path_join (output_dir self) county_safe in
  mkdir W county_dir ;;;
  try_except
    (process_county self file_path is_main_file results county
       county_safe county_dir)
    (λ e,
       logger ERROR (ErrorProcessingCounty county) ;;;
       ret (dict_set results county 0)).

Definition counties_to_process (self : splitter) (counties : gset string)
    : gset string :=
  match pinned self with
  | Some target => {[ target ]}
  | None => counties
  end.

Definition split_file_by_county (self : splitter) (file_path : parquet_file)
    (counties : gset string) (is_main_file : bool) : M (dict nat) :=
  logger INFO (ProcessingFile (name file_path)) ;;;
  for_each (sorted (elements (counties_to_process self counties)))
    (county_step self file_path is_main_file) [].

Definition create_summary_report (self : splitter)
    (results : dict (dict nat)) : M unit :=
  write_file W (summary_file self) (Summary (report_of self results true)) ;;;
  logger INFO (SummaryCreated (summary_file self)).

Definition process_all_files (self : splitter) : M unit :=
  let parquet_files := glob_parquet W (input_dir self) in
  match parquet_files with
  | [] => logger ERROR (NoParquetFiles (input_dir self))
  | first :: others =>
      logger INFO (FoundFiles (length parquet_files)) ;;;
      let main_file := max_by_size first others in
      counties <- discover_counties self main_file ;;
      if bool_decide (counties = ∅) then logger ERROR NoCountiesFound
      else
        valid <- validate_target_county self counties ;;
        if negb valid then ret tt
        else
          match pinned self with
          | Some target => logger INFO (ExtractingOnly target)
          | None => logger INFO (ProcessingAll (size counties))
          end ;;;
          all_results <-
            for_each parquet_files
              (λ all_results file_path,
                 let is_main :=
                   bool_decide (name file_path = name main_file) in
                 results <-
                   split_file_by_county self file_path counties is_main ;;
                 ret (dict_set all_results (name file_path) results))
              [] ;;
          create_summary_report self all_results ;;;
          logger INFO Completed ;;;
          logger INFO (OutputSaved (output_dir self))
  end.

Definition main (path_exists : string → bool) (a : args) (p : process)
    : ending * process :=
  if negb (path_exists (args_input_dir a)) then
    (Exits 1, emit (Log ERROR (InputDirMissing (args_input_dir a))) p)
  else if args_list_counties a then
    let p := emit (Log INFO DiscoveringAvailable) p in
    match run (__init__ (args_input_dir a) "output_by_county" None) p with
    | (Raise e, p) => (Uncaught e, p)
    | (Ok temp_splitter, p) =>
        match glob_parquet W (args_input_dir a) with
        | [] => (Returns, emit (Log ERROR NoParquetFilesFound) p)
        | first :: others =>
            let main_file := max_by_size first others in
            match run (discover_counties temp_splitter main_file) p with
            | (Raise e, p) => (Uncaught e, p)
            | (Ok counties, p) => (Returns, print_counties counties p)
            end
        end
    end
  else
    let p := emit (Log INFO Starting) p in
    let p := emit (Log INFO (InputDirectory (args_input_dir a))) p in
    let p := log_target a p in
    let p := emit (Log INFO (OutputDirectory (args_output a))) p in
    match run (__init__ (args_input_dir a) (args_output a) (args_county a)) p
    with
    | (Raise e, p) => (Uncaught e, p)
    | (Ok splitter, p) =>
        match run (process_all_files splitter) p with
        | (Raise e, p) => (Uncaught e, p)
        | (Ok _, p) => (Returns, emit (Log INFO ProcessingComplete) p)
        end
    end.

End Methods.
End Modern.

(* ===================================================================== *)
(** * Concrete inputs *)
(* ===================================================================== *)

(** Small input directories on which the programs are run below. *)
Module Scenario.

(** The main dataset: partition key, identifier and geometry. *)
Definition fileA : parquet_file :=
  {| stem := "A"; st_size := 100;
     data := {| columns := ["COUNTY"; "PARCEL_LID"; "geometry"];
                rows := [ [VText "Clackamas"; VText "p1"; VGeom true];
                          [VText "Washington"; VText "p2"; VGeom true];
                          [VText "Clackamas"; VText "p3"; VGeom true] ] |};
     scannable := true; geo_readable := true |}.

(** An auxiliary dataset without geometry, all rows in one county. *)
Definition fileB : parquet_file :=
  {| stem := "B"; st_size := 10;
     data := {| columns := ["COUNTY"; "note"];
                rows := [ [VText "Clackamas"; VText "x"] ] |};
     scannable := true; geo_readable := false |}.

(** An auxiliary dataset whose only county is not one of [fileA]. *)
Definition fileC : parquet_file :=
  {| stem := "C"; st_size := 5;
     data := {| columns := ["COUNTY"; "note"];
                rows := [ [VText "Lane"; VText "y"] ] |};
     scannable := true; geo_readable := false |}.

(** A main dataset whose identifier column is not [PARCEL_LID]. *)
Definition fileD : parquet_file :=
  {| stem := "D"; st_size := 100;
     data := {| columns := ["COUNTY"; "parcel_id"; "geometry"];
                rows := [ [VText "Clackamas"; VText "p1"; VGeom true] ] |};
     scannable := true; geo_readable := true |}.

(** A main dataset whose partition key is null in every row. *)
Definition fileN : parquet_file :=
  {| stem := "N"; st_size := 100;
     data := {| columns := ["COUNTY"; "PARCEL_LID"; "geometry"];
                rows := [ [VNull; VText "p1"; VGeom true] ] |};
     scannable := true; geo_readable := true |}.

(** A world where every library call succeeds and the engine hands
    geometry over as raw bytes. *)
Definition world_of (listing : list parquet_file) : world :=
  {| glob_parquet := λ _, listing;
     spatial_ok := true;
     df_geometry := λ _, VBytes "wkb";
     ident_ok := λ _, true;
     geoframe_ok := λ _, true;
     write_ok := λ _ _, true;
     mkdir_ok := λ _, true |}.

(** The same world on a disk that refuses every write. *)
Definition read_only_world_of (listing : list parquet_file) : world :=
  {| glob_parquet := λ _, listing;
     spatial_ok := true;
     df_geometry := λ _, VBytes "wkb";
     ident_ok := λ _, true;
     geoframe_ok := λ _, true;
     write_ok := λ _ _, false;
     mkdir_ok := λ _, true |}.

Definition start : state := {| dirs := ∅; files := ∅; log := [] |}.

Definition splitter_for (target : option string) : splitter :=
  {| input_dir := "in"; output_dir := "out"; target_county := target |}.

End Scenario.

(* ===================================================================== *)
(** * Concrete inputs with one fault *)
(* ===================================================================== *)

Module Faults.

(** A disk that takes every file but the attribute files. *)
Definition attributes_unwritable (listing : list parquet_file) : world :=
  {| glob_parquet := λ _, listing;
     spatial_ok := true;
     df_geometry := λ _, VBytes "wkb";
     ident_ok := λ _, true;
     geoframe_ok := λ _, true;
     write_ok := λ path _, negb (contains "_attributes.parquet" path);
     mkdir_ok := λ _, true |}.

(** An engine whose spatial extension cannot be loaded. *)
Definition no_spatial (listing : list parquet_file) : world :=
  {| glob_parquet := λ _, listing;
     spatial_ok := false;
     df_geometry := λ _, VBytes "wkb";
     ident_ok := λ _, true;
     geoframe_ok := λ _, true;
     write_ok := λ _ _, true;
     mkdir_ok := λ _, true |}.

(** A file the engine cannot scan. *)
Definition unscannable : parquet_file :=
  {| stem := "U"; st_size := 100;
     data := {| columns := ["COUNTY"]; rows := [ [VText "Lane"] ] |};
     scannable := false; geo_readable := true |}.

(** A file without the partition-key column. *)
Definition keyless : parquet_file :=
  {| stem := "K"; st_size := 100;
     data := {| columns := ["PARCEL_LID"]; rows := [ [VText "p1"] ] |};
     scannable := true; geo_readable := true |}.

(** A disk on which the output directory can be made and no other. *)
Definition no_county_directory (listing : list parquet_file) : world :=
  {| glob_parquet := λ _, listing;
     spatial_ok := true;
     df_geometry := λ _, VBytes "wkb";
     ident_ok := λ _, true;
     geoframe_ok := λ _, true;
     write_ok := λ _ _, true;
     mkdir_ok := λ path, String.eqb path "out" |}.

End Faults.

(* ===================================================================== *)
(** * Vocabulary of the properties *)
(* ===================================================================== *)

Open Scope list_scope.

(** [m] moves every state to an [R]-related one, whatever it returns. *)
Definition keeps (R : relation state) {A} (m : M A) : Prop :=
  ∀ st, R st (m st).2.

(** The log grows by records that all satisfy [P]. *)
Definition logs_only (P : level * message → Prop) : relation state :=
  λ st st', ∃ l, log st' = log st ++ l ∧ Forall P l.

(** The files and directories stay as they are. *)
Definition same_outputs : relation state :=
  λ st st', files st' = files st ∧ dirs st' = dirs st.

(** Every file that differs from before is a Parquet file without rows. *)
Definition new_files_empty : relation state :=
  λ st st', ∀ p, files st' !! p = files st !! p
                 ∨ ∃ t, files st' !! p = Some (Parquet t) ∧ rows t = [].

(** A record that is not an error. *)
Definition not_error (e : level * message) : Prop := e.1 ≠ ERROR.


(** [COUNT( * ) WHERE COUNTY = k] on the stored table of [f]. *)
Definition count_in (f : parquet_file) (k : string) : nat :=
  length (rows_of_county (columns (data f)) k (rows (data f))).

(** The rows of [f] whose partition key is null. *)
Definition null_rows (f : parquet_file) : nat :=
  length (filter (λ r, county_of (columns (data f)) r = None) (rows (data f))).

(** The row has a partition key, and the key satisfies [P]. *)
Definition key_among (P : string → Prop) (cols : list string)
    (r : list value) : Prop :=
  match county_of cols r with
  | Some k => P k
  | None => False
  end.

#[global] Instance key_among_dec P `{!∀ k, Decision (P k)} cols r :
  Decision (key_among P cols r).
Proof. unfold key_among. destruct (county_of cols r); apply _. Defined.

(** The rows of [f] whose partition key is one of [keys]. *)
Definition rows_keyed_in (keys : gset string) (f : parquet_file) : nat :=
  length (filter (key_among (.∈ keys) (columns (data f))) (rows (data f))).

(** The per-county failures recorded in a log. *)
Definition is_failure (e : level * message) : bool :=
  match e.2 with
  | ErrorProcessingCounty _ => true
  | _ => false
  end.

Definition failures (l : list (level * message)) : nat :=
  length (List.filter is_failure l).

Definition not_failure (e : level * message) : Prop := is_failure e = false.

(** What one turn of the loop does to the results and to the number of
    logged failures: it skips an empty county or stores its row count; or
    it logs one failure and stores 0. *)
Definition turn_outcome (f : parquet_file) (results : dict nat) (k : string)
    (results' : dict nat) (st st' : state) : Prop :=
  (failures (log st') = failures (log st)
   ∧ ((results' = results ∧ count_in f k = 0)
      ∨ results' = dict_set results k (count_in f k)))
  ∨ (failures (log st') = S (failures (log st))
     ∧ results' = dict_set results k 0).

(** The frame [g] has the rows of [src], and row by row its cell in
    column [c] is the cell of [src] in that column. *)
Definition rowwise_from (src : frame) (g : frame) (c : string) : Prop :=
  len g = len src
  ∧ ∀ i r, rows src !! i = Some r →
      ∃ rg, rows g !! i = Some rg
            ∧ cell (columns g) rg c = cell (columns src) r c.

(** Every file that differs from before has a path in [P], and every
    directory that was not there before is in [D]. *)
Definition writes_within (P D : string → Prop) : relation state :=
  λ st st', (∀ p, files st' !! p = files st !! p ∨ P p)
            ∧ (∀ d, d ∈ dirs st' → d ∈ dirs st ∨ D d).

(** What a program does to a state: the directories it makes, the files
    it writes, in order, and the records it logs. *)
Definition replay (ws : list (string * content)) (fs : gmap string content)
    : gmap string content :=
  foldl (λ m w, <[w.1 := w.2]> m) fs ws.

Definition apply_effect (ds : gset string) (ws : list (string * content))
    (lg : list (level * message)) (st : state) : state :=
  {| dirs := ds ∪ dirs st; files := replay ws (files st);
     log := log st ++ lg |}.

(** [m] reads nothing of the state it runs in: its result and what it
    does are the same from every state. *)
Definition oblivious {A} (m : M A) : Prop :=
  ∃ r ds ws lg, ∀ st, m st = (r, apply_effect ds ws lg st).

(** ** Where the model of the engine is exact

    The engine resolves a column name without regard to ASCII letter
    case, hands over every non-null value of a column, and runs whatever
    SQL a county spliced between quotes makes.  The model of the engine
    above resolves names exactly, reads a key only from a text cell and
    fails on a county with a quote.  The two agree on the files and keys
    described here; a property that depends on the engine's answer
    elsewhere takes them as hypotheses. *)

(** A column of [df] that is [q] up to letter case is [q]. *)
Definition binds_exactly (q : string) (df : frame) : bool :=
  forallb (λ c, implb (String.eqb (lower c) (lower q)) (String.eqb c q))
    (columns df).

(** No key holds a quote. *)
Definition quote_free (keys : gset string) : bool :=
  forallb literal_ok (elements keys).

(** The texts in the [COUNTY] cells of [f]. *)
Definition keys_of (f : parquet_file) : gset string :=
  list_to_set (omap (county_of (columns (data f))) (rows (data f))).

(** Every [COUNTY] cell of [f] is a text or null. *)
Definition text_keyed (f : parquet_file) : bool :=
  forallb (λ r, match cell (columns (data f)) r "COUNTY" with
                | VNull | VText _ => true
                | _ => false
                end)
    (rows (data f)).

(** The key column of [f], when it has one, is spelt [COUNTY] and holds
    texts or nulls. *)
Definition plainly_keyed (f : parquet_file) : bool :=
  binds_exactly "COUNTY" (data f) && text_keyed f.

(* ===================================================================== *)
(** * Reasoning about programs *)
(* ===================================================================== *)

(** Unfolding the monad. *)
Ltac step :=
  unfold bind, ret, raise, call, try_except, logger, mkdir, write_file in *;
  simpl in *.

(** ** Programs whose every step keeps a relation between states *)

Section Keeps.
Context (R : relation state) `{!PreOrder R}.

Lemma keeps_ret {A} (a : A) : keeps R (ret a).
Proof. intros st. simpl. reflexivity. Qed.

Lemma keeps_raise {A} e : keeps R (@raise A e).
Proof. intros st. simpl. reflexivity. Qed.

Lemma keeps_call {A} (r : result A) : keeps R (call r).
Proof. intros st. simpl. reflexivity. Qed.

Lemma keeps_bind {A B} (m : M A) (k : A → M B) :
  keeps R m → (∀ a, keeps R (k a)) → keeps R (bind m k).
Proof.
  intros Hm Hk st. unfold bind. specialize (Hm st).
  destruct (m st) as [[a|e] st1]; simpl in *; [|done].
  etrans; [exact Hm | apply Hk].
Qed.

Lemma keeps_try_except {A} (m : M A) (h : exn → M A) :
  keeps R m → (∀ e, keeps R (h e)) → keeps R (try_except m h).
Proof.
  intros Hm Hh st. unfold try_except. specialize (Hm st).
  destruct (m st) as [[a|e] st1]; simpl in *; [done|].
  etrans; [exact Hm | apply Hh].
Qed.

Lemma keeps_for_each {A B} (l : list A) (body : B → A → M B) acc :
  (∀ b a, keeps R (body b a)) → keeps R (for_each l body acc).
Proof.
  intros Hbody. revert acc.
  induction l as [|x l IH]; intros acc; simpl.
  - apply keeps_ret.
  - apply keeps_bind; [apply Hbody | intros; apply IH].
Qed.

Lemma keeps_if {A} (b : bool) (m1 m2 : M A) :
  keeps R m1 → keeps R m2 → keeps R (if b then m1 else m2).
Proof. by destruct b. Qed.
End Keeps.

#[global] Instance logs_only_preorder P : PreOrder (logs_only P).
Proof.
  split.
  - intros st. exists []. by rewrite app_nil_r.
  - intros s1 s2 s3 [l1 [H1 F1]] [l2 [H2 F2]]. exists (l1 ++ l2).
    rewrite H2, H1, <- app_assoc. split; [done | by apply Forall_app].
Qed.

#[global] Instance same_outputs_preorder : PreOrder same_outputs.
Proof.
  split.
  - by intros st.
  - intros s1 s2 s3 [H1 H1'] [H2 H2']. split; congruence.
Qed.

Lemma logs_only_logger P l m : P (l, m) → keeps (logs_only P) (logger l m).
Proof. intros HP st. exists [(l, m)]. simpl. by repeat constructor. Qed.

Lemma logs_only_mkdir P W path : keeps (logs_only P) (mkdir W path).
Proof.
  intros st. unfold mkdir. exists []. rewrite app_nil_r.
  by destruct (mkdir_ok W path).
Qed.

Lemma logs_only_write_file P W path c : keeps (logs_only P) (write_file W path c).
Proof.
  intros st. unfold write_file. exists []. rewrite app_nil_r.
  by destruct (write_ok W path c).
Qed.

Lemma same_outputs_logger l m : keeps same_outputs (logger l m).
Proof. by intros st. Qed.

Create HintDb keeps discriminated.
#[global] Hint Resolve keeps_ret keeps_raise keeps_call keeps_bind
  keeps_try_except keeps_for_each keeps_if
  logs_only_mkdir logs_only_write_file same_outputs_logger : keeps.
#[global] Hint Extern 1 (PreOrder _) => exact _ : keeps.

(* ===================================================================== *)
(** * Discovery and validation *)
(* ===================================================================== *)

Lemma pinned_Some self target :
  target_county self = Some target → target ≠ "" → pinned self = Some target.
Proof.
  unfold pinned. intros -> Hne. destruct target; [done | reflexivity].
Qed.

Lemma pinned_nonempty self target : pinned self = Some target → target ≠ "".
Proof.
  unfold pinned. destruct (target_county self) as [[|a s]|]; naive_solver.
Qed.

(** The keys a scan returns are the texts of the [COUNTY] cells. *)
Lemma select_distinct_county_spec f l :
  select_distinct_county f = Ok l →
  ∀ k, k ∈ l ↔ ∃ r, r ∈ rows (data f) ∧ cell (columns (data f)) r "COUNTY" = VText k.
Proof.
  unfold select_distinct_county, read_parquet.
  destruct (scannable f); [|done].
  destruct (has_column "COUNTY" (data f)); [|done].
  intros [= <-] k. unfold sorted.
  rewrite merge_sort_Permutation, elem_of_remove_dups, list_elem_of_omap.
  unfold county_of. split.
  - intros (r & Hr & Hk). exists r. split; [done|].
    destruct (cell _ r "COUNTY"); naive_solver.
  - intros (r & Hr & Hk). exists r. by rewrite Hk.
Qed.

Lemma list_to_set_nonempty (l : list string) :
  l ≠ [] → (list_to_set l : gset string) ≠ ∅.
Proof.
  destruct l as [|x l]; [done|]. intros _ H.
  assert (x ∈ (list_to_set (x :: l) : gset string)) as Hx by set_solver.
  rewrite H in Hx. set_solver.
Qed.

(** C9. Discovery does not read the pinned county: two splitters that
    differ in [target_county] get the same result, the same log and the
    same outputs from [discover_counties] on the same file, in both
    programs. *)
Theorem discovery_ignores_target :
  ∀ (self : splitter) (t1 t2 : option string) (f : parquet_file) (st : state),
    let self1 := {| input_dir := input_dir self; output_dir := output_dir self;
                    target_county := t1 |} in
    let self2 := {| input_dir := input_dir self; output_dir := output_dir self;
                    target_county := t2 |} in
    ByCounty.discover_counties self1 f st = ByCounty.discover_counties self2 f st
    ∧ Modern.discover_counties self1 f st = Modern.discover_counties self2 f st.
Proof. intros. split; reflexivity. Qed.

(** C10. [_check_geometry_column] of the DuckDB-only program always
    returns a boolean and leaves the state alone; when the schema query
    raises it returns [False], when the engine can scan the file it says
    whether a column is named [geometry]; and after a failed schema query
    the [try] body goes on with the attributes-only branch. *)
Theorem check_geometry_column_total :
  ∀ (W : world) (f : parquet_file) (st : state),
    ∃ b : bool,
      Modern._check_geometry_column f st = (Ok b, st)
      ∧ (∀ e, describe_columns is_geometry_name f = Raise e → b = false)
      ∧ (∀ t, read_parquet f = Ok t → b = has_column "geometry" t)
      ∧ (∀ e self is_main results county county_safe county_dir,
           describe_columns is_geometry_name f = Raise e →
           Modern.process_county W self f is_main results county
             county_safe county_dir st
           = (count <- Modern._save_attributes_only_native W f county
                         county_safe county_dir (stem f) ;;
              logger INFO (CountyDone county count) ;;;
              ret (dict_set results county count)) st).
Proof.
  intros W f st.
  assert (Hrun : Modern._check_geometry_column f st =
    (Ok (match describe_columns is_geometry_name f with
         | Ok (_ :: _) => true | _ => false end), st)).
  { unfold Modern._check_geometry_column. step.
    by destruct (describe_columns is_geometry_name f) as [[|]|]. }
  eexists. split; [exact Hrun|]. split; [|split].
  - by intros e ->.
  - intros t Ht. unfold describe_columns. rewrite Ht.
    unfold has_column.
    destruct (List.filter is_geometry_name (columns t)) as [|c cs] eqn:Hf.
    + symmetry. apply bool_decide_eq_false. intros Hin.
      apply list_elem_of_In in Hin.
      assert (In "geometry" (List.filter is_geometry_name (columns t))) as HIn
        by (apply filter_In; by split).
      by rewrite Hf in HIn.
    + symmetry. apply bool_decide_eq_true.
      assert (In c (List.filter is_geometry_name (columns t))) as HIn
        by (rewrite Hf; by left).
      apply filter_In in HIn as [HIn Hc].
      unfold is_geometry_name in Hc. apply String.eqb_eq in Hc as ->.
      by apply list_elem_of_In.
  - intros e self is_main results county cs cd He.
    unfold Modern.process_county.
    unfold bind at 1. rewrite Hrun, He. simpl.
    by rewrite andb_false_r.
Qed.

(** C3, as amended.  A run whose requested county is a non-empty string
    outside the discovered set stops before any file is processed, in both
    programs: no directory or file is written, the report is not written,
    and the log gains only the discovery records followed by the error
    naming the county and the full sorted list of available counties (or,
    when nothing at all was discovered, by the error saying so). *)
Theorem invalid_target_aborts :
  ∀ (W : world) (self : splitter) (st : state)
    (first : parquet_file) (others : list parquet_file)
    (l : list string) (target : string),
    glob_parquet W (input_dir self) = first :: others →
    select_distinct_county (max_by_size first others) = Ok l →
    target_county self = Some target →
    target ≠ "" →
    target ∉ l →
    let main_file := max_by_size first others in
    let counties : gset string := list_to_set l in
    let available := sorted (elements counties) in
    let verdict :=
      match l with
      | [] => [ (ERROR, NoCountiesFound) ]
      | _ :: _ => [ (ERROR, TargetNotFound target);
                    (INFO, AvailableCounties available) ]
      end in
    (∀ k, k ∈ available ↔ k ∈ l)
    ∧ ByCounty.process_all_files W self st
      = (Ok tt,
         {| dirs := dirs st; files := files st;
            log := log st ++
              [ (INFO, FoundFiles (S (length others)));
                (INFO, DiscoveringCounties (name main_file));
                (INFO, FoundCounties (size counties) available) ]
              ++ verdict |})
    ∧ Modern.process_all_files W self st
      = (Ok tt,
         {| dirs := dirs st; files := files st;
            log := log st ++
              [ (INFO, FoundFiles (S (length others)));
                (INFO, DiscoveringCounties (name main_file));
                (INFO, FoundCounties (size counties) (take 5 available)) ]
              ++ verdict |}).
Proof.
  intros W self st first others l target Hglob Hsel Htarget Hnonempty Hnotin
    main_file counties available verdict.
  assert (Hpin : pinned self = Some target) by by apply pinned_Some.
  assert (Hout : bool_decide (target ∉ counties) = true).
  { apply bool_decide_eq_true. subst counties. set_solver. }
  assert (Hverdict : bool_decide (counties = ∅) = match l with [] => true | _ => false end).
  { subst counties. destruct l as [|k l]; [done|].
    apply bool_decide_eq_false. by apply list_to_set_nonempty. }
  split; [|split].
  - intros k. subst available counties. unfold sorted.
    rewrite merge_sort_Permutation. set_solver.
  - unfold ByCounty.process_all_files. rewrite Hglob.
    unfold ByCounty.discover_counties, ByCounty.validate_target_county.
    subst main_file. step. rewrite Hsel. fold counties.
    rewrite Hverdict, Hpin, Hout. subst verdict.
    destruct l; simpl; by rewrite <- !app_assoc.
  - unfold Modern.process_all_files. rewrite Hglob.
    unfold Modern.discover_counties, Modern.validate_target_county.
    subst main_file. step. rewrite Hsel. fold counties.
    rewrite Hverdict, Hpin, Hout. subst verdict.
    destruct l; simpl; by rewrite <- !app_assoc.
Qed.

(** The amended C3 at work: asking for Multnomah in a directory that
    holds Clackamas and Washington. *)
Lemma invalid_target_aborts_witness :
  let W := Scenario.world_of [Scenario.fileB; Scenario.fileA] in
  let self := Scenario.splitter_for (Some "Multnomah") in
  ByCounty.process_all_files W self Scenario.start
  = (Ok tt,
     {| dirs := ∅; files := ∅;
        log := [ (INFO, FoundFiles 2);
                 (INFO, DiscoveringCounties "A.parquet");
                 (INFO, FoundCounties 2 ["Clackamas"; "Washington"]);
                 (ERROR, TargetNotFound "Multnomah");
                 (INFO, AvailableCounties ["Clackamas"; "Washington"]) ] |}).
Proof.
  intros W self.
  pose proof (invalid_target_aborts W self Scenario.start
                Scenario.fileB [Scenario.fileA]
                ["Clackamas"; "Washington"] "Multnomah") as H.
  destruct H as (_ & H & _);
    [reflexivity | reflexivity | reflexivity | discriminate
    | compute_done | ].
  rewrite H. vm_compute. reflexivity.
Defined.

(** C3, as stated, fails for the empty string: [--county ""] is outside
    the discovered set, yet validation accepts it and the run goes on
    unpinned, writing every county and the report.  And when no county at
    all is discovered, the run stops before validation, which then reports
    nothing. *)
Lemma empty_target_is_not_rejected :
  let W := Scenario.world_of [Scenario.fileB; Scenario.fileA] in
  let self := Scenario.splitter_for (Some "") in
  let final := (ByCounty.process_all_files W self Scenario.start).2 in
  select_distinct_county Scenario.fileA = Ok ["Clackamas"; "Washington"]
  ∧ ("" ∉ ["Clackamas"; "Washington"])
  ∧ ByCounty.validate_target_county self (list_to_set ["Clackamas"; "Washington"])
      Scenario.start = (Ok true, Scenario.start)
  ∧ is_Some (files final !! "out/Clackamas/Clackamas_A_geometry.parquet")
  ∧ is_Some (files final !! "out/split_summary.txt")
  ∧ is_Some (files (Modern.process_all_files W self Scenario.start).2
               !! "out/split_summary.txt")
  ∧ ByCounty.process_all_files (Scenario.world_of [Scenario.fileN])
      (Scenario.splitter_for (Some "Multnomah")) Scenario.start
    = (Ok tt,
       {| dirs := ∅; files := ∅;
          log := [ (INFO, FoundFiles 1);
                   (INFO, DiscoveringCounties "N.parquet");
                   (INFO, FoundCounties 0 []);
                   (ERROR, NoCountiesFound) ] |}).
Proof.
  repeat split; try (vm_compute; eauto; fail).
  compute_done.
Qed.

(* ===================================================================== *)
(** * Extraction: the two paths and the fallback *)
(* ===================================================================== *)

Lemma cell_absent cols r c : c ∉ cols → cell cols r c = VNull.
Proof.
  revert r. induction cols as [|c' cols IH]; intros r Hc; [done|].
  destruct r as [|v r]; [done|]. simpl.
  destruct (String.eqb_spec c' c) as [->|Hne]; [set_solver|].
  apply IH. set_solver.
Qed.

(** A first geometry value that is raw bytes needs a row and a geometry
    column. *)
Lemma first_geometry_bytes df :
  is_bytes (first_geometry df) = true →
  (len df =? 0)%nat = false ∧ has_column "geometry" df = true.
Proof.
  unfold first_geometry, len, has_column.
  destruct (rows df) as [|r rs]; [done|]. intros Hb. split; [done|].
  apply bool_decide_eq_true. destruct (decide ("geometry" ∈ columns df)); [done|].
  by rewrite cell_absent in Hb.
Qed.

(** Path A reads and filters; it never touches the state. *)
Lemma path_A_pure f county st :
  ByCounty.path_A f county st
  = (match gpd_read_parquet f with
     | Ok full_gdf => filter_county full_gdf county
     | Raise e => Raise e
     end, st).
Proof.
  unfold ByCounty.path_A. step. by destruct (gpd_read_parquet f).
Qed.

(** C1. With a pinned county, when the engine-side query (Path B) hands
    back a geometry column whose first value is raw bytes, the [try] body
    drops that frame and asks Path A.  If Path A returns a frame, the body
    is exactly the writing and counting of that frame, which is also what
    the unpinned program, whose extraction is Path A, does from the same
    state; nothing depends on the frame or the bytes Path B returned.  If
    Path A raises, its exception leaves the body and no file is written. *)
Theorem bytes_fallback_is_path_A :
  ∀ (W : world) (self : splitter) (f : parquet_file) (is_main : bool)
    (results : dict nat) (county county_safe county_dir : string)
    (st : state) (t : frame) (target : string),
    pinned self = Some target →
    where_county f county = Ok t →
    is_bytes (first_geometry (to_df W t)) = true →
    let st1 := (logger INFO (ConvertingBytes county) st).2 in
    match ByCounty.path_A f county st1 with
    | (Ok gdf, _) =>
        ByCounty.process_county W self f is_main results county
          county_safe county_dir st
        = ByCounty.write_subset W f is_main results county county_safe
            county_dir gdf st1
        ∧ ∀ unpinned : splitter, pinned unpinned = None →
            ByCounty.process_county W unpinned f is_main results county
              county_safe county_dir st1
            = ByCounty.write_subset W f is_main results county county_safe
                county_dir gdf st1
    | (Raise e, _) =>
        ∃ st2,
          ByCounty.process_county W self f is_main results county
            county_safe county_dir st = (Raise e, st2)
          ∧ files st2 = files st ∧ dirs st2 = dirs st
    end.
Proof.
  intros W self f is_main results county cs cd st t target Hpin Hwhere Hbytes st1.
  destruct (first_geometry_bytes _ Hbytes) as [Hlen Hgeom].
  assert (Hextract : ByCounty.extract W self f county st
    = match gpd_read_parquet f with
      | Ok full_gdf =>
          match filter_county full_gdf county with
          | Ok gdf => (Ok (Some gdf), st1)
          | Raise e =>
              (Raise e,
               (logger INFO (FallingBackToGeoPandas county)
                  (logger WARNING (GeometryValidationFailed county (name f))
                     st1).2).2)
          end
      | Raise e =>
          (Raise e,
           (logger INFO (FallingBackToGeoPandas county)
              (logger WARNING (GeometryValidationFailed county (name f))
                 st1).2).2)
      end).
  { unfold ByCounty.extract, ByCounty.path_B, ByCounty.path_A.
    rewrite Hpin. subst st1. step. rewrite Hwhere. simpl.
    rewrite Hlen, Hgeom, Hbytes.
    destruct (gpd_read_parquet f) as [full|e]; [|done].
    by destruct (filter_county full county). }
  rewrite path_A_pure.
  destruct (gpd_read_parquet f) as [full|e] eqn:Hread.
  - destruct (filter_county full county) as [gdf|e] eqn:Hfilter.
    + split.
      * unfold ByCounty.process_county, bind. by rewrite Hextract.
      * intros unpinned Hun.
        unfold ByCounty.process_county, ByCounty.extract, ByCounty.path_A.
        rewrite Hun. step. by rewrite Hread, Hfilter.
    + eexists. unfold ByCounty.process_county, bind. by rewrite Hextract.
  - eexists. unfold ByCounty.process_county, bind. by rewrite Hextract.
Qed.

(** C1 at work: Clackamas pinned on the main file, whose geometry the
    engine returns as bytes. *)
Lemma bytes_fallback_is_path_A_witness :
  let W := Scenario.world_of [Scenario.fileB; Scenario.fileA] in
  let self := Scenario.splitter_for (Some "Clackamas") in
  let gdf := {| columns := ["COUNTY"; "PARCEL_LID"; "geometry"];
                rows := [ [VText "Clackamas"; VText "p1"; VGeom true];
                          [VText "Clackamas"; VText "p3"; VGeom true] ] |} in
  first_geometry (to_df W gdf) = VBytes "wkb"
  ∧ ByCounty.process_county W self Scenario.fileA true [] "Clackamas"
      "Clackamas" "out/Clackamas" Scenario.start
    = ByCounty.write_subset W Scenario.fileA true [] "Clackamas"
        "Clackamas" "out/Clackamas" gdf
        (logger INFO (ConvertingBytes "Clackamas") Scenario.start).2.
Proof.
  intros W self gdf. split; [reflexivity|].
  pose proof (bytes_fallback_is_path_A W self Scenario.fileA true []
                "Clackamas" "Clackamas" "out/Clackamas" Scenario.start gdf
                "Clackamas" eq_refl eq_refl eq_refl) as H.
  simpl in H. exact (proj1 H).
Defined.

(* ===================================================================== *)
(** * Dictionaries: lookups after updates *)
(* ===================================================================== *)

Lemma dict_get_set_eq {V} (d : dict V) k v : dict_get (dict_set d k v) k = Some v.
Proof.
  induction d as [|[k' v'] d IH]; simpl.
  - by rewrite String.eqb_refl.
  - destruct (String.eqb_spec k' k) as [->|Hne]; simpl.
    + by rewrite String.eqb_refl.
    + by destruct (String.eqb_spec k' k).
Qed.

Lemma dict_get_set_ne {V} (d : dict V) k k' v :
  k ≠ k' → dict_get (dict_set d k v) k' = dict_get d k'.
Proof.
  intros Hne. induction d as [|[k0 v0] d IH]; simpl.
  - by destruct (String.eqb_spec k k').
  - destruct (String.eqb_spec k0 k) as [->|Hne0]; simpl.
    + by destruct (String.eqb_spec k k').
    + by rewrite IH.
Qed.

Lemma sum_values_set_fresh (d : dict nat) k v :
  dict_get d k = None → sum_values (dict_set d k v) = sum_values d + v.
Proof.
  unfold sum_values, values.
  induction d as [|[k' v'] d IH]; simpl; [lia|].
  destruct (String.eqb_spec k' k) as [->|Hne]; [done|].
  intros Hd. simpl. rewrite IH by done. lia.
Qed.

(* ===================================================================== *)
(** * The geometry file and the attribute file *)
(* ===================================================================== *)

Lemma string_app_inv_head (a x y : string) :
  (a ++ x)%string = (a ++ y)%string → x = y.
Proof.
  induction a as [|c a IH]; simpl; [done|].
  intros H. injection H as H'. by apply IH.
Qed.

Lemma out_file_roles county_dir county_safe file_stem :
  out_file county_dir county_safe file_stem "geometry"
  ≠ out_file county_dir county_safe file_stem "attributes".
Proof.
  unfold out_file, path_join. intros H.
  repeat (apply string_app_inv_head in H). discriminate.
Qed.

Lemma select_Ok cols df g : select cols df = Ok g → g = project cols df.
Proof. unfold select. destruct (List.find _ cols); by intros [= <-]. Qed.

Lemma drop_geometry_Ok df a :
  drop_geometry df = Ok a → a = keep_columns not_geometry_name df.
Proof. unfold drop_geometry. destruct (has_column _ df); by intros [= <-]. Qed.


Lemma in_not_geometry_filter cols c :
  c ∈ List.filter not_geometry_name cols ↔ c ∈ cols ∧ c ≠ "geometry".
Proof.
  rewrite !list_elem_of_In, filter_In. unfold not_geometry_name, is_geometry_name.
  destruct (String.eqb_spec c "geometry"); simpl; intuition congruence.
Qed.

(** The columns [id_cols] finds, in column order. *)
Lemma id_cols_spec gdf c :
  c ∈ ByCounty.id_cols gdf ↔
  c ∈ columns gdf ∧ looks_like_id c = true.
Proof. unfold ByCounty.id_cols. by rewrite !list_elem_of_In, filter_In. Qed.

Lemma write_file_Ok W path c st st' :
  write_file W path c st = (Ok tt, st') →
  files st' = <[path := c]> (files st) ∧ dirs st' = dirs st ∧ log st' = log st.
Proof.
  unfold write_file. destruct (write_ok W path c); [|done]. by intros [= <-].
Qed.

Lemma create_geometry_and_attributes_Ok W gdf county_safe county_dir file_stem
    st st' :
  ByCounty._create_geometry_and_attributes W gdf county_safe county_dir
    file_stem st = (Ok tt, st') →
  let geometry_cols :=
    if has_column "PARCEL_LID" gdf then ["PARCEL_LID"; "geometry"]
    else match ByCounty.id_cols gdf with
         | c :: _ => [c; "geometry"]
         | [] => ["geometry"]
         end in
  files st'
  = <[out_file county_dir county_safe file_stem "attributes" :=
        Parquet (keep_columns not_geometry_name gdf)]>
      (<[out_file county_dir county_safe file_stem "geometry" :=
           Parquet (project geometry_cols gdf)]> (files st))
  ∧ dirs st' = dirs st.
Proof.
  unfold ByCounty._create_geometry_and_attributes. intros H. step.
  repeat (case_match; simplify_eq);
    repeat match goal with
      | H : select _ _ = Ok _ |- _ => apply select_Ok in H as ->
      | H : drop_geometry _ = Ok _ |- _ => apply drop_geometry_Ok in H as ->
      end; done.
Qed.

Lemma copy_select_Ok W cols f county path st st' :
  copy_select W cols f county path st = (Ok tt, st') →
  ∃ t, where_county f county = Ok t
       ∧ files st' = <[path := Parquet (project cols t)]> (files st)
       ∧ dirs st' = dirs st ∧ log st' = log st.
Proof.
  unfold copy_select. intros H. step.
  repeat (case_match; simplify_eq). eauto.
Qed.

Lemma where_county_columns f county t :
  where_county f county = Ok t → columns t = columns (data f).
Proof.
  unfold where_county, read_parquet. intros H.
  repeat (case_match; simplify_eq). done.
Qed.

Lemma create_geometry_and_attributes_native_Ok W f county county_safe
    county_dir file_stem st n st' :
  Modern._create_geometry_and_attributes_native W f county county_safe
    county_dir file_stem st = (Ok n, st') →
  ∃ t, where_county f county = Ok t ∧ n = len t
    ∧ files st'
      = <[out_file county_dir county_safe file_stem "attributes" :=
            Parquet (project (List.filter not_geometry_name (columns (data f))) t)]>
          (<[out_file county_dir county_safe file_stem "geometry" :=
               Parquet (project ["PARCEL_LID"; "geometry"] t)]> (files st))
    ∧ dirs st' = dirs st.
Proof.
  unfold Modern._create_geometry_and_attributes_native. intros H.
  unfold bind at 1 in H.
  destruct (copy_select W ["PARCEL_LID"; "geometry"] f county _ st)
    as [[[]|e] st1] eqn:Hgeom; [|done].
  apply copy_select_Ok in Hgeom as (t & Ht & Hf1 & Hd1 & _).
  unfold bind at 1, call at 1 in H.
  unfold describe_columns in H.
  assert (read_parquet f = Ok (data f)) as Hread.
  { unfold where_county in Ht. unfold read_parquet in *.
    by destruct (scannable f). }
  rewrite Hread in H.
  unfold bind at 1 in H.
  destruct (copy_select W _ f county _ st1) as [[[]|e] st2] eqn:Hattr; [|done].
  apply copy_select_Ok in Hattr as (t' & Ht' & Hf2 & Hd2 & _).
  rewrite Ht in Ht'. injection Ht' as <-.
  unfold select_count in H. rewrite Ht in H. step. injection H as <- <-.
  exists t. simpl. rewrite Hf2, Hf1, Hd2, Hd1. done.
Qed.



(* ===================================================================== *)
(** * The identifier column *)
(* ===================================================================== *)

(** The first element a [List.filter] keeps. *)
Lemma filter_head {A} (p : A → bool) (l : list A) x xs :
  List.filter p l = x :: xs →
  ∃ before after, l = before ++ x :: after
                  ∧ (∀ y, y ∈ before → p y = false) ∧ p x = true.
Proof.
  induction l as [|y l IH]; simpl; [done|].
  destruct (p y) eqn:Hy.
  - intros [= -> _]. exists [], l. split; [done|]. split; [|done].
    intros z Hz. by apply elem_of_nil in Hz.
  - intros (before & after & -> & Hb & Hx)%IH.
    exists (y :: before), after. split; [done|]. split; [|done].
    intros z [->|Hz]%elem_of_cons; auto.
Qed.

Lemma filter_none {A} (p : A → bool) (l : list A) :
  List.filter p l = [] → ∀ y, y ∈ l → p y = false.
Proof.
  induction l as [|x l IH]; simpl; intros H y Hy.
  - by apply elem_of_nil in Hy.
  - destruct (p x) eqn:Hx; [done|].
    apply elem_of_cons in Hy as [->|Hy]; auto.
Qed.

Lemma select_present cols df :
  (∀ c, c ∈ cols → c ∈ columns df) → select cols df = Ok (project cols df).
Proof.
  intros Hall. unfold select.
  destruct (List.find _ cols) as [c|] eqn:Hfind; [|done].
  apply find_some in Hfind as [Hin Hneg].
  apply list_elem_of_In, Hall in Hin.
  unfold has_column in Hneg. by rewrite bool_decide_eq_true_2 in Hneg.
Qed.

(** A projection that names a column the file lacks cannot be copied. *)
Lemma copy_select_missing W cols f county path st c :
  c ∈ cols → c ∉ columns (data f) →
  ∃ e, copy_select W cols f county path st = (Raise e, st).
Proof.
  intros Hin Hmissing. unfold copy_select.
  destruct (negb (forallb (ident_ok W) cols) || bool_decide (cols = []));
    [by eexists|].
  step. destruct (where_county f county) as [t|e] eqn:Ht; [|by eexists].
  apply where_county_columns in Ht.
  destruct (List.find (λ c, negb (has_column c t)) cols) as [c'|] eqn:Hfind;
    [by eexists|].
  exfalso. apply list_elem_of_In in Hin.
  pose proof (find_none _ _ Hfind c Hin) as Hc. simpl in Hc.
  unfold has_column in Hc. rewrite Ht in Hc.
  by rewrite bool_decide_eq_false_2 in Hc.
Qed.

(** C5, as amended.  In [split_geoparquet_by_county.py], for a subset with
    a geometry column and a disk that takes both files, the operation
    succeeds and the geometry file is the projection of the subset on:
    [PARCEL_LID, geometry] when a column is called [PARCEL_LID]; else
    [c, geometry] for the first column [c], in column order, whose
    lowercased name contains "id" or "lid"; else [geometry] alone.  In
    [split_geoparquet_modern.py], for a file that spells [COUNTY],
    [PARCEL_LID] and [geometry] so when it has them and a county without
    a quote, the geometry file is always the projection on
    [PARCEL_LID, geometry]; for a file without a
    [PARCEL_LID] column, in whatever letter case, the operation raises
    and writes nothing, and the turn of a main file with a geometry
    column records the county with count 0 and logs the error. *)
Theorem identifier_resolution :
  ∀ (W : world) (county_safe county_dir file_stem : string) (st : state),
    let geom_file := out_file county_dir county_safe file_stem "geometry" in
    let attr_file := out_file county_dir county_safe file_stem "attributes" in
    (∀ gdf : frame,
       has_column "geometry" gdf = true →
       (∀ c, write_ok W geom_file c = true) →
       (∀ c, write_ok W attr_file c = true) →
       ∃ st' geometry_cols,
         ByCounty._create_geometry_and_attributes W gdf county_safe county_dir
           file_stem st = (Ok tt, st')
         ∧ files st' !! geom_file = Some (Parquet (project geometry_cols gdf))
         ∧ (("PARCEL_LID" ∈ columns gdf
             ∧ geometry_cols = ["PARCEL_LID"; "geometry"])
            ∨ (("PARCEL_LID" ∉ columns gdf)
               ∧ ∃ before c after,
                   columns gdf = before ++ c :: after
                   ∧ (∀ c', c' ∈ before → looks_like_id c' = false)
                   ∧ looks_like_id c = true
                   ∧ geometry_cols = [c; "geometry"])
            ∨ (("PARCEL_LID" ∉ columns gdf)
               ∧ (∀ c', c' ∈ columns gdf → looks_like_id c' = false)
               ∧ geometry_cols = ["geometry"])))
    ∧ (∀ (f : parquet_file) (county : string),
         binds_exactly "COUNTY" (data f) = true →
         binds_exactly "PARCEL_LID" (data f) = true →
         binds_exactly "geometry" (data f) = true →
         (∀ n st',
            literal_ok county = true →
            Modern._create_geometry_and_attributes_native W f county
              county_safe county_dir file_stem st = (Ok n, st') →
            ∃ t, where_county f county = Ok t
                 ∧ files st' !! geom_file
                   = Some (Parquet (project ["PARCEL_LID"; "geometry"] t)))
         ∧ ("PARCEL_LID" ∉ columns (data f) →
            (∃ e,
               Modern._create_geometry_and_attributes_native W f county
                 county_safe county_dir file_stem st = (Raise e, st))
            ∧ ∀ (self : splitter) (results : dict nat) (st0 : state),
                scannable f = true →
                has_column "geometry" (data f) = true →
                mkdir_ok W (path_join (output_dir self) (county_safe_of county))
                = true →
                let step :=
                  Modern.county_step W self f true results county st0 in
                step.1 = Ok (dict_set results county 0)
                ∧ files step.2 = files st0
                ∧ last (log step.2)
                  = Some (ERROR, ErrorProcessingCounty county))).
Proof.
  intros W cs cd fs st geom_file attr_file.
  pose proof (out_file_roles cd cs fs) as Hroles. fold geom_file attr_file in Hroles.
  split.
  - intros gdf Hgeom Hwg Hwa.
    assert (Hin_geom : "geometry" ∈ columns gdf)
      by (by apply bool_decide_eq_true in Hgeom).
    set (geometry_cols :=
      if has_column "PARCEL_LID" gdf then ["PARCEL_LID"; "geometry"]
      else match ByCounty.id_cols gdf with
           | c :: _ => [c; "geometry"]
           | [] => ["geometry"]
           end).
    assert (Hcases :
      ("PARCEL_LID" ∈ columns gdf ∧ geometry_cols = ["PARCEL_LID"; "geometry"])
      ∨ (("PARCEL_LID" ∉ columns gdf)
         ∧ ∃ before c after,
             columns gdf = before ++ c :: after
             ∧ (∀ c', c' ∈ before → looks_like_id c' = false)
             ∧ looks_like_id c = true
             ∧ geometry_cols = [c; "geometry"])
      ∨ (("PARCEL_LID" ∉ columns gdf)
         ∧ (∀ c', c' ∈ columns gdf → looks_like_id c' = false)
         ∧ geometry_cols = ["geometry"])).
    { subst geometry_cols. unfold has_column. case_bool_decide as Hlid.
      - by left.
      - right. unfold ByCounty.id_cols.
        destruct (List.filter looks_like_id (columns gdf)) as [|c ids] eqn:Hids.
        + right. split; [done|]. split; [|done]. by apply filter_none.
        + left. split; [done|].
          apply filter_head in Hids as (before & after & Hcols & Hb & Hc).
          by exists before, c, after. }
    assert (Hpresent : ∀ c, c ∈ geometry_cols → c ∈ columns gdf).
    { intros c Hc.
      destruct Hcases as [[Hlid ->]|[(_ & b & i & a & Hcols & _ & _ & ->)|(_ & _ & ->)]].
      - apply elem_of_cons in Hc as [->|Hc]; [done|].
        by apply list_elem_of_singleton in Hc as ->.
      - apply elem_of_cons in Hc as [->|Hc].
        + rewrite Hcols. apply elem_of_app. right. left.
        + by apply list_elem_of_singleton in Hc as ->.
      - by apply list_elem_of_singleton in Hc as ->. }
    assert (Hrun : ByCounty._create_geometry_and_attributes W gdf cs cd fs st
      = (Ok tt,
         (logger DEBUG (CreatedAttributesFile attr_file)
            (logger DEBUG (CreatedGeometryFile geom_file)
               {| dirs := dirs st;
                  files := <[attr_file := Parquet (keep_columns not_geometry_name gdf)]>
                             (<[geom_file := Parquet (project geometry_cols gdf)]>
                                (files st));
                  log := log st |}).2).2)).
    { unfold ByCounty._create_geometry_and_attributes.
      fold geom_file attr_file.
      assert (Hsel : (if has_column "PARCEL_LID" gdf
                      then call (select ["PARCEL_LID"; "geometry"] gdf)
                      else match ByCounty.id_cols gdf with
                           | c :: _ => call (select [c; "geometry"] gdf)
                           | [] => call (select ["geometry"] gdf)
                           end) = call (Ok (project geometry_cols gdf))).
      { subst geometry_cols.
        destruct (has_column "PARCEL_LID" gdf);
          [|destruct (ByCounty.id_cols gdf)];
          by rewrite select_present. }
      rewrite Hsel. unfold drop_geometry. rewrite Hgeom.
      step. by rewrite Hwg, Hwa. }
    eexists _, geometry_cols. split; [exact Hrun|]. split; [|exact Hcases].
    simpl. by rewrite lookup_insert_ne, lookup_insert_eq.
  - intros f county _ _ _. split.
    + intros n st' _ Hrun.
      apply create_geometry_and_attributes_native_Ok in Hrun
        as (t & Ht & _ & Hfiles & _).
      exists t. split; [done|]. fold geom_file attr_file in Hfiles.
      rewrite Hfiles. by rewrite lookup_insert_ne, lookup_insert_eq.
    + intros Hlid.
      assert (Hraise : ∀ cs' cd' fs' st0, ∃ e,
        Modern._create_geometry_and_attributes_native W f county cs' cd' fs'
          st0 = (Raise e, st0)).
      { intros cs' cd' fs' st0.
        destruct (copy_select_missing W ["PARCEL_LID"; "geometry"] f county
                    (out_file cd' cs' fs' "geometry") st0 "PARCEL_LID")
          as [e He]; [left | done |].
        exists e. unfold Modern._create_geometry_and_attributes_native.
        unfold bind at 1. by rewrite He. }
      split; [apply Hraise|].
      intros self results st0 Hscan Hgeo Hmk step. subst step.
      assert (Hcheck : ∀ s, Modern._check_geometry_column f s = (Ok true, s)).
      { intros s. unfold Modern._check_geometry_column, describe_columns,
          read_parquet. rewrite Hscan.
        unfold has_column in Hgeo. apply bool_decide_eq_true in Hgeo.
        destruct (List.filter is_geometry_name (columns (data f)))
          as [|c l] eqn:Hfilter; [|done].
        exfalso. apply list_elem_of_In in Hgeo.
        assert (In "geometry" (List.filter is_geometry_name (columns (data f))))
          as Hin by (apply filter_In; by split).
        by rewrite Hfilter in Hin. }
      set (cs' := county_safe_of county).
      set (cd' := path_join (output_dir self) cs').
      assert (Hmkdir : mkdir W cd' st0
                       = (Ok tt, {| dirs := {[cd']} ∪ dirs st0;
                                    files := files st0; log := log st0 |})).
      { unfold mkdir. subst cd' cs'. by rewrite Hmk. }
      destruct (Hraise cs' cd' (stem f)
                  {| dirs := {[cd']} ∪ dirs st0; files := files st0;
                     log := log st0 |}) as [e He].
      assert (Hbody : Modern.process_county W self f true results county cs' cd'
                        {| dirs := {[cd']} ∪ dirs st0; files := files st0;
                           log := log st0 |}
                      = (Raise e, {| dirs := {[cd']} ∪ dirs st0;
                                     files := files st0; log := log st0 |})).
      { unfold Modern.process_county. unfold bind at 1. rewrite Hcheck.
        cbn [andb]. unfold bind at 1. by rewrite He. }
      assert (Hstep : Modern.county_step W self f true results county st0
                      = (Ok (dict_set results county 0),
                         {| dirs := {[cd']} ∪ dirs st0; files := files st0;
                            log := log st0
                                   ++ [(ERROR, ErrorProcessingCounty county)] |})).
      { unfold Modern.county_step. fold cs' cd'.
        unfold bind at 1. rewrite Hmkdir. unfold try_except.
        by rewrite Hbody. }
      rewrite Hstep. simpl. by rewrite last_snoc.
Qed.

(** C5 at work: the file whose identifier column is [parcel_id], in the
    hybrid program and in the DuckDB-only program. *)
Lemma identifier_resolution_witness :
  let W := Scenario.world_of [Scenario.fileD] in
  (∃ st' geometry_cols,
     ByCounty._create_geometry_and_attributes W (data Scenario.fileD)
       "Clackamas" "out/Clackamas" "D" Scenario.start = (Ok tt, st')
     ∧ files st' !! "out/Clackamas/Clackamas_D_geometry.parquet"
       = Some (Parquet (project geometry_cols (data Scenario.fileD)))
     ∧ geometry_cols = ["parcel_id"; "geometry"])
  ∧ (Modern.county_step W (Scenario.splitter_for None) Scenario.fileD true []
       "Clackamas" Scenario.start).1
    = Ok [("Clackamas", 0)].
Proof.
  intros W. split.
  - destruct (proj1 (identifier_resolution W "Clackamas" "out/Clackamas" "D"
                       Scenario.start) (data Scenario.fileD) eq_refl
                (λ _, eq_refl) (λ _, eq_refl))
      as (st' & cols & Hrun & Hfile & Hcases).
    exists st', cols. split; [exact Hrun|]. split; [exact Hfile|].
    destruct Hcases as [[Hlid _]|[(_ & b & c & a & Hcols & Hb & Hc & ->)|(_ & Hnone & _)]].
    + exfalso. revert Hlid. compute_done.
    + destruct b as [|c0 b].
      * injection Hcols as <- _. discriminate Hc.
      * injection Hcols as <- Hcols. destruct b as [|c1 b].
        -- by injection Hcols as <- _.
        -- injection Hcols as <- Hcols.
           assert (looks_like_id "parcel_id" = false) as Hfalse
             by (apply Hb; right; left).
           discriminate Hfalse.
    + assert (looks_like_id "parcel_id" = false) as Hfalse
        by (apply Hnone; simpl; right; left).
      discriminate Hfalse.
  - destruct (proj2 (identifier_resolution W "Clackamas" "out/Clackamas" "D"
                       Scenario.start) Scenario.fileD "Clackamas"
                eq_refl eq_refl eq_refl) as [_ Habsent].
    assert (Hlid : "PARCEL_LID" ∉ columns (data Scenario.fileD))
      by compute_done.
    destruct (Habsent Hlid) as [_ Hstep].
    exact (proj1 (Hstep (Scenario.splitter_for None) [] Scenario.start
                    eq_refl eq_refl eq_refl)).
Defined.

(** C5, as stated, fails in [split_geoparquet_modern.py]: for a main file
    without [PARCEL_LID] but with a column [parcel_id], it neither falls
    back to [parcel_id] nor writes a geometry-only file; the statement
    raises, nothing is written and the county is recorded with 0. *)
Lemma modern_has_no_identifier_fallback :
  let W := Scenario.world_of [Scenario.fileD] in
  let self := Scenario.splitter_for None in
  let step := Modern.county_step W self Scenario.fileD true [] "Clackamas"
                Scenario.start in
  columns (data Scenario.fileD) = ["COUNTY"; "parcel_id"; "geometry"]
  ∧ looks_like_id "parcel_id" = true
  ∧ Modern._check_geometry_column Scenario.fileD Scenario.start
    = (Ok true, Scenario.start)
  ∧ Modern._create_geometry_and_attributes_native W Scenario.fileD "Clackamas"
      "Clackamas" "out/Clackamas" "D" Scenario.start
    = (Raise (EngineError "binder"), Scenario.start)
  ∧ step.1 = Ok [("Clackamas", 0)]
  ∧ files step.2 = ∅.
Proof. repeat split; vm_compute; reflexivity. Qed.

(* ===================================================================== *)
(** * Empty subsets *)
(* ===================================================================== *)

#[global] Instance new_files_empty_preorder : PreOrder new_files_empty.
Proof.
  split.
  - intros st p. by left.
  - intros s1 s2 s3 H12 H23 p.
    destruct (H23 p) as [->|?]; [apply H12 | by right].
Qed.

Lemma same_outputs_mkdir_files W path st st' :
  mkdir W path st = (Ok tt, st') → files st' = files st ∧ log st' = log st.
Proof. unfold mkdir. destruct (mkdir_ok W path); [|done]. by intros [= <-]. Qed.

Lemma where_county_rows f county t :
  where_county f county = Ok t →
  columns t = columns (data f)
  ∧ rows t = rows_of_county (columns (data f)) county (rows (data f)).
Proof.
  unfold where_county, read_parquet. intros H.
  repeat (case_match; simplify_eq). done.
Qed.

Lemma len_to_df W t : len (to_df W t) = len t.
Proof. unfold len, to_df. simpl. by rewrite length_map. Qed.

(** The log of the final state is the initial log and a few records. *)
Ltac solve_logs :=
  first
    [ exists []; split; [by rewrite app_nil_r | by constructor]
    | eexists; split;
      [ by rewrite <- ?app_assoc
      | simpl;
        repeat first [ by apply Forall_nil | apply Forall_cons_2; [by cbv|] ] ] ].

(** What [extract] can return, and that it only reads. *)
Lemma extract_Ok W self f county st r st' :
  ByCounty.extract W self f county st = (Ok r, st') →
  files st' = files st ∧ dirs st' = dirs st
  ∧ logs_only not_error st st'
  ∧ match r with
    | None =>
        length (rows_of_county (columns (data f)) county (rows (data f))) = 0
    | Some gdf =>
        len gdf = length (rows_of_county (columns (data f)) county (rows (data f)))
    end.
Proof.
  unfold ByCounty.extract, ByCounty.path_A, ByCounty.path_B,
    gpd_read_parquet, filter_county.
  intros H. step.
  repeat (case_match; simplify_eq); simpl;
    repeat match goal with
      | H : where_county _ _ = Ok _ |- _ =>
          apply where_county_rows in H as [? ?]
      end;
    (split; [done|]); (split; [done|]);
    (split; [solve_logs|]);
    repeat match goal with
      | H : (len _ =? 0)%nat = true |- _ =>
          apply Nat.eqb_eq in H; rewrite ?len_to_df in H; unfold len in H
      end;
    rewrite ?len_to_df; unfold len; cbn [rows]; congruence.
Qed.




Lemma new_files_empty_logger l m : keeps new_files_empty (logger l m).
Proof. intros st p. by left. Qed.

Lemma new_files_empty_mkdir W path : keeps new_files_empty (mkdir W path).
Proof. intros st p. left. unfold mkdir. by destruct (mkdir_ok W path). Qed.



Lemma modern_check_geometry_column_pure f st :
  ∃ b, Modern._check_geometry_column f st = (Ok b, st).
Proof.
  unfold Modern._check_geometry_column. step.
  destruct (describe_columns is_geometry_name f) as [[|]|]; by eexists.
Qed.



Lemma save_attributes_only_native_Ok W f county county_safe county_dir
    file_stem st n st' :
  Modern._save_attributes_only_native W f county county_safe county_dir
    file_stem st = (Ok n, st') →
  ∃ t, where_county f county = Ok t ∧ n = len t
    ∧ files st'
      = <[out_file county_dir county_safe file_stem "attributes" :=
            Parquet (project (List.filter not_geometry_name (columns (data f))) t)]>
          (files st)
    ∧ dirs st' = dirs st.
Proof.
  unfold Modern._save_attributes_only_native. intros H.
  unfold bind at 1, call at 1, describe_columns in H.
  destruct (read_parquet f) as [t0|e] eqn:Hread; [|done].
  assert (t0 = data f) as ->.
  { unfold read_parquet in Hread. by destruct (scannable f); simplify_eq. }
  unfold bind at 1 in H.
  destruct (copy_select W _ f county _ st) as [[[]|e] st1] eqn:Hattr; [|done].
  apply copy_select_Ok in Hattr as (t & Ht & Hf & Hd & _).
  unfold select_count in H. rewrite Ht in H. step. injection H as <- <-.
  exists t. simpl. by rewrite Hf, Hd.
Qed.

(** A turn of the DuckDB-only program that does not fail has written the
    attribute file of the pair. *)
Lemma modern_process_county_writes W self f is_main results county
    county_safe county_dir st r st' :
  Modern.process_county W self f is_main results county county_safe
    county_dir st = (Ok r, st') →
  ∃ t, where_county f county = Ok t
       ∧ files st' !! out_file county_dir county_safe (stem f) "attributes"
         = Some (Parquet
                   (project (List.filter not_geometry_name (columns (data f))) t)).
Proof.
  unfold Modern.process_county. unfold bind at 1.
  destruct (modern_check_geometry_column_pure f st) as [b ->].
  unfold bind at 1.
  destruct (is_main && b).
  - destruct (Modern._create_geometry_and_attributes_native W f county
                county_safe county_dir (stem f) st) as [[n|e] st1] eqn:Hrun;
      [|done].
    step. intros [= _ <-]. simpl.
    apply create_geometry_and_attributes_native_Ok in Hrun
      as (t & Ht & _ & -> & _).
    exists t. split; [done|]. by rewrite lookup_insert_eq.
  - destruct (Modern._save_attributes_only_native W f county county_safe
                county_dir (stem f) st) as [[n|e] st1] eqn:Hrun; [|done].
    step. intros [= _ <-]. simpl.
    apply save_attributes_only_native_Ok in Hrun as (t & Ht & _ & -> & _).
    exists t. split; [done|]. by rewrite lookup_insert_eq.
Qed.




(* ===================================================================== *)
(** * Discovery: which file, how often, what it returns *)
(* ===================================================================== *)

Lemma run_logger_bind {A} l m (k : unit → M A) st :
  bind (logger l m) k st = k tt (logger l m st).2.
Proof. reflexivity. Qed.


(** Programs built from the monad's operations keep a relation that
    their primitive steps keep. *)
Ltac solve_keeps :=
  repeat first
    [ assumption
    | match goal with H : ∀ _, _ |- keeps _ _ => apply H end
    | apply keeps_ret; exact _
    | apply keeps_raise; exact _
    | apply keeps_call; exact _
    | apply keeps_bind; [exact _ | | intros ?]
    | apply keeps_try_except; [exact _ | | intros ?]
    | apply keeps_for_each; [exact _ | intros ? ?]
    | apply logs_only_logger; by (hnf; simpl)
    | apply logs_only_mkdir
    | apply logs_only_write_file
    | apply same_outputs_logger
    | apply new_files_empty_logger
    | apply new_files_empty_mkdir
    | case_match ].


Lemma logs_only_copy_select P W cols f county path :
  keeps (logs_only P) (copy_select W cols f county path).
Proof. unfold copy_select. solve_keeps. Qed.


Lemma max_by_size_spec best l :
  max_by_size best l ∈ best :: l
  ∧ ∀ f, f ∈ best :: l → (st_size f <= st_size (max_by_size best l))%N.
Proof.
  revert best. induction l as [|x l IH]; intros best; simpl.
  - split; [left|]. intros f Hf%list_elem_of_singleton. subst. lia.
  - destruct (N.ltb_spec (st_size best) (st_size x)) as [Hlt|Hge].
    + destruct (IH x) as [Hin Hmax]. split; [by right|].
      intros f [->|Hf]%elem_of_cons; [|by apply Hmax].
      specialize (Hmax x ltac:(left)). lia.
    + destruct (IH best) as [Hin Hmax]. split.
      * apply elem_of_cons in Hin as [->|Hin]; [left | right; by right].
      * intros f [->|[->|Hf]%elem_of_cons]%elem_of_cons.
        -- apply Hmax. left.
        -- specialize (Hmax best ltac:(left)). lia.
        -- apply Hmax. by right.
Qed.

Lemma discover_counties_Ok self f st counties st' :
  ByCounty.discover_counties self f st = (Ok counties, st')
  ∨ Modern.discover_counties self f st = (Ok counties, st') →
  (∀ k, k ∈ counties ↔
        ∃ r, r ∈ rows (data f) ∧ cell (columns (data f)) r "COUNTY" = VText k)
  ∧ files st' = files st ∧ dirs st' = dirs st.
Proof.
  unfold ByCounty.discover_counties, Modern.discover_counties.
  intros H. step.
  destruct (select_distinct_county f) as [l|e] eqn:Hsel;
    [|by destruct H].
  assert (counties = list_to_set l ∧ files st' = files st ∧ dirs st' = dirs st)
    as (-> & Hf & Hd) by (destruct H as [H|H]; by simplify_eq).
  split; [|done]. intros k. rewrite elem_of_list_to_set.
  by apply select_distinct_county_spec.
Qed.

Lemma discover_counties_same_outputs self f :
  keeps same_outputs (ByCounty.discover_counties self f)
  ∧ keeps same_outputs (Modern.discover_counties self f).
Proof.
  unfold ByCounty.discover_counties, Modern.discover_counties.
  split; eauto 12 with keeps.
Qed.



(* ===================================================================== *)
(** * Row counts of a file over the counties *)
(* ===================================================================== *)

Lemma failures_app l1 l2 : failures (l1 ++ l2) = failures l1 + failures l2.
Proof. unfold failures. by rewrite List.filter_app, length_app. Qed.

Lemma failures_none l : Forall not_failure l → failures l = 0.
Proof.
  unfold failures. induction 1 as [|e l He _ IH]; [done|].
  simpl. by rewrite He.
Qed.

Lemma logs_only_not_failure st st' :
  logs_only not_failure st st' → failures (log st') = failures (log st).
Proof.
  intros (l & -> & Hl). rewrite failures_app, (failures_none l Hl). lia.
Qed.

(** One row is counted for exactly one of a duplicate-free list of keys,
    or for none. *)
Lemma sum_indicator (x : option string) (keys : list string) :
  NoDup keys →
  sum_list (map (λ k, if decide (x = Some k) then 1 else 0) keys)
  = match x with
    | Some k => if decide (k ∈ keys) then 1 else 0
    | None => 0
    end.
Proof.
  induction 1 as [|k keys Hk Hnodup IH]; simpl.
  - by destruct x.
  - rewrite IH. destruct x as [k'|]; [|by rewrite decide_False].
    destruct (decide (Some k' = Some k)) as [[= ->]|Hne].
    + rewrite decide_False by done. rewrite decide_True; [done|left].
    + simpl. destruct (decide (k' ∈ keys)) as [Hin|Hout].
      * rewrite decide_True; [done|by right].
      * rewrite decide_False; [done|].
        intros [->|Hin]%elem_of_cons; done.
Qed.

Lemma sum_list_map_plus {A} (g h : A → nat) (l : list A) :
  sum_list (map (λ a, g a + h a) l) = sum_list (map g l) + sum_list (map h l).
Proof. induction l as [|a l IH]; simpl; [done|]. rewrite IH. lia. Qed.

(** Summing the per-county row counts over duplicate-free keys counts the
    rows whose key is among them. *)
Lemma sum_counts (cols : list string) (rs : list (list value))
    (keys : list string) :
  NoDup keys →
  sum_list (map (λ k, length (rows_of_county cols k rs)) keys)
  = length (filter (key_among (.∈ keys) cols) rs).
Proof.
  intros Hnodup. induction rs as [|r rs IH].
  - simpl. clear Hnodup. by induction keys as [|k keys IHk].
  - rewrite filter_cons.
    transitivity
      (sum_list (map (λ k, (if decide (county_of cols r = Some k) then 1 else 0)
                           + length (rows_of_county cols k rs)) keys)).
    { f_equal. apply map_ext. intros k. unfold rows_of_county.
      rewrite filter_cons. by case_decide. }
    rewrite sum_list_map_plus, IH, sum_indicator by done.
    destruct (decide (key_among (.∈ keys) cols r)) as [Hr|Hr];
      unfold key_among in Hr; destruct (county_of cols r) as [k|];
      try done; simpl.
    + by rewrite decide_True.
    + by rewrite decide_False.
Qed.

Lemma by_county_process_county_quiet W self f is_main results k cs cd :
  keeps (logs_only not_failure)
    (ByCounty.process_county W self f is_main results k cs cd).
Proof.
  unfold ByCounty.process_county, ByCounty.write_subset, ByCounty.extract,
    ByCounty._create_geometry_and_attributes, ByCounty._save_attributes_only,
    ByCounty.path_A, ByCounty.path_B.
  solve_keeps.
Qed.

Lemma by_county_process_county_Ok W self f is_main results k cs cd st r st' :
  ByCounty.process_county W self f is_main results k cs cd st = (Ok r, st') →
  (r = results ∧ count_in f k = 0) ∨ r = dict_set results k (count_in f k).
Proof.
  unfold ByCounty.process_county. unfold bind at 1.
  destruct (ByCounty.extract W self f k st) as [[x|e] st1] eqn:Hextract;
    [|done].
  apply extract_Ok in Hextract as (_ & _ & _ & Hx).
  destruct x as [gdf|].
  - unfold ByCounty.write_subset, count_in.
    destruct (Nat.eqb_spec (len gdf) 0) as [H0|Hpos].
    + intros [= <- _]. left. split; [done|]. by rewrite <- Hx.
    + intros H. step. right. rewrite <- Hx.
      repeat (case_match; simplify_eq); done.
  - intros [= <- _]. by left.
Qed.

Lemma by_county_turn W self f is_main results k st results' st' :
  ByCounty.county_step W self f is_main results k st = (Ok results', st') →
  turn_outcome f results k results' st st'.
Proof.
  unfold ByCounty.county_step. unfold bind at 1.
  destruct (mkdir W _ st) as [[[]|e] st1] eqn:Hmkdir; [|done].
  apply same_outputs_mkdir_files in Hmkdir as [_ Hlog].
  unfold try_except.
  pose proof (by_county_process_county_quiet W self f is_main results k
                (county_safe_of k)
                (path_join (output_dir self) (county_safe_of k)) st1) as Hquiet.
  destruct (ByCounty.process_county W self f is_main results k _ _ st1)
    as [[r|e] st2] eqn:Hrun; simpl in Hquiet;
    apply logs_only_not_failure in Hquiet.
  - intros [= <- <-]. left. split; [congruence|].
    by eapply by_county_process_county_Ok.
  - step. intros [= <- <-]. right. split; [|done]. simpl.
    rewrite failures_app. simpl. rewrite Hquiet, Hlog. unfold failures at 2.
    simpl. lia.
Qed.

Lemma select_count_Ok f k n : select_count f k = Ok n → n = count_in f k.
Proof.
  unfold select_count, count_in.
  destruct (where_county f k) as [t|] eqn:Ht; [|done].
  apply where_county_rows in Ht as [_ Hrows]. intros [= <-].
  unfold len. by rewrite Hrows.
Qed.

Lemma modern_process_county_quiet W self f is_main results k cs cd :
  keeps (logs_only not_failure)
    (Modern.process_county W self f is_main results k cs cd).
Proof.
  pose proof (logs_only_copy_select not_failure W) as Hcopy.
  unfold Modern.process_county, Modern._check_geometry_column,
    Modern._create_geometry_and_attributes_native,
    Modern._save_attributes_only_native.
  solve_keeps.
Qed.

Lemma modern_process_county_Ok W self f is_main results k cs cd st r st' :
  Modern.process_county W self f is_main results k cs cd st = (Ok r, st') →
  r = dict_set results k (count_in f k).
Proof.
  unfold Modern.process_county. unfold bind at 1.
  destruct (modern_check_geometry_column_pure f st) as [b ->].
  unfold bind at 1.
  destruct (is_main && b).
  - destruct (Modern._create_geometry_and_attributes_native W f k cs cd
                (stem f) st) as [[n|e] st1] eqn:Hrun; [|done].
    step. intros [= <- _]. f_equal.
    apply create_geometry_and_attributes_native_Ok in Hrun
      as (t & Ht & -> & _).
    apply where_county_rows in Ht as [_ Hrows]. unfold len, count_in.
    by rewrite Hrows.
  - destruct (Modern._save_attributes_only_native W f k cs cd (stem f) st)
      as [[n|e] st1] eqn:Hrun; [|done].
    step. intros [= <- _]. f_equal.
    unfold Modern._save_attributes_only_native in Hrun. step.
    repeat (case_match; simplify_eq). by apply select_count_Ok.
Qed.

Lemma modern_turn W self f is_main results k st results' st' :
  Modern.county_step W self f is_main results k st = (Ok results', st') →
  turn_outcome f results k results' st st'.
Proof.
  unfold Modern.county_step. unfold bind at 1.
  destruct (mkdir W _ st) as [[[]|e] st1] eqn:Hmkdir; [|done].
  apply same_outputs_mkdir_files in Hmkdir as [_ Hlog].
  unfold try_except.
  pose proof (modern_process_county_quiet W self f is_main results k
                (county_safe_of k)
                (path_join (output_dir self) (county_safe_of k)) st1) as Hquiet.
  destruct (Modern.process_county W self f is_main results k _ _ st1)
    as [[r|e] st2] eqn:Hrun; simpl in Hquiet;
    apply logs_only_not_failure in Hquiet.
  - intros [= <- <-]. left. split; [congruence|]. right.
    by eapply modern_process_county_Ok.
  - step. intros [= <- <-]. right. split; [|done]. simpl.
    rewrite failures_app. simpl. rewrite Hquiet, Hlog. unfold failures at 2.
    simpl. lia.
Qed.

(** ** The loop over the counties *)

Section Loop.
Context (f : parquet_file) (turn : dict nat → string → M (dict nat)).
Hypothesis turn_spec :
  ∀ results k st results' st',
    turn results k st = (Ok results', st') →
    turn_outcome f results k results' st st'.

Lemma loop_failures_mono keys results st final st' :
  for_each keys turn results st = (Ok final, st') →
  (failures (log st) ≤ failures (log st'))%nat.
Proof.
  revert results st. induction keys as [|k keys IH]; intros results st; simpl.
  - by intros [= _ <-].
  - unfold bind.
    destruct (turn results k st) as [[r1|e] st1] eqn:Hturn; [|done].
    intros Hrest%IH.
    destruct (turn_spec _ _ _ _ _ Hturn) as [[Hf _]|[Hf _]]; lia.
Qed.

Lemma loop_counts keys results st final st' :
  NoDup keys →
  (∀ k, k ∈ keys → dict_get results k = None) →
  for_each keys turn results st = (Ok final, st') →
  failures (log st') = failures (log st) →
  sum_values final = sum_values results + sum_list (map (count_in f) keys)
  ∧ (∀ k, k ∈ keys → count_for final k = count_in f k)
  ∧ (∀ k, k ∉ keys → dict_get final k = dict_get results k).
Proof.
  intros Hnodup. revert results st.
  induction Hnodup as [|k keys Hk Hnodup IH]; intros results st Hfresh; simpl.
  - intros [= <- <-] _. split; [lia|]. split; [|done].
    intros k Hk. by apply elem_of_nil in Hk.
  - unfold bind.
    destruct (turn results k st) as [[r1|e] st1] eqn:Hturn; [|done].
    intros Hrest Hfail.
    pose proof (loop_failures_mono _ _ _ _ _ Hrest) as Hmono.
    destruct (turn_spec _ _ _ _ _ Hturn) as [[Hf Hr1]|[Hf _]]; [|lia].
    assert (Hk_fresh : dict_get results k = None) by (apply Hfresh; left).
    assert (Hsum1 : sum_values r1 = sum_values results + count_in f k).
    { destruct Hr1 as [[-> ->]| ->]; [lia|].
      by apply sum_values_set_fresh. }
    assert (Hget1 : count_for r1 k = count_in f k).
    { unfold count_for. destruct Hr1 as [[-> ->]| ->].
      - by rewrite Hk_fresh.
      - by rewrite dict_get_set_eq. }
    assert (Hother : ∀ k', k' ≠ k → dict_get r1 k' = dict_get results k').
    { intros k' Hne. destruct Hr1 as [[-> _]| ->]; [done|].
      by apply dict_get_set_ne. }
    destruct (IH r1 st1) as (Hsum & Hin & Hout); [|done|congruence|].
    { intros k' Hk'. rewrite Hother; [apply Hfresh; by right|].
      by intros ->. }
    split; [lia|]. split.
    + intros k' [->|Hk']%elem_of_cons; [|by apply Hin].
      unfold count_for in *. by rewrite Hout.
    + intros k' Hk'. apply not_elem_of_cons in Hk' as [Hne Hk'].
      rewrite Hout by done. by apply Hother.
Qed.

(** A county the loop does not visit keeps its entry. *)
Lemma loop_keeps_other_keys keys results st final st' k :
  k ∉ keys →
  for_each keys turn results st = (Ok final, st') →
  dict_get final k = dict_get results k.
Proof.
  revert results st. induction keys as [|k' keys IH]; intros results st Hk; simpl.
  - by intros [= <- _].
  - apply not_elem_of_cons in Hk as [Hne Hk]. unfold bind.
    destruct (turn results k' st) as [[r1|e] st1] eqn:Hturn; [|done].
    intros Hrest. rewrite (IH _ _ Hk Hrest).
    destruct (turn_spec _ _ _ _ _ Hturn) as [[_ [[-> _]| ->]]|[_ ->]];
      [done| |]; by apply dict_get_set_ne.
Qed.
End Loop.

(* ===================================================================== *)
(** * Failures of one county *)
(* ===================================================================== *)

(** C8, as amended.  In both programs the directory of a (file, county)
    pair is made before the [try].  When it can be made and the [try]
    body of the pair then raises, whatever the exception, the loop turn
    still returns; it logs the error and records the county with count 0;
    the loop goes on with the remaining counties from there, and when it
    has finished them the results of the file still hold 0 for that
    county.  When the directory cannot be made, the error is not
    absorbed: the turn raises it with nothing logged or recorded, and the
    loop over the counties ends with it. *)
Theorem pair_failure_is_absorbed :
  ∀ (W : world) (self : splitter) (f : parquet_file) (is_main : bool)
    (results : dict nat) (county : string) (rest : list string)
    (st : state),
    let county_safe := county_safe_of county in
    let county_dir := path_join (output_dir self) county_safe in
    let st1 := (mkdir W county_dir st).2 in
    let spec (process_county : dict nat → string → string → string →
                               M (dict nat))
             (county_step : dict nat → string → M (dict nat)) :=
      if mkdir_ok W county_dir then
        ∀ e st2,
          process_county results county county_safe county_dir st1
          = (Raise e, st2) →
          let st3 := (logger ERROR (ErrorProcessingCounty county) st2).2 in
          let results' := dict_set results county 0 in
          county_step results county st = (Ok results', st3)
          ∧ dict_get results' county = Some 0
          ∧ for_each (county :: rest) county_step results st
            = for_each rest county_step results' st3
          ∧ (∀ final st4,
               county ∉ rest →
               for_each rest county_step results' st3 = (Ok final, st4) →
               dict_get final county = Some 0)
      else
        county_step results county st = (Raise (OSError county_dir), st)
        ∧ for_each (county :: rest) county_step results st
          = (Raise (OSError county_dir), st) in
    spec (ByCounty.process_county W self f is_main)
         (ByCounty.county_step W self f is_main)
    ∧ spec (Modern.process_county W self f is_main)
           (Modern.county_step W self f is_main).
Proof.
  intros W self f is_main results county rest st cs cd st1 spec. subst spec.
  cbv beta. destruct (mkdir_ok W cd) eqn:Hmk.
  - assert (Hmkdir : mkdir W cd st = (Ok tt, st1)).
    { subst st1. unfold mkdir. by rewrite Hmk. }
    clearbody st1.
    split; intros e st2 Hraise st3 results'.
    + assert (Hstep : ByCounty.county_step W self f is_main results county st
                      = (Ok results', st3)).
      { unfold ByCounty.county_step. fold cs cd.
        unfold bind, try_except. by rewrite Hmkdir, Hraise. }
      split; [done|]. split; [apply dict_get_set_eq|]. split.
      * simpl. unfold bind at 1. by rewrite Hstep.
      * intros final st4 Hout Hrest.
        rewrite (loop_keeps_other_keys f _ (by_county_turn W self f is_main)
                   _ _ _ _ _ _ Hout Hrest).
        apply dict_get_set_eq.
    + assert (Hstep : Modern.county_step W self f is_main results county st
                      = (Ok results', st3)).
      { unfold Modern.county_step. fold cs cd.
        unfold bind, try_except. by rewrite Hmkdir, Hraise. }
      split; [done|]. split; [apply dict_get_set_eq|]. split.
      * simpl. unfold bind at 1. by rewrite Hstep.
      * intros final st4 Hout Hrest.
        rewrite (loop_keeps_other_keys f _ (modern_turn W self f is_main)
                   _ _ _ _ _ _ Hout Hrest).
        apply dict_get_set_eq.
  - assert (Hmkdir : mkdir W cd st = (Raise (OSError cd), st)).
    { unfold mkdir. by rewrite Hmk. }
    assert (Hby : ByCounty.county_step W self f is_main results county st
                  = (Raise (OSError cd), st)).
    { unfold ByCounty.county_step. fold cs cd. unfold bind at 1.
      by rewrite Hmkdir. }
    assert (Hmod : Modern.county_step W self f is_main results county st
                   = (Raise (OSError cd), st)).
    { unfold Modern.county_step. fold cs cd. unfold bind at 1.
      by rewrite Hmkdir. }
    split; (split; [done|]); simpl; unfold bind at 1.
    + by rewrite Hby.
    + by rewrite Hmod.
Qed.

(** C8 at work: on a disk that refuses writes, Clackamas fails for the
    main file and the loop goes on to Washington. *)
Lemma pair_failure_is_absorbed_witness :
  let W := Scenario.read_only_world_of [Scenario.fileA] in
  let self := Scenario.splitter_for None in
  let st1 := (mkdir W "out/Clackamas" Scenario.start).2 in
  ByCounty.process_county W self Scenario.fileA true [] "Clackamas"
    "Clackamas" "out/Clackamas" st1
  = (Raise (WriteError "out/Clackamas/Clackamas_A_geometry.parquet"), st1)
  ∧ for_each ["Clackamas"; "Washington"]
      (ByCounty.county_step W self Scenario.fileA true) [] Scenario.start
    = for_each ["Washington"]
        (ByCounty.county_step W self Scenario.fileA true) [("Clackamas", 0)]
        (logger ERROR (ErrorProcessingCounty "Clackamas") st1).2.
Proof.
  intros W self st1. split; [reflexivity|].
  pose proof (pair_failure_is_absorbed W self Scenario.fileA true []
                "Clackamas" ["Washington"] Scenario.start) as [H _].
  specialize (H (WriteError "out/Clackamas/Clackamas_A_geometry.parquet") st1
                eq_refl).
  exact (proj1 (proj2 (proj2 H))).
Defined.

(** C8, as stated, fails when the directory of a pair cannot be made:
    the error is raised before the [try], so no 0 is recorded for the
    county, the loop does not go on to the next county, and the run of
    either program ends with the error, without a summary. *)
Lemma directory_failure_halts_the_run :
  let W := Faults.no_county_directory [Scenario.fileA] in
  let self := Scenario.splitter_for None in
  mkdir_ok W "out/Clackamas" = false
  ∧ ByCounty.county_step W self Scenario.fileA true [] "Clackamas"
      Scenario.start
    = (Raise (OSError "out/Clackamas"), Scenario.start)
  ∧ (ByCounty.split_file_by_county W self Scenario.fileA
       {["Clackamas"; "Washington"]} true Scenario.start).1
    = Raise (OSError "out/Clackamas")
  ∧ (ByCounty.process_all_files W self Scenario.start).1
    = Raise (OSError "out/Clackamas")
  ∧ (Modern.process_all_files W self Scenario.start).1
    = Raise (OSError "out/Clackamas")
  ∧ files (ByCounty.process_all_files W self Scenario.start).2 = ∅
  ∧ files (Modern.process_all_files W self Scenario.start).2 = ∅.
Proof. repeat split; vm_compute; reflexivity. Qed.

(* ===================================================================== *)
(** * The sum of the counts of a file *)
(* ===================================================================== *)

Lemma filter_complement_length {A} (P : A → Prop) `{!∀ x, Decision (P x)}
    (l : list A) :
  length (filter P l) + length (filter (λ x, ¬ P x) l) = length l.
Proof.
  induction l as [|x l IH]; [done|].
  rewrite !filter_cons. destruct (decide (P x)).
  - rewrite decide_False by tauto. simpl. lia.
  - rewrite decide_True by done. simpl. lia.
Qed.

Lemma filter_iff_on {A} (P Q : A → Prop) `{!∀ x, Decision (P x)}
    `{!∀ x, Decision (Q x)} (l : list A) :
  (∀ x, x ∈ l → P x ↔ Q x) → filter P l = filter Q l.
Proof.
  induction l as [|x l IH]; intros Hiff; [done|].
  rewrite !filter_cons.
  rewrite IH by (intros y Hy; apply Hiff; by right).
  destruct (decide (P x)) as [HP|HP].
  - rewrite decide_True; [done|]. apply Hiff; [left|done].
  - rewrite decide_False; [done|]. intros HQ. apply HP, Hiff; [left|done].
Qed.

(** When every keyed row of [f] has its key in [keys], the rows counted
    are all rows but those with a null key. *)
Lemma rows_keyed_in_all (keys : gset string) f :
  (∀ r k, r ∈ rows (data f) → county_of (columns (data f)) r = Some k →
          k ∈ keys) →
  rows_keyed_in keys f = len (data f) - null_rows f.
Proof.
  intros Hall. unfold rows_keyed_in, null_rows, len.
  pose proof (filter_complement_length
                (λ r, county_of (columns (data f)) r = None) (rows (data f)))
    as Hsplit.
  assert (filter (key_among (.∈ keys) (columns (data f))) (rows (data f))
          = filter (λ r, ¬ county_of (columns (data f)) r = None)
              (rows (data f))) as ->; [|cbv beta in Hsplit; lia].
  apply filter_iff_on. intros r Hr. unfold key_among.
  destruct (county_of (columns (data f)) r) as [k|] eqn:Hk; [|tauto].
  split; [done|]. intros _. by eapply Hall.
Qed.

Lemma sorted_elements (counties : gset string) :
  NoDup (sorted (elements counties))
  ∧ ∀ k, k ∈ sorted (elements counties) ↔ k ∈ counties.
Proof.
  unfold sorted. split.
  - rewrite merge_sort_Permutation. apply NoDup_elements.
  - intros k. rewrite merge_sort_Permutation. apply elem_of_elements.
Qed.

(** The counts a whole loop leaves, when it logged no failure. *)
Lemma loop_sums f turn (counties : gset string) st results st' :
  (∀ results k st results' st',
     turn results k st = (Ok results', st') →
     turn_outcome f results k results' st st') →
  for_each (sorted (elements counties)) turn [] st = (Ok results, st') →
  failures (log st') = failures (log st) →
  sum_list (map (count_for results) (sorted (elements counties)))
  = rows_keyed_in counties f
  ∧ sum_values results = rows_keyed_in counties f.
Proof.
  intros Hturn Hrun Hfail.
  destruct (sorted_elements counties) as [Hnodup Hkeys].
  destruct (loop_counts f turn Hturn _ [] _ _ _ Hnodup (λ _ _, eq_refl) Hrun
              Hfail) as (Hsum & Hin & _).
  assert (Hcounts : sum_list (map (count_in f) (sorted (elements counties)))
                    = rows_keyed_in counties f).
  { unfold count_in, rows_keyed_in. rewrite sum_counts by done.
    f_equal. apply list_filter_iff. intros r. unfold key_among.
    destruct (county_of (columns (data f)) r); [apply Hkeys|done]. }
  split.
  - rewrite <- Hcounts. f_equal. apply map_ext_in.
    intros k Hk%list_elem_of_In. by apply Hin.
  - rewrite Hsum, Hcounts. unfold sum_values. simpl. lia.
Qed.

(** C6, as amended.  With no pinned county and no failure logged for the
    file, for a file [f] whose key column is spelt [COUNTY] and holds
    texts or nulls and, in the hybrid program, for counties without a
    quote, in both programs: the per-county counts recorded for [f],
    summed over the discovered counties (and likewise the total of the
    recorded counts, which the report prints), equal the number of rows of
    [f] whose key is one of the discovered counties.  That number is the
    row count of [f] minus its rows with a null key whenever every keyed
    row of [f] has a discovered key, in particular for the file the
    counties were discovered in. *)
Theorem partition_counts_sum :
  ∀ (W : world) (self : splitter) (f : parquet_file) (counties : gset string)
    (is_main : bool) (st st' : state) (results : dict nat),
    pinned self = None →
    plainly_keyed f = true →
    (ByCounty.split_file_by_county W self f counties is_main st
     = (Ok results, st')
     ∧ quote_free counties = true)
    ∨ Modern.split_file_by_county W self f counties is_main st
      = (Ok results, st') →
    failures (log st') = failures (log st) →
    sum_list (map (count_for results) (sorted (elements counties)))
    = rows_keyed_in counties f
    ∧ sum_values results = rows_keyed_in counties f
    ∧ ((∀ r k, r ∈ rows (data f) →
               county_of (columns (data f)) r = Some k → k ∈ counties) →
       rows_keyed_in counties f = len (data f) - null_rows f)
    ∧ (∀ st0 st1,
         ByCounty.discover_counties self f st0 = (Ok counties, st1)
         ∨ Modern.discover_counties self f st0 = (Ok counties, st1) →
         rows_keyed_in counties f = len (data f) - null_rows f).
Proof.
  intros W self f counties is_main st st' results Hpin _ Hrun Hfail.
  assert (Hrun' :
    ByCounty.split_file_by_county W self f counties is_main st
    = (Ok results, st')
    ∨ Modern.split_file_by_county W self f counties is_main st
      = (Ok results, st')) by (destruct Hrun as [[Hrun _]|Hrun]; auto).
  clear Hrun. rename Hrun' into Hrun.
  assert (Hsums :
    sum_list (map (count_for results) (sorted (elements counties)))
    = rows_keyed_in counties f
    ∧ sum_values results = rows_keyed_in counties f).
  { set (st1 := (logger INFO (ProcessingFile (name f)) st).2).
    assert (Hfail1 : failures (log st') = failures (log st1)).
    { subst st1. simpl. rewrite failures_app. unfold failures at 3. simpl. lia. }
    destruct Hrun as [Hrun|Hrun].
    - unfold ByCounty.split_file_by_county, ByCounty.counties_to_process in Hrun.
      rewrite Hpin, run_logger_bind in Hrun.
      eapply loop_sums; [|exact Hrun|exact Hfail1].
      apply by_county_turn.
    - unfold Modern.split_file_by_county, Modern.counties_to_process in Hrun.
      rewrite Hpin, run_logger_bind in Hrun.
      eapply loop_sums; [|exact Hrun|exact Hfail1].
      apply modern_turn. }
  destruct Hsums as [Hsum1 Hsum2].
  split; [done|]. split; [done|]. split; [apply rows_keyed_in_all|].
  intros st0 st1 Hdisc. apply rows_keyed_in_all. intros r k Hr Hk.
  destruct (discover_counties_Ok self f st0 counties st1 Hdisc) as [Hspec _].
  apply Hspec. exists r. split; [done|].
  unfold county_of in Hk.
  destruct (cell (columns (data f)) r "COUNTY"); by simplify_eq.
Qed.

(** C6 at work: the main file under the counties discovered in it. *)
Lemma partition_counts_sum_witness :
  let W := Scenario.world_of [Scenario.fileB; Scenario.fileA] in
  let self := Scenario.splitter_for None in
  let counties : gset string := list_to_set ["Clackamas"; "Washington"] in
  let run := ByCounty.split_file_by_county W self Scenario.fileA counties true
               Scenario.start in
  run.1 = Ok [("Clackamas", 2); ("Washington", 1)]
  ∧ sum_values [("Clackamas", 2); ("Washington", 1)]
    = rows_keyed_in counties Scenario.fileA
  ∧ rows_keyed_in counties Scenario.fileA
    = len (data Scenario.fileA) - null_rows Scenario.fileA.
Proof.
  intros W self counties run. split; [reflexivity|].
  assert (Hrun : ByCounty.split_file_by_county W self Scenario.fileA counties
                   true Scenario.start
                 = (Ok [("Clackamas", 2); ("Washington", 1)], run.2))
    by (vm_compute; reflexivity).
  destruct (partition_counts_sum W self Scenario.fileA counties true
              Scenario.start run.2 [("Clackamas", 2); ("Washington", 1)]
              eq_refl eq_refl (or_introl (conj Hrun eq_refl))
              ltac:(vm_compute; reflexivity))
    as (_ & Hsum & _ & Hall).
  split; [exact Hsum|].
  apply (Hall Scenario.start
           (ByCounty.discover_counties self Scenario.fileA Scenario.start).2).
  left. vm_compute. reflexivity.
Defined.

(** C6, as stated, fails for an auxiliary file whose counties were not
    discovered in the main file: one row, no null key, no failure, yet
    the counts recorded for the file sum to 0. *)
Lemma undiscovered_county_is_not_counted :
  let W := Scenario.world_of [Scenario.fileC; Scenario.fileA] in
  let self := Scenario.splitter_for None in
  let final := (ByCounty.process_all_files W self Scenario.start).2 in
  let discovered : gset string := list_to_set ["Clackamas"; "Washington"] in
  let run := ByCounty.split_file_by_county W self Scenario.fileC discovered
               false Scenario.start in
  (ByCounty.discover_counties self Scenario.fileA Scenario.start).1
  = Ok discovered
  ∧ run.1 = Ok []
  ∧ failures (log run.2) = 0
  ∧ sum_list (map (count_for []) (sorted (elements discovered))) = 0
  ∧ len (data Scenario.fileC) - null_rows Scenario.fileC = 1
  ∧ failures (log final) = 0
  ∧ (∃ r, files final !! "out/split_summary.txt" = Some (Summary r)
          ∧ file_sections r
            = [ ("C.parquet", [], 0);
                ("A.parquet", [("Clackamas", 2); ("Washington", 1)], 3) ]).
Proof.
  repeat split; try (vm_compute; reflexivity).
  eexists. split; vm_compute; reflexivity.
Qed.

(* ===================================================================== *)
(** * Further properties: names, identifiers and the main file *)
(* ===================================================================== *)

Lemma replace_char_length a b s :
  String.length (replace_char a b s) = String.length s.
Proof. induction s as [|c s IH]; simpl; [done|]. by rewrite IH. Qed.

Lemma prefix_char a c s :
  String.prefix (String a "") (String c s) = bool_decide (a = c).
Proof.
  simpl. destruct (ascii_dec a c) as [->|Hne].
  - rewrite bool_decide_eq_true_2 by done. by destruct s.
  - by rewrite bool_decide_eq_false_2.
Qed.

(** After [s.replace(a, b)] with [a ≠ b], [a in s] is false. *)
Lemma replace_char_removes a b s :
  a ≠ b → contains (String a "") (replace_char a b s) = false.
Proof.
  intros Hne. induction s as [|c s IH]; [done|].
  cbn [replace_char contains]. rewrite prefix_char, IH, orb_false_r.
  apply bool_decide_eq_false. destruct (Ascii.eqb_spec c a); congruence.
Qed.

(** A replacement does not bring in a character other than its target. *)
Lemma replace_char_keeps_absent x a b s :
  x ≠ b → contains (String x "") s = false →
  contains (String x "") (replace_char a b s) = false.
Proof.
  intros Hne. induction s as [|c s IH]; [done|].
  cbn [replace_char contains]. rewrite !prefix_char.
  intros [Hc Hs]%orb_false_elim. rewrite (IH Hs), orb_false_r.
  apply bool_decide_eq_false. apply bool_decide_eq_false in Hc.
  destruct (Ascii.eqb_spec c a); congruence.
Qed.

(** Replacing a character that does not occur changes nothing. *)
Lemma replace_char_absent a b s :
  contains (String a "") s = false → replace_char a b s = s.
Proof.
  induction s as [|c s IH]; [done|].
  cbn [replace_char contains]. rewrite prefix_char.
  intros [Hc Hs]%orb_false_elim. rewrite (IH Hs).
  apply bool_decide_eq_false in Hc.
  destruct (Ascii.eqb_spec c a); congruence.
Qed.

(** X1. The directory and file-name form of a county name holds no space
    and no hyphen, is as long as the name, is the name itself when the
    name holds neither, and is not changed by a second normalization. *)
Theorem county_safe_of_normal :
  ∀ county : string,
    contains " " (county_safe_of county) = false
    ∧ contains "-" (county_safe_of county) = false
    ∧ String.length (county_safe_of county) = String.length county
    ∧ (contains " " county = false → contains "-" county = false →
       county_safe_of county = county)
    ∧ county_safe_of (county_safe_of county) = county_safe_of county.
Proof.
  intros county. unfold county_safe_of.
  assert (Hspace : contains " " (replace_char "-" "_" (replace_char " " "_" county))
                   = false).
  { apply replace_char_keeps_absent; [done|]. by apply replace_char_removes. }
  assert (Hhyphen : contains "-" (replace_char "-" "_" (replace_char " " "_" county))
                    = false)
    by by apply replace_char_removes.
  split; [done|]. split; [done|].
  split; [by rewrite !replace_char_length|]. split.
  - intros Hs Hh. by rewrite (replace_char_absent " " "_" county Hs),
      (replace_char_absent "-" "_" county Hh).
  - rewrite (replace_char_absent " " "_" _ Hspace).
    by rewrite (replace_char_absent "-" "_" _ Hhyphen).
Qed.

(** X2. County names that differ only in which of space, hyphen and
    underscore stands at a position get the same directory and the same
    output file names. *)
Theorem county_safe_of_collides :
  ∀ (x y : ascii) (county file_stem role : string),
    x ∈ [" "; "-"; "_"]%char → y ∈ [" "; "-"; "_"]%char →
    let other := replace_char x y county in
    county_safe_of other = county_safe_of county
    ∧ ∀ output_dir,
        out_file (path_join output_dir (county_safe_of other))
          (county_safe_of other) file_stem role
        = out_file (path_join output_dir (county_safe_of county))
            (county_safe_of county) file_stem role.
Proof.
  intros x y county fs role Hx Hy other.
  assert (Hsame : county_safe_of other = county_safe_of county).
  { subst other. unfold county_safe_of.
    repeat (apply elem_of_cons in Hx as [->|Hx]);
      try (by apply elem_of_nil in Hx);
      repeat (apply elem_of_cons in Hy as [->|Hy]);
      try (by apply elem_of_nil in Hy);
      (induction county as [|c county IH]; [done|]);
      cbn [replace_char]; rewrite IH; f_equal;
      repeat match goal with
        | |- context [Ascii.eqb ?a ?b] => destruct (Ascii.eqb_spec a b); subst
        | H : context [Ascii.eqb ?a ?b] |- _ =>
            destruct (Ascii.eqb_spec a b); subst
        end; done. }
  split; [done|]. intros output_dir. by rewrite Hsame.
Qed.

(** X2 at work: "Hood River" written with a hyphen. *)
Lemma county_safe_of_collides_witness :
  county_safe_of "Hood-River" = county_safe_of "Hood River"
  ∧ county_safe_of "Hood River" = "Hood_River".
Proof.
  split; [|reflexivity].
  exact (proj1 (county_safe_of_collides " " "-" "Hood River" "" ""
                  ltac:(compute_done) ltac:(compute_done))).
Defined.

Lemma contains_lid_id s : contains "lid" s = true → contains "id" s = true.
Proof.
  induction s as [|c s IH]; [done|].
  cbn [contains]. intros [Hp|Hs]%orb_true_iff.
  - apply orb_true_iff. right.
    assert (String.prefix "id" s = true) as Hid.
    { change (String.prefix "lid" (String c s))
        with (if ascii_dec "l" c then String.prefix "id" s else false) in Hp.
      by destruct (ascii_dec "l" c). }
    destruct s as [|c' s]; [by simpl in Hid|]. cbn [contains]. by rewrite Hid.
  - apply orb_true_iff. right. by apply IH.
Qed.

(** X3. In the identifier fallback the second test never decides: a
    column is taken as identifier exactly when its lowercased name
    contains "id"; and the geometry column is never taken. *)
Theorem looks_like_id_is_id :
  ∀ col : string,
    looks_like_id col = contains "id" (lower col)
    ∧ looks_like_id "geometry" = false.
Proof.
  intros col. split; [|reflexivity]. unfold looks_like_id.
  destruct (contains "id" (lower col)) eqn:Hid; [done|]. simpl.
  destruct (contains "lid" (lower col)) eqn:Hlid; [|done].
  apply contains_lid_id in Hlid. congruence.
Qed.

(** [max] keeps the first of several largest files. *)
Lemma max_by_size_first best l :
  ∃ before after,
    best :: l = before ++ max_by_size best l :: after
    ∧ Forall (λ f, (st_size f < st_size (max_by_size best l))%N) before
    ∧ Forall (λ f, (st_size f <= st_size (max_by_size best l))%N) after.
Proof.
  revert best. induction l as [|x l IH]; intros best; simpl.
  - exists [], []. by repeat split.
  - destruct (N.ltb_spec (st_size best) (st_size x)) as [Hlt|Hge].
    + destruct (IH x) as (before & after & Heq & Hb & Ha).
      exists (best :: before), after. rewrite Heq. split; [done|].
      split; [|done]. apply Forall_cons_2; [|done].
      destruct (max_by_size_spec x l) as [_ Hmax].
      specialize (Hmax x ltac:(left)). lia.
    + destruct (IH best) as (before & after & Heq & Hb & Ha).
      destruct before as [|b before].
      * injection Heq as Hbest Hl. exists [], (x :: after).
        split; [simpl; congruence|]. split; [done|].
        apply Forall_cons_2; [|done]. rewrite <- Hbest. lia.
      * injection Heq as <- Hl. exists (best :: x :: before), after.
        split; [simpl; congruence|]. split; [|done].
        apply Forall_cons in Hb as [Hbest Hb].
        apply Forall_cons_2; [done|]. apply Forall_cons_2; [lia|done].
Qed.

Lemma string_app_length (x a : string) :
  String.length (x ++ a)%string = String.length x + String.length a.
Proof. induction x as [|c x IH]; simpl; [done|]. by rewrite IH. Qed.

Lemma string_app_inv_tail (x y a : string) :
  (x ++ a)%string = (y ++ a)%string → x = y.
Proof.
  revert y. induction x as [|c x IH]; intros [|d y] H; simpl in *.
  - done.
  - apply (f_equal String.length) in H.
    rewrite (string_app_length "" a) in H. simpl in H.
    rewrite string_app_length in H. lia.
  - apply (f_equal String.length) in H.
    rewrite (string_app_length "" a) in H. simpl in H.
    rewrite string_app_length in H. lia.
  - injection H as -> H. f_equal. by apply IH.
Qed.

(** X4. The main file is the first file of largest size in the listing:
    every file listed before it is strictly smaller, every file listed
    after it is no larger. *)
Theorem main_file_is_first_largest :
  ∀ (first : parquet_file) (others : list parquet_file),
    let main_file := max_by_size first others in
    ∃ before after,
      first :: others = before ++ main_file :: after
      ∧ (∀ f, f ∈ before → (st_size f < st_size main_file)%N)
      ∧ (∀ f, f ∈ after → (st_size f <= st_size main_file)%N).
Proof.
  intros first others main_file.
  destruct (max_by_size_first first others) as (before & after & Heq & Hb & Ha).
  exists before, after. split; [done|].
  split; by apply Forall_forall.
Qed.

(* ===================================================================== *)
(** * Further properties: the rows of the two files *)
(* ===================================================================== *)

(** A projected row answers for its columns as the row it came from. *)
Lemma cell_project cols r cols' c :
  c ∈ cols' → cell cols' (map (cell cols r) cols') c = cell cols r c.
Proof.
  induction cols' as [|c' cols' IH]; intros Hc; [by apply elem_of_nil in Hc|].
  simpl. destruct (String.eqb_spec c' c) as [->|Hne]; [done|].
  apply IH. apply elem_of_cons in Hc as [->|Hc]; done.
Qed.

Lemma cell_nil cols c : cell cols [] c = VNull.
Proof. by destruct cols. Qed.

(** A row cut down to the kept columns answers for them as before. *)
Lemma cell_keep_cells keep cols r c :
  keep c = true →
  cell (List.filter keep cols) (keep_cells keep cols r) c = cell cols r c.
Proof.
  intros Hc. revert r. induction cols as [|c' cols IH]; intros r; [done|].
  destruct r as [|v r].
  - cbn [keep_cells]. by rewrite !cell_nil.
  - simpl. destruct (keep c') eqn:Hk; simpl.
    + destruct (String.eqb_spec c' c); [done|apply IH].
    + destruct (String.eqb_spec c' c) as [->|Hne]; [congruence|apply IH].
Qed.

Lemma project_rows cols df i r :
  rows df !! i = Some r →
  rows (project cols df) !! i = Some (map (cell (columns df) r) cols).
Proof. intros H. simpl. by rewrite list_lookup_fmap, H. Qed.

Lemma keep_columns_rows keep df i r :
  rows df !! i = Some r →
  rows (keep_columns keep df) !! i = Some (keep_cells keep (columns df) r).
Proof. intros H. simpl. by rewrite list_lookup_fmap, H. Qed.

Lemma rowwise_from_project cols df c :
  c ∈ cols → rowwise_from df (project cols df) c.
Proof.
  intros Hc. split; [unfold len; simpl; by rewrite length_map|].
  intros i r Hr. eexists. split; [by apply project_rows|].
  by apply cell_project.
Qed.

Lemma rowwise_from_keep_columns keep df c :
  keep c = true → rowwise_from df (keep_columns keep df) c.
Proof.
  intros Hc. split; [unfold len; simpl; by rewrite length_map|].
  intros i r Hr. eexists. split; [by apply keep_columns_rows|].
  by apply cell_keep_cells.
Qed.

(** X5. Whenever the geometry/attribute pair of a subset has been written,
    in either program: both files have as many rows as the subset; row by
    row, the geometry file holds the subset's geometry cell and, in its
    identifier column, the subset's identifier cell; and the attribute
    file holds, row by row, the subset's cell of every column other than
    [geometry], so the identifier of a row is the same in both files. *)
Theorem split_outputs_correlate :
  ∀ (W : world) (county_safe county_dir file_stem : string) (st st' : state),
    let geom_file := out_file county_dir county_safe file_stem "geometry" in
    let attr_file := out_file county_dir county_safe file_stem "attributes" in
    (∀ gdf : frame,
       ByCounty._create_geometry_and_attributes W gdf county_safe county_dir
         file_stem st = (Ok tt, st') →
       ∃ g a : frame,
         files st' !! geom_file = Some (Parquet g)
         ∧ files st' !! attr_file = Some (Parquet a)
         ∧ (∀ c, c ∈ columns g → rowwise_from gdf g c)
         ∧ (∀ c, c ≠ "geometry" → rowwise_from gdf a c))
    ∧ (∀ (f : parquet_file) (county : string) (n : nat),
         Modern._create_geometry_and_attributes_native W f county county_safe
           county_dir file_stem st = (Ok n, st') →
         ∃ t g a : frame,
           where_county f county = Ok t
           ∧ n = len t
           ∧ files st' !! geom_file = Some (Parquet g)
           ∧ files st' !! attr_file = Some (Parquet a)
           ∧ (∀ c, c ∈ columns g → rowwise_from t g c)
           ∧ (∀ c, c ∈ columns (data f) → c ≠ "geometry" →
                   rowwise_from t a c)).
Proof.
  intros W cs cd fs st st' geom_file attr_file.
  pose proof (out_file_roles cd cs fs) as Hroles. fold geom_file attr_file in Hroles.
  split.
  - intros gdf Hrun.
    apply create_geometry_and_attributes_Ok in Hrun as [Hfiles _].
    fold geom_file attr_file in Hfiles.
    eexists _, _. rewrite Hfiles.
    split; [by rewrite lookup_insert_ne, lookup_insert_eq|].
    split; [by rewrite lookup_insert_eq|]. split.
    + intros c Hc. by apply rowwise_from_project.
    + intros c Hc. apply rowwise_from_keep_columns.
      unfold not_geometry_name, is_geometry_name.
      by destruct (String.eqb_spec c "geometry").
  - intros f county n Hrun.
    apply create_geometry_and_attributes_native_Ok in Hrun
      as (t & Ht & Hn & Hfiles & _).
    fold geom_file attr_file in Hfiles.
    exists t. eexists _, _. rewrite Hfiles.
    split; [done|]. split; [done|].
    split; [by rewrite lookup_insert_ne, lookup_insert_eq|].
    split; [by rewrite lookup_insert_eq|]. split.
    + intros c Hc. by apply rowwise_from_project.
    + intros c Hc Hne. apply rowwise_from_project.
      by apply in_not_geometry_filter.
Qed.

(** X5 at work: the rows of the main file, split. *)
Lemma split_outputs_correlate_witness :
  let W := Scenario.world_of [Scenario.fileA] in
  let gdf := data Scenario.fileA in
  let run := ByCounty._create_geometry_and_attributes W gdf "Clackamas"
               "out/Clackamas" "A" Scenario.start in
  run.1 = Ok tt
  ∧ ∃ g a : frame,
      files run.2 !! "out/Clackamas/Clackamas_A_geometry.parquet"
      = Some (Parquet g)
      ∧ files run.2 !! "out/Clackamas/Clackamas_A_attributes.parquet"
        = Some (Parquet a)
      ∧ rowwise_from gdf g "PARCEL_LID"
      ∧ rowwise_from gdf a "PARCEL_LID".
Proof.
  intros W gdf run. split; [reflexivity|].
  assert (Hrun : ByCounty._create_geometry_and_attributes W gdf "Clackamas"
                   "out/Clackamas" "A" Scenario.start = (Ok tt, run.2))
    by (vm_compute; reflexivity).
  destruct (proj1 (split_outputs_correlate W "Clackamas" "out/Clackamas" "A"
                     Scenario.start run.2) gdf Hrun)
    as (g & a & Hg & Ha & Hgeom & Hattr).
  exists g, a. split; [exact Hg|]. split; [exact Ha|]. split.
  - apply Hgeom. vm_compute in Hg. injection Hg as <-. simpl. left.
  - by apply Hattr.
Defined.

Lemma rowwise_from_refl df c : rowwise_from df df c.
Proof. split; [done|]. intros i r Hr. by exists r. Qed.

(** X6. [_save_attributes_only] of the hybrid program never fails on the
    frame it is given, with or without a geometry column: the only error
    it can raise is the one of the write, and then nothing has changed.
    When it returns, exactly the one file has been written; it has no
    [geometry] column, as many rows as the frame, and row by row the
    frame's cell of every other column. *)
Theorem save_attributes_only_spec :
  ∀ (W : world) (gdf : frame) (output_file : string) (st : state),
    match ByCounty._save_attributes_only W gdf output_file st with
    | (Ok _, st') =>
        ∃ a : frame,
          files st' = <[output_file := Parquet a]> (files st)
          ∧ dirs st' = dirs st
          ∧ ("geometry" ∉ columns a)
          ∧ ∀ c, c ≠ "geometry" → rowwise_from gdf a c
    | (Raise e, st') => e = WriteError output_file ∧ st' = st
    end.
Proof.
  intros W gdf output_file st.
  unfold ByCounty._save_attributes_only, drop_geometry, has_column.
  destruct (bool_decide_reflect ("geometry" ∈ columns gdf)) as [Hin|Hout];
    unfold bind, call, ret, write_file, logger;
    match goal with |- context [write_ok W output_file ?c] =>
      destruct (write_ok W output_file c) end; try done; simpl.
  - eexists. split; [done|]. split; [done|]. split.
    + simpl. rewrite list_elem_of_In, filter_In.
      intros [_ H]. by cbv in H.
    + intros c Hc. apply rowwise_from_keep_columns.
      unfold not_geometry_name, is_geometry_name.
      by destruct (String.eqb_spec c "geometry").
  - eexists. split; [done|]. split; [done|]. split; [done|].
    intros c _. apply rowwise_from_refl.
Qed.

(* ===================================================================== *)
(** * Further properties: where a run writes *)
(* ===================================================================== *)

#[global] Instance writes_within_preorder P D : PreOrder (writes_within P D).
Proof.
  split.
  - intros st. split; [by left | by left].
  - intros s1 s2 s3 [Hf1 Hd1] [Hf2 Hd2]. split.
    + intros p. destruct (Hf2 p) as [->|?]; [apply Hf1 | by right].
    + intros d Hd. destruct (Hd2 d Hd) as [?|?]; [by apply Hd1 | by right].
Qed.

Lemma writes_within_logger P D l m : keeps (writes_within P D) (logger l m).
Proof. intros st. split; by left. Qed.

Lemma writes_within_mkdir P D W path :
  D path → keeps (writes_within P D) (mkdir W path).
Proof.
  intros HD st. unfold mkdir. destruct (mkdir_ok W path); [|reflexivity].
  split; [by left|]. simpl. intros d [->%elem_of_singleton|?]%elem_of_union;
    [by right | by left].
Qed.

Lemma writes_within_write_file P D W path c :
  P path → keeps (writes_within P D) (write_file W path c).
Proof.
  intros HP st. unfold write_file. destruct (write_ok W path c); [|reflexivity].
  split; [|by left]. simpl. intros p. destruct (decide (p = path)) as [->|Hne].
  - by right.
  - left. by rewrite lookup_insert_ne.
Qed.

Lemma writes_within_copy_select P D W cols f county path :
  P path → keeps (writes_within P D) (copy_select W cols f county path).
Proof.
  intros HP. unfold copy_select.
  repeat first
    [ apply keeps_raise; exact _
    | apply keeps_call; exact _
    | apply keeps_bind; [exact _ | | intros ?]
    | by apply writes_within_write_file
    | case_match ].
Qed.

(** A loop keeps what each of its turns keeps on an element of the list. *)
Lemma keeps_for_each_in (R : relation state) `{!PreOrder R} {A B}
    (l : list A) (body : B → A → M B) acc :
  (∀ b a, a ∈ l → keeps R (body b a)) → keeps R (for_each l body acc).
Proof.
  revert acc. induction l as [|x l IH]; intros acc Hbody; simpl.
  - by apply keeps_ret.
  - apply keeps_bind; [exact _ | apply Hbody; left |].
    intros b. apply IH. intros b' a Ha. apply Hbody. by right.
Qed.

Ltac solve_within :=
  repeat first
    [ apply keeps_ret; exact _
    | apply keeps_raise; exact _
    | apply keeps_call; exact _
    | apply keeps_bind; [exact _ | | intros ?]
    | apply keeps_try_except; [exact _ | | intros ?]
    | apply writes_within_logger
    | apply writes_within_mkdir; by eauto
    | apply writes_within_write_file; by eauto
    | apply writes_within_copy_select; by eauto
    | case_match ].

Lemma by_county_step_within W self f is_main results k (P D : string → Prop) :
  let county_dir := path_join (output_dir self) (county_safe_of k) in
  D county_dir →
  P (out_file county_dir (county_safe_of k) (stem f) "attributes") →
  (is_main = true →
   P (out_file county_dir (county_safe_of k) (stem f) "geometry")) →
  keeps (writes_within P D) (ByCounty.county_step W self f is_main results k).
Proof.
  intros county_dir HD Hattr Hgeom. subst county_dir.
  unfold ByCounty.county_step, ByCounty.process_county, ByCounty.write_subset,
    ByCounty.extract, ByCounty._create_geometry_and_attributes,
    ByCounty._save_attributes_only, ByCounty.path_A, ByCounty.path_B.
  destruct is_main; simpl; [specialize (Hgeom eq_refl)|clear Hgeom];
    solve_within.
Qed.

Lemma modern_step_within W self f is_main results k (P D : string → Prop) :
  let county_dir := path_join (output_dir self) (county_safe_of k) in
  D county_dir →
  P (out_file county_dir (county_safe_of k) (stem f) "attributes") →
  (is_main = true →
   P (out_file county_dir (county_safe_of k) (stem f) "geometry")) →
  keeps (writes_within P D) (Modern.county_step W self f is_main results k).
Proof.
  intros county_dir HD Hattr Hgeom. subst county_dir.
  unfold Modern.county_step, Modern.process_county,
    Modern._check_geometry_column,
    Modern._create_geometry_and_attributes_native,
    Modern._save_attributes_only_native.
  destruct is_main; simpl; [specialize (Hgeom eq_refl)|clear Hgeom];
    solve_within.
Qed.

(** X7. Splitting one file touches nothing but the outputs of that file:
    in either program every file it writes or overwrites is the attribute
    file of the input file for a county it processes or, for the main
    file only, the geometry file; every directory it makes is the
    directory of such a county.  A file other than the main file never
    gets a geometry output, and with a pinned county nothing is written
    for any other county. *)
Theorem split_file_writes_within :
  ∀ (W : world) (self : splitter) (f : parquet_file)
    (counties : gset string) (is_main : bool) (st : state),
    let county_dir k := path_join (output_dir self) (county_safe_of k) in
    let output role k :=
      out_file (county_dir k) (county_safe_of k) (stem f) role in
    let allowed (todo : gset string) p :=
      ∃ k, k ∈ todo
           ∧ (p = output "attributes" k
              ∨ (is_main = true ∧ p = output "geometry" k)) in
    let made (todo : gset string) d := ∃ k, k ∈ todo ∧ d = county_dir k in
    writes_within
      (allowed (ByCounty.counties_to_process self counties))
      (made (ByCounty.counties_to_process self counties))
      st (ByCounty.split_file_by_county W self f counties is_main st).2
    ∧ writes_within
        (allowed (Modern.counties_to_process self counties))
        (made (Modern.counties_to_process self counties))
        st (Modern.split_file_by_county W self f counties is_main st).2.
Proof.
  intros W self f counties is_main st county_dir output allowed made.
  split; revert st.
  - unfold ByCounty.split_file_by_county.
    apply keeps_bind; [exact _ | apply writes_within_logger | intros _].
    apply keeps_for_each_in; [exact _|].
    intros results k Hk%sorted_elements.
    apply by_county_step_within.
    + by exists k.
    + exists k. split; [done | by left].
    + intros Hmain. exists k. split; [done | by right].
  - unfold Modern.split_file_by_county.
    apply keeps_bind; [exact _ | apply writes_within_logger | intros _].
    apply keeps_for_each_in; [exact _|].
    intros results k Hk%sorted_elements.
    apply modern_step_within.
    + by exists k.
    + exists k. split; [done | by left].
    + intros Hmain. exists k. split; [done | by right].
Qed.

(* ===================================================================== *)
(** * Further properties: what a failure leaves behind *)
(* ===================================================================== *)

Lemma copy_select_Raise W cols f county path st e st' :
  copy_select W cols f county path st = (Raise e, st') → st' = st.
Proof.
  unfold copy_select. intros H. step.
  repeat (case_match; simplify_eq); done.
Qed.

Lemma project_len cols df : len (project cols df) = len df.
Proof. unfold len. simpl. by rewrite length_map. Qed.

(** X8. The geometry file and the attribute file of a pair are not written
    atomically: the geometry file is written first, and where the
    attribute file cannot be written the operation raises with the
    geometry file left in place.  Where the geometry file itself cannot be
    written, nothing is written.  This holds for both programs. *)
Theorem pair_is_not_atomic :
  ∀ (W : world) (county_safe county_dir file_stem : string) (st : state),
    let geom_file := out_file county_dir county_safe file_stem "geometry" in
    let attr_file := out_file county_dir county_safe file_stem "attributes" in
    (∀ c, write_ok W attr_file c = false) →
    (∀ gdf : frame,
       has_column "geometry" gdf = true →
       let run := ByCounty._create_geometry_and_attributes W gdf county_safe
                    county_dir file_stem st in
       ∃ g : frame,
         len g = len gdf
         ∧ if write_ok W geom_file (Parquet g)
           then run.1 = Raise (WriteError attr_file)
                ∧ files run.2 = <[geom_file := Parquet g]> (files st)
                ∧ dirs run.2 = dirs st
           else run = (Raise (WriteError geom_file), st))
    ∧ (∀ (f : parquet_file) (county : string),
         let run := Modern._create_geometry_and_attributes_native W f county
                      county_safe county_dir file_stem st in
         ∃ e, run.1 = Raise e
              ∧ match copy_select W ["PARCEL_LID"; "geometry"] f county
                        geom_file st with
                | (Ok _, _) =>
                    ∃ t, where_county f county = Ok t
                         ∧ files run.2
                           = <[geom_file :=
                                 Parquet (project ["PARCEL_LID"; "geometry"] t)]>
                               (files st)
                         ∧ dirs run.2 = dirs st
                | (Raise e', _) => e = e' ∧ run.2 = st
                end).
Proof.
  intros W cs cd fs st geom_file attr_file Hattr. split.
  - intros gdf Hgeo run. subst run.
    unfold ByCounty._create_geometry_and_attributes.
    fold geom_file attr_file.
    assert (Hg : "geometry" ∈ columns gdf)
      by (unfold has_column in Hgeo; by apply bool_decide_eq_true in Hgeo).
    set (geometry_cols :=
           if has_column "PARCEL_LID" gdf then ["PARCEL_LID"; "geometry"]
           else match ByCounty.id_cols gdf with
                | c :: _ => [c; "geometry"]
                | [] => ["geometry"]
                end).
    assert (Hsel :
      (if has_column "PARCEL_LID" gdf then
         call (select ["PARCEL_LID"; "geometry"] gdf)
       else
         match ByCounty.id_cols gdf with
         | c :: _ => call (select [c; "geometry"] gdf)
         | [] => call (select ["geometry"] gdf)
         end) = call (Ok (project geometry_cols gdf))).
    { subst geometry_cols. unfold has_column.
      destruct (bool_decide_reflect ("PARCEL_LID" ∈ columns gdf)) as [Hlid|_].
      - rewrite select_present; [done|].
        intros c [->|[->|[]%elem_of_nil]%elem_of_cons]%elem_of_cons; done.
      - destruct (ByCounty.id_cols gdf) as [|c l] eqn:Hid.
        + rewrite select_present; [done|].
          intros c [->|[]%elem_of_nil]%elem_of_cons; done.
        + rewrite select_present; [done|].
          assert (c ∈ columns gdf).
          { apply (id_cols_spec gdf c). rewrite Hid. left. }
          intros c' [->|[->|[]%elem_of_nil]%elem_of_cons]%elem_of_cons; done. }
    rewrite Hsel. exists (project geometry_cols gdf).
    split; [apply project_len|].
    destruct (write_ok W geom_file (Parquet (project geometry_cols gdf)))
      eqn:Hw;
      unfold drop_geometry; rewrite Hgeo; unfold bind, call, write_file;
      rewrite Hw; [rewrite Hattr|]; done.
  - intros f county run.
    destruct (copy_select W ["PARCEL_LID"; "geometry"] f county geom_file st)
      as [[[]|e] st1] eqn:Hgeom.
    + assert (Hrun : ∃ e, run = (Raise e, st1)).
      { subst run. unfold Modern._create_geometry_and_attributes_native.
        fold geom_file attr_file. unfold bind at 1. rewrite Hgeom.
        unfold bind at 1, call at 1.
        destruct (describe_columns not_geometry_name f) as [cols|e];
          [|by exists e].
        unfold bind at 1.
        destruct (copy_select W cols f county attr_file st1)
          as [[[]|e] st2] eqn:Hcopy.
        - exfalso. clear - Hattr Hcopy. revert Hcopy. unfold copy_select. step.
          repeat (case_match; simplify_eq); try done.
          match goal with
          | H : write_ok _ _ _ = true |- _ => by rewrite Hattr in H
          end.
        - apply copy_select_Raise in Hcopy as ->. by exists e. }
      destruct Hrun as [e ->]. exists e. split; [done|].
      apply copy_select_Ok in Hgeom as (t & Ht & Hf & Hd & _).
      exists t. by rewrite <- Hf, <- Hd.
    + assert (Hrun : run = (Raise e, st1)).
      { subst run. unfold Modern._create_geometry_and_attributes_native.
        fold geom_file attr_file. unfold bind at 1. by rewrite Hgeom. }
      rewrite Hrun. apply copy_select_Raise in Hgeom as ->. by exists e.
Qed.

(** X8 at work: a disk that refuses the attribute files. *)
Lemma pair_is_not_atomic_witness :
  let W := Faults.attributes_unwritable [Scenario.fileA] in
  let attr_file := "out/Clackamas/Clackamas_A_attributes.parquet" in
  let geom_file := "out/Clackamas/Clackamas_A_geometry.parquet" in
  let run := ByCounty._create_geometry_and_attributes W (data Scenario.fileA)
               "Clackamas" "out/Clackamas" "A" Scenario.start in
  (∀ c, write_ok W attr_file c = false)
  ∧ ∃ g : frame,
      len g = 3
      ∧ run.1 = Raise (WriteError attr_file)
      ∧ files run.2 = <[geom_file := Parquet g]> ∅.
Proof.
  intros W attr_file geom_file run.
  assert (Hattr : ∀ c, write_ok W attr_file c = false)
    by (intros c; reflexivity).
  split; [exact Hattr|].
  destruct (proj1 (pair_is_not_atomic W "Clackamas" "out/Clackamas" "A"
                     Scenario.start Hattr) (data Scenario.fileA) eq_refl)
    as (g & Hlen & Hrun).
  exists g. split; [exact Hlen|].
  change (write_ok W _ (Parquet g)) with true in Hrun.
  destruct Hrun as (H1 & H2 & _). split; [exact H1 | exact H2].
Defined.

(* ===================================================================== *)
(** * Further properties: when a run returns *)
(* ===================================================================== *)

(** One turn returns unless its directory cannot be made. *)
Lemma by_county_step_returns W self f is_main results k st :
  let county_dir := path_join (output_dir self) (county_safe_of k) in
  if mkdir_ok W county_dir
  then ∃ results' st',
         ByCounty.county_step W self f is_main results k st
         = (Ok results', st')
  else ByCounty.county_step W self f is_main results k st
       = (Raise (OSError county_dir), st).
Proof.
  intros county_dir. subst county_dir.
  unfold ByCounty.county_step, bind at 1, mkdir.
  destruct (mkdir_ok W _); [|done].
  unfold try_except.
  destruct (ByCounty.process_county _ _ _ _ _ _ _ _ _) as [[r|e] st1];
    by eexists _, _.
Qed.

Lemma modern_step_returns W self f is_main results k st :
  let county_dir := path_join (output_dir self) (county_safe_of k) in
  if mkdir_ok W county_dir
  then ∃ results' st',
         Modern.county_step W self f is_main results k st
         = (Ok results', st')
  else Modern.county_step W self f is_main results k st
       = (Raise (OSError county_dir), st).
Proof.
  intros county_dir. subst county_dir.
  unfold Modern.county_step, bind at 1, mkdir.
  destruct (mkdir_ok W _); [|done].
  unfold try_except.
  destruct (Modern.process_county _ _ _ _ _ _ _ _ _) as [[r|e] st1];
    by eexists _, _.
Qed.

(** A loop whose turns either return or raise [OSError] on the directory
    of their county. *)
Lemma loop_returns W (out : string) (turn : dict nat → string → M (dict nat))
    (keys : list string) results st :
  (∀ results k st,
     if mkdir_ok W (path_join out (county_safe_of k))
     then ∃ results' st', turn results k st = (Ok results', st')
     else turn results k st
          = (Raise (OSError (path_join out (county_safe_of k))), st)) →
  match (for_each keys turn results st).1 with
  | Ok _ => ∀ k, k ∈ keys → mkdir_ok W (path_join out (county_safe_of k)) = true
  | Raise e =>
      ∃ before k after,
        keys = before ++ k :: after
        ∧ e = OSError (path_join out (county_safe_of k))
        ∧ mkdir_ok W (path_join out (county_safe_of k)) = false
        ∧ ∀ k', k' ∈ before →
            mkdir_ok W (path_join out (county_safe_of k')) = true
  end.
Proof.
  intros Hturn. revert results st.
  induction keys as [|k keys IH]; intros results st; simpl.
  - intros k []%elem_of_nil.
  - unfold bind. specialize (Hturn results k st).
    destruct (mkdir_ok W (path_join out (county_safe_of k))) eqn:Hk.
    + destruct Hturn as (results' & st' & ->).
      specialize (IH results' st').
      destruct (for_each keys turn results' st').1 as [r|e] eqn:Hloop;
        destruct (for_each keys turn results' st') as [r0 st0];
        simpl in Hloop; subst r0; simpl.
      * intros k' [->|Hk']%elem_of_cons; auto.
      * destruct IH as (before & k0 & after & -> & -> & Hk0 & Hbefore).
        exists (k :: before), k0, after. split; [done|]. split; [done|].
        split; [done|]. intros k' [->|Hk']%elem_of_cons; auto.
    + rewrite Hturn. simpl. exists [], k, keys. split; [done|].
      split; [done|]. split; [done|]. intros k' []%elem_of_nil.
Qed.

(** X9. A file that cannot be read or written costs one county, a
    directory that cannot be made costs the run: in either program
    [split_file_by_county] returns normally exactly when the directory of
    every county it processes can be made, whatever else fails; and when
    it raises, it raises the error of the first such directory in sorted
    order, the counties before it having been processed. *)
Theorem split_file_returns_iff_directories :
  ∀ (W : world) (self : splitter) (f : parquet_file)
    (counties : gset string) (is_main : bool) (st : state),
    let county_dir k := path_join (output_dir self) (county_safe_of k) in
    let spec (todo : gset string) (r : result (dict nat)) :=
      match r with
      | Ok _ => ∀ k, k ∈ todo → mkdir_ok W (county_dir k) = true
      | Raise e =>
          ∃ before k after,
            sorted (elements todo) = before ++ k :: after
            ∧ e = OSError (county_dir k)
            ∧ mkdir_ok W (county_dir k) = false
            ∧ ∀ k', k' ∈ before → mkdir_ok W (county_dir k') = true
      end in
    spec (ByCounty.counties_to_process self counties)
      (ByCounty.split_file_by_county W self f counties is_main st).1
    ∧ spec (Modern.counties_to_process self counties)
        (Modern.split_file_by_county W self f counties is_main st).1.
Proof.
  intros W self f counties is_main st county_dir spec. split.
  - unfold ByCounty.split_file_by_county. rewrite run_logger_bind.
    match goal with |- spec _ (for_each ?keys ?turn ?acc ?s).1 =>
      pose proof (loop_returns W (output_dir self) turn keys acc s
                    (λ results k st, by_county_step_returns W self f is_main
                                       results k st)) as Hloop;
      destruct (for_each keys turn acc s).1
    end; simpl.
    + intros k Hk. apply Hloop. by apply sorted_elements.
    + exact Hloop.
  - unfold Modern.split_file_by_county. rewrite run_logger_bind.
    match goal with |- spec _ (for_each ?keys ?turn ?acc ?s).1 =>
      pose proof (loop_returns W (output_dir self) turn keys acc s
                    (λ results k st, modern_step_returns W self f is_main
                                       results k st)) as Hloop;
      destruct (for_each keys turn acc s).1
    end; simpl.
    + intros k Hk. apply Hloop. by apply sorted_elements.
    + exact Hloop.
Qed.

(** X10. Discovery is not guarded: when the largest file of the listing
    cannot be scanned by the engine or has no [COUNTY] column, in
    whatever letter case, the whole run raises the engine's error, in
    both programs, before any directory is made or file written.  The
    hybrid program logs no error on the way; the DuckDB-only program logs
    one. *)
Theorem discovery_failure_aborts :
  ∀ (W : world) (self : splitter) (st : state)
    (first : parquet_file) (others : list parquet_file),
    glob_parquet W (input_dir self) = first :: others →
    let main_file := max_by_size first others in
    scannable main_file = false
    ∨ (has_column "COUNTY" (data main_file) = false
       ∧ binds_exactly "COUNTY" (data main_file) = true) →
    let opening := [(INFO, FoundFiles (S (length others)));
                    (INFO, DiscoveringCounties (name main_file))] in
    ∃ e,
      select_distinct_county main_file = Raise e
      ∧ ByCounty.process_all_files W self st
        = (Raise e, {| dirs := dirs st; files := files st;
                       log := log st ++ opening |})
      ∧ Modern.process_all_files W self st
        = (Raise e, {| dirs := dirs st; files := files st;
                       log := log st ++ opening ++ [(ERROR, DiscoveryFailed)] |}).
Proof.
  intros W self st first others Hglob main_file Hbad opening.
  assert (Hsel : ∃ e, select_distinct_county main_file = Raise e).
  { unfold select_distinct_county, read_parquet.
    destruct (scannable main_file); [|by eexists].
    destruct Hbad as [Hbad|[Hbad _]]; [done | rewrite Hbad; by eexists]. }
  destruct Hsel as [e Hsel]. exists e. split; [done|].
  unfold ByCounty.process_all_files, Modern.process_all_files,
    ByCounty.discover_counties, Modern.discover_counties.
  rewrite Hglob. fold main_file. rewrite Hsel.
  unfold bind, try_except, logger, call, raise. simpl.
  by rewrite <- !app_assoc.
Qed.

(** X10 at work: a directory whose largest file has no [COUNTY] column. *)
Lemma discovery_failure_aborts_witness :
  let W := Scenario.world_of [Scenario.fileB; Faults.keyless] in
  let self := Scenario.splitter_for None in
  ByCounty.process_all_files W self Scenario.start
  = (Raise (EngineError "binder"),
     {| dirs := ∅; files := ∅;
        log := [(INFO, FoundFiles 2);
                (INFO, DiscoveringCounties "K.parquet")] |})
  ∧ (Modern.process_all_files W self Scenario.start).1
    = Raise (EngineError "binder").
Proof.
  intros W self.
  destruct (discovery_failure_aborts W self Scenario.start Scenario.fileB
              [Faults.keyless] eq_refl (or_intror (conj eq_refl eq_refl)))
    as (e & Hsel & Hby & Hmod).
  injection Hsel as <-.
  split; [exact Hby | by rewrite Hmod].
Defined.






(* ===================================================================== *)
(** * Further properties: the summary report *)
(* ===================================================================== *)

#[global] Instance item_le_total : Total item_le.
Proof.
  intros p q. unfold item_le.
  rewrite (String.compare_antisym p.1 q.1).
  destruct (String.compare q.1 p.1); simpl; [lia | by right | by left].
Qed.

Lemma sum_list_permutation (l l' : list nat) :
  l ≡ₚ l' → sum_list l = sum_list l'.
Proof. induction 1; simpl; lia. Qed.

Lemma sum_values_sorted_items (d : dict nat) :
  sum_list (map snd (sorted_items d)) = sum_values d.
Proof.
  unfold sum_values, values, sorted_items.
  apply sum_list_permutation, (fmap_Permutation snd), merge_sort_Permutation.
Qed.

(** X12. The summary adds up.  When [create_summary_report] returns, in
    either program, the summary file holds one section per entry of the
    results, in their order; the county lines of a section are the
    entries of that file's counts, sorted; the TOTAL of a section is the
    sum of its county lines, and the grand total is the sum of the
    TOTALs.  The title names the county only when one is pinned. *)
Theorem summary_adds_up :
  ∀ (W : world) (self : splitter) (results : dict (dict nat))
    (st st' : state),
    ByCounty.create_summary_report W self results st = (Ok tt, st')
    ∨ Modern.create_summary_report W self results st = (Ok tt, st') →
    ∃ r : report,
      files st' = <[summary_file self := Summary r]> (files st)
      ∧ title_county r = pinned self
      ∧ Forall2
          (λ (section : string * list (string * nat) * nat)
             (entry : string * dict nat),
             section.1.1 = entry.1
             ∧ section.1.2 ≡ₚ entry.2
             ∧ Sorted item_le section.1.2
             ∧ section.2 = sum_list (map snd section.1.2))
          (file_sections r) results
      ∧ grand_total r = sum_list (map snd (file_sections r)).
Proof.
  intros W self results st st' Hrun.
  assert (∃ native,
    files st'
    = <[summary_file self := Summary (report_of self results native)]>
        (files st)) as [native Hfiles].
  { unfold ByCounty.create_summary_report, Modern.create_summary_report in Hrun.
    destruct Hrun as [Hrun|Hrun]; [exists false | exists true];
      unfold bind, write_file, logger in Hrun;
      (destruct (write_ok W _ _); [|done]);
      by injection Hrun as <-. }
  exists (report_of self results native). split; [done|]. split; [done|].
  split.
  - simpl. clear.
    induction results as [|[file_name county_results] results IH];
      simpl; [constructor|]. constructor; [|done].
    simpl. split; [done|]. split; [apply merge_sort_Permutation|].
    split; [apply Sorted_merge_sort, _|].
    by rewrite sum_values_sorted_items.
  - simpl. f_equal. rewrite <- list_fmap_compose. done.
Qed.

(** X12 at work: two counties stored out of order. *)
Lemma summary_adds_up_witness :
  let W := Scenario.world_of [Scenario.fileA] in
  let self := Scenario.splitter_for None in
  let results := [("A.parquet", [("Washington", 1); ("Clackamas", 2)])] in
  let run := ByCounty.create_summary_report W self results Scenario.start in
  run.1 = Ok tt
  ∧ ∃ r : report,
      files run.2 = <[ "out/split_summary.txt" := Summary r ]> ∅
      ∧ grand_total r = sum_list (map snd (file_sections r)).
Proof.
  intros W self results run. split; [reflexivity|].
  destruct (summary_adds_up W self results Scenario.start run.2
              (or_introl eq_refl)) as (r & Hfiles & _ & _ & Htotal).
  exists r. split; [exact Hfiles | exact Htotal].
Defined.

(* ===================================================================== *)
(** * Further properties: running again *)
(* ===================================================================== *)

Lemma replay_app ws ws' fs : replay (ws ++ ws') fs = replay ws' (replay ws fs).
Proof. unfold replay. apply foldl_app. Qed.

Lemma apply_effect_nil st : apply_effect ∅ [] [] st = st.
Proof.
  destruct st as [d f l]. unfold apply_effect. simpl.
  by rewrite (left_id_L ∅ (∪)), app_nil_r.
Qed.

Lemma apply_effect_compose ds ws lg ds' ws' lg' st :
  apply_effect ds' ws' lg' (apply_effect ds ws lg st)
  = apply_effect (ds' ∪ ds) (ws ++ ws') (lg ++ lg') st.
Proof.
  unfold apply_effect. simpl.
  by rewrite replay_app, (assoc_L (∪)), app_assoc.
Qed.

Lemma oblivious_ret {A} (a : A) : oblivious (ret a).
Proof. exists (Ok a), ∅, [], []. intros st. by rewrite apply_effect_nil. Qed.

Lemma oblivious_raise {A} e : oblivious (@raise A e).
Proof. exists (Raise e), ∅, [], []. intros st. by rewrite apply_effect_nil. Qed.

Lemma oblivious_call {A} (r : result A) : oblivious (call r).
Proof. exists r, ∅, [], []. intros st. by rewrite apply_effect_nil. Qed.

Lemma oblivious_logger l m : oblivious (logger l m).
Proof.
  exists (Ok tt), ∅, [], [(l, m)]. intros st. unfold logger, apply_effect.
  simpl. by rewrite (left_id_L ∅ (∪)).
Qed.

Lemma oblivious_mkdir W path : oblivious (mkdir W path).
Proof.
  unfold mkdir. destruct (mkdir_ok W path).
  - exists (Ok tt), {[path]}, [], []. intros st. unfold apply_effect. simpl.
    by rewrite app_nil_r.
  - exists (Raise (OSError path)), ∅, [], []. intros st.
    by rewrite apply_effect_nil.
Qed.

Lemma oblivious_write_file W path c : oblivious (write_file W path c).
Proof.
  unfold write_file. destruct (write_ok W path c).
  - exists (Ok tt), ∅, [(path, c)], []. intros st. unfold apply_effect. simpl.
    by rewrite (left_id_L ∅ (∪)), app_nil_r.
  - exists (Raise (WriteError path)), ∅, [], []. intros st.
    by rewrite apply_effect_nil.
Qed.

Lemma oblivious_bind {A B} (m : M A) (k : A → M B) :
  oblivious m → (∀ a, oblivious (k a)) → oblivious (bind m k).
Proof.
  intros (r & ds & ws & lg & Hm) Hk. destruct r as [a|e].
  - destruct (Hk a) as (r' & ds' & ws' & lg' & Hka).
    exists r', (ds' ∪ ds), (ws ++ ws'), (lg ++ lg'). intros st.
    unfold bind. by rewrite Hm, Hka, apply_effect_compose.
  - exists (Raise e), ds, ws, lg. intros st. unfold bind. by rewrite Hm.
Qed.

Lemma oblivious_try_except {A} (m : M A) (h : exn → M A) :
  oblivious m → (∀ e, oblivious (h e)) → oblivious (try_except m h).
Proof.
  intros (r & ds & ws & lg & Hm) Hh. destruct r as [a|e].
  - exists (Ok a), ds, ws, lg. intros st. unfold try_except. by rewrite Hm.
  - destruct (Hh e) as (r' & ds' & ws' & lg' & Hhe).
    exists r', (ds' ∪ ds), (ws ++ ws'), (lg ++ lg'). intros st.
    unfold try_except. by rewrite Hm, Hhe, apply_effect_compose.
Qed.

Lemma oblivious_for_each {A B} (l : list A) (body : B → A → M B) acc :
  (∀ b a, oblivious (body b a)) → oblivious (for_each l body acc).
Proof.
  intros Hbody. revert acc.
  induction l as [|x l IH]; intros acc; simpl.
  - apply oblivious_ret.
  - apply oblivious_bind; [apply Hbody | intros; apply IH].
Qed.

Ltac solve_oblivious :=
  repeat first
    [ apply oblivious_ret
    | apply oblivious_raise
    | apply oblivious_call
    | apply oblivious_logger
    | apply oblivious_mkdir
    | apply oblivious_write_file
    | apply oblivious_bind; [| intros ?]
    | apply oblivious_try_except; [| intros ?]
    | apply oblivious_for_each; intros ? ?
    | case_match ].

Lemma oblivious_copy_select W cols f county path :
  oblivious (copy_select W cols f county path).
Proof. unfold copy_select. solve_oblivious. Qed.

Lemma by_county_oblivious W self :
  oblivious (ByCounty.process_all_files W self).
Proof.
  unfold ByCounty.process_all_files, ByCounty.discover_counties,
    ByCounty.validate_target_county, ByCounty.create_summary_report,
    ByCounty.split_file_by_county, ByCounty.county_step,
    ByCounty.process_county, ByCounty.write_subset, ByCounty.extract,
    ByCounty._create_geometry_and_attributes, ByCounty._save_attributes_only,
    ByCounty.path_A, ByCounty.path_B.
  solve_oblivious.
Qed.

Lemma modern_oblivious W self :
  oblivious (Modern.process_all_files W self).
Proof.
  pose proof (oblivious_copy_select W) as Hcopy.
  unfold Modern.process_all_files, Modern.discover_counties,
    Modern.validate_target_county, Modern.create_summary_report,
    Modern.split_file_by_county, Modern.county_step,
    Modern.process_county, Modern._check_geometry_column,
    Modern._create_geometry_and_attributes_native,
    Modern._save_attributes_only_native.
  repeat first [ apply Hcopy | progress solve_oblivious ].
Qed.

(** Writing a file before a sequence of writes that ends with the same
    write changes nothing. *)
Lemma replay_absorbs ws (w : string * content) fs :
  <[w.1 := w.2]> (replay ws (<[w.1 := w.2]> fs))
  = <[w.1 := w.2]> (replay ws fs).
Proof.
  revert fs. induction ws as [|w' ws IH]; intros fs; simpl.
  - by rewrite insert_insert_eq.
  - destruct (decide (w'.1 = w.1)) as [Heq|Hne].
    + by rewrite Heq, insert_insert_eq.
    + rewrite (insert_insert_ne _ w'.1 w.1) by done. apply IH.
Qed.

Lemma replay_twice ws fs : replay ws (replay ws fs) = replay ws fs.
Proof.
  revert fs. induction ws as [|w ws IH] using rev_ind; intros fs; [done|].
  rewrite !replay_app.
  change (<[w.1 := w.2]> (replay ws (<[w.1 := w.2]> (replay ws fs)))
          = <[w.1 := w.2]> (replay ws fs)).
  by rewrite replay_absorbs, IH.
Qed.

(** X13. A run reads nothing of what earlier runs left: its result, the
    files it writes and the directories it makes are the same from every
    state of the output directory.  Running either program a second time
    on the same input returns the same result and leaves every file and
    directory exactly as the first run left them. *)
Theorem rerun_changes_nothing :
  ∀ (W : world) (self : splitter) (st : state),
    let again (run : M unit) :=
      let first := run st in
      let second := run first.2 in
      second.1 = first.1
      ∧ files second.2 = files first.2
      ∧ dirs second.2 = dirs first.2 in
    again (ByCounty.process_all_files W self)
    ∧ again (Modern.process_all_files W self).
Proof.
  intros W self st again.
  assert (Hagain : ∀ run, oblivious run → again run).
  { intros run (r & ds & ws & lg & Hrun). unfold again.
    rewrite !Hrun. simpl. split; [done|]. split.
    - apply replay_twice.
    - by rewrite (assoc_L (∪)), (idemp_L (∪) ds). }
  split; apply Hagain; [apply by_county_oblivious | apply modern_oblivious].
Qed.

(* ===================================================================== *)
(** * Further properties: the command line *)
(* ===================================================================== *)

(** What constructing a splitter does, in either program. *)
Lemma init_outputs W input output target st r st' :
  ByCounty.__init__ W input output target st = (r, st')
  ∨ Modern.__init__ W input output target st = (r, st') →
  files st' = files st
  ∧ dirs st' = (if mkdir_ok W output then {[output]} ∪ dirs st else dirs st)
  ∧ ∀ self, r = Ok self →
      self = {| input_dir := input; output_dir := output;
                target_county := target |}.
Proof.
  unfold ByCounty.__init__, Modern.__init__, Modern._setup_duckdb.
  unfold bind, mkdir, logger, ret, raise.
  destruct (mkdir_ok W output), (spatial_ok W); simpl;
    intros [H|H]; simplify_eq; simpl; (split; [done|]); (split; [done|]);
    by intros self [= <-].
Qed.

Lemma print_counties_spec counties p :
  disk (print_counties counties p) = disk p
  ∧ shown (print_counties counties p)
    = shown p ++ Print (String "010" "Available counties:")
              :: map (λ county, Print ("  - " ++ county))
                   (sorted (elements counties)).
Proof.
  unfold print_counties.
  generalize (sorted (elements counties)). intros l.
  set (p0 := emit _ p).
  assert (H : ∀ q, disk (foldl (λ p county, emit (Print ("  - " ++ county)) p)
                           q l) = disk q
                   ∧ shown (foldl (λ p county,
                                     emit (Print ("  - " ++ county)) p) q l)
                     = shown q ++ map (λ county, Print ("  - " ++ county)) l).
  { induction l as [|c l IH]; intros q; simpl.
    - by rewrite app_nil_r.
    - destruct (IH (emit (Print ("  - " ++ c)) q)) as [-> ->].
      simpl. by rewrite <- app_assoc. }
  destruct (H p0) as [-> ->]. subst p0. simpl.
  by rewrite <- app_assoc.
Qed.

(** X14. Listing the counties is not free of side effects.  With
    [--list-counties] and an input directory that exists, [main] of
    either program writes no file, but it constructs a splitter with the
    default output directory: the directory [output_by_county] is made,
    whatever [--output] says, and no other.  When it returns on a
    directory with files, it has printed the header and then, sorted and
    one per line, exactly the texts found in the [COUNTY] cells of the
    largest file. *)
Theorem list_mode_makes_default_directory :
  ∀ (W : world) (path_exists : string → bool) (a : args) (p : process),
    path_exists (args_input_dir a) = true →
    args_list_counties a = true →
    let spec (r : ending * process) :=
      files (disk r.2) = files (disk p)
      ∧ dirs (disk r.2)
        = (if mkdir_ok W "output_by_county"
           then {["output_by_county"]} ∪ dirs (disk p) else dirs (disk p))
      ∧ ∀ first others,
          glob_parquet W (args_input_dir a) = first :: others →
          r.1 = Returns →
          ∃ counties : gset string,
            (∀ k, k ∈ counties ↔
                  ∃ row, row ∈ rows (data (max_by_size first others))
                         ∧ cell (columns (data (max_by_size first others)))
                             row "COUNTY" = VText k)
            ∧ shown r.2
              = shown p ++ Log INFO DiscoveringAvailable
                        :: Print (String "010" "Available counties:")
                        :: map (λ county, Print ("  - " ++ county))
                             (sorted (elements counties)) in
    spec (ByCounty.main W path_exists a p)
    ∧ spec (Modern.main W path_exists a p).
Proof.
  intros W path_exists a p Hexists Hlist spec.
  assert (Hspec : ∀ (init : M splitter)
                    (discover : splitter → parquet_file → M (gset string)),
    (∀ st r st', init st = (r, st') →
       ByCounty.__init__ W (args_input_dir a) "output_by_county" None st
       = (r, st')
       ∨ Modern.__init__ W (args_input_dir a) "output_by_county" None st
         = (r, st')) →
    (∀ self f st counties st', discover self f st = (Ok counties, st') →
       ByCounty.discover_counties self f st = (Ok counties, st')
       ∨ Modern.discover_counties self f st = (Ok counties, st')) →
    (∀ self f, keeps same_outputs (discover self f)) →
    spec
      (let p := emit (Log INFO DiscoveringAvailable) p in
       match run init p with
       | (Raise e, p) => (Uncaught e, p)
       | (Ok temp_splitter, p) =>
           match glob_parquet W (args_input_dir a) with
           | [] => (Returns, emit (Log ERROR NoParquetFilesFound) p)
           | first :: others =>
               let main_file := max_by_size first others in
               match run (discover temp_splitter main_file) p with
               | (Raise e, p) => (Uncaught e, p)
               | (Ok counties, p) => (Returns, print_counties counties p)
               end
           end
       end)).
  { intros init discover Hinit Hdisc Hkeeps. unfold spec, run. simpl.
    destruct (init (disk p)) as [[self|e] st1] eqn:Hrun;
      apply Hinit, init_outputs in Hrun as (Hf1 & Hd1 & _); simpl;
      [|split; [done|]; split; [done|]; by intros ? ? ? [=]].
    destruct (glob_parquet W (args_input_dir a)) as [|first others]; simpl;
      [split; [done|]; split; [done|]; by intros ? ? [=]|].
    pose proof (Hkeeps self (max_by_size first others) st1) as [Hf2 Hd2].
    destruct (discover self (max_by_size first others) st1)
      as [[counties|e] st2] eqn:Hrun2; simpl in *.
    - destruct (print_counties_spec counties
                  {| disk := st2;
                     shown := shown p ++ [Log INFO DiscoveringAvailable] |})
        as [-> ->]. simpl.
      split; [congruence|]. split; [congruence|].
      intros first' others' [= <- <-] _. exists counties. split.
      + apply Hdisc, discover_counties_Ok in Hrun2 as [Hk _]. exact Hk.
      + by rewrite <- app_assoc.
    - split; [congruence|]. split; [congruence|]. by intros ? ? _ [=]. }
  unfold ByCounty.main, Modern.main. rewrite Hexists, Hlist. simpl negb.
  cbv iota. split; apply Hspec; auto.
  - intros self f. apply discover_counties_same_outputs.
  - intros self f. apply discover_counties_same_outputs.
Qed.

(** X14 at work: listing with [--output elsewhere]. *)
Lemma list_mode_makes_default_directory_witness :
  let W := Scenario.world_of [Scenario.fileB; Scenario.fileA] in
  let a := {| args_input_dir := "in"; args_county := None;
              args_output := "elsewhere"; args_list_counties := true |} in
  let p := {| disk := Scenario.start; shown := [] |} in
  let r := ByCounty.main W (λ _, true) a p in
  files (disk r.2) = ∅
  ∧ dirs (disk r.2) = {["output_by_county"]} ∪ ∅
  ∧ shown r.2 = [Log INFO DiscoveringAvailable;
                 Print (String "010" "Available counties:");
                 Print "  - Clackamas"; Print "  - Washington"].
Proof.
  intros W a p r.
  destruct (list_mode_makes_default_directory W (λ _, true) a p
              eq_refl eq_refl) as [(Hfiles & Hdirs & _) _].
  split; [exact Hfiles|]. split; [exact Hdirs|]. vm_compute. reflexivity.
Defined.

(** A run that stops at one of its preconditions: it returns normally,
    with an error logged and the outputs as they were. *)
Lemma stops_at_precondition W self st :
  match glob_parquet W (input_dir self) with
  | [] => True
  | first :: others =>
      ∃ l, select_distinct_county (max_by_size first others) = Ok l
           ∧ (l = [] ∨ ∃ target, pinned self = Some target ∧ target ∉ l)
  end →
  let spec (r : result unit * state) :=
    r.1 = Ok tt ∧ files r.2 = files st ∧ dirs r.2 = dirs st
    ∧ ∃ m l, log r.2 = log st ++ l ∧ (ERROR, m) ∈ l in
  spec (ByCounty.process_all_files W self st)
  ∧ spec (Modern.process_all_files W self st).
Proof.
  intros Hcond spec. subst spec.
  unfold ByCounty.process_all_files, Modern.process_all_files,
    ByCounty.discover_counties, Modern.discover_counties,
    ByCounty.validate_target_county, Modern.validate_target_county.
  destruct (glob_parquet W (input_dir self)) as [|first others].
  { split; simpl; (split; [done|]); (split; [done|]); (split; [done|]);
      eexists _, [_]; (split; [done|]); left. }
  destruct Hcond as (l & -> & Hl).
  unfold bind, try_except, call, logger, ret. simpl.
  destruct (bool_decide_reflect (list_to_set l =@{gset string} ∅))
    as [Hempty|Hsome]; simpl.
  { split; (split; [done|]); (split; [done|]); (split; [done|]);
      eexists _, _; rewrite <- !app_assoc;
      (split; [done|]); simpl;
      solve [repeat first [left | right]]. }
  destruct Hl as [->|(target & -> & Hout)]; [done|].
  rewrite bool_decide_eq_true_2 by (by rewrite elem_of_list_to_set).
  simpl.
  split; (split; [done|]); (split; [done|]); (split; [done|]);
    eexists _, _; rewrite <- !app_assoc;
    (split; [done|]); simpl;
      solve [repeat first [left | right]].
Qed.

Lemma disk_log_target a p : disk (log_target a p) = disk p.
Proof. unfold log_target. by repeat case_match. Qed.

(** X15. Only a missing input directory gives [main] the exit status 1 of
    [sys.exit].  When the run stops at a later precondition (the
    directory holds no Parquet file, the largest file has no non-null
    county, or the requested county is not among them) [main] of either
    program returns normally, so with exit status 0, after logging
    "Processing complete", with the output directory made and no file
    written. *)
Theorem stopped_run_exits_zero :
  ∀ (W : world) (path_exists : string → bool) (a : args) (p : process),
    args_list_counties a = false →
    mkdir_ok W (args_output a) = true →
    spatial_ok W = true →
    let self := {| input_dir := args_input_dir a;
                   output_dir := args_output a;
                   target_county := args_county a |} in
    match glob_parquet W (args_input_dir a) with
    | [] => True
    | first :: others =>
        ∃ l, select_distinct_county (max_by_size first others) = Ok l
             ∧ (l = [] ∨ ∃ target, pinned self = Some target ∧ target ∉ l)
    end →
    let spec (r : ending * process) :=
      if path_exists (args_input_dir a) then
        exit_status r.1 = 0
        ∧ files (disk r.2) = files (disk p)
        ∧ dirs (disk r.2) = {[args_output a]} ∪ dirs (disk p)
        ∧ last (shown r.2) = Some (Log INFO ProcessingComplete)
        ∧ ∃ m, (ERROR, m) ∈ log (disk r.2)
      else
        exit_status r.1 = 1
        ∧ disk r.2 = disk p
        ∧ shown r.2
          = shown p ++ [Log ERROR (InputDirMissing (args_input_dir a))] in
    spec (ByCounty.main W path_exists a p)
    ∧ spec (Modern.main W path_exists a p).
Proof.
  intros W path_exists a p Hlist Hmk Hspatial self Hcond spec. subst spec.
  unfold ByCounty.main, Modern.main.
  destruct (path_exists (args_input_dir a)); simpl; [|done].
  rewrite Hlist.
  unfold run, ByCounty.__init__, Modern.__init__, Modern._setup_duckdb,
    bind, mkdir, logger, ret. simpl. rewrite Hmk, Hspatial. simpl.
  fold self.
  match goal with
  | |- context [ByCounty.process_all_files W self ?st] =>
      destruct (stops_at_precondition W self st Hcond) as [Hby _];
      destruct (ByCounty.process_all_files W self st) as [r1 st1]
  end.
  match goal with
  | |- context [Modern.process_all_files W self ?st] =>
      destruct (stops_at_precondition W self st Hcond) as [_ Hmod];
      destruct (Modern.process_all_files W self st) as [r2 st2]
  end.
  rewrite disk_log_target in Hby, Hmod. simpl in Hby, Hmod.
  destruct Hby as (-> & Hf1 & Hd1 & m1 & l1 & Hl1 & Hm1).
  destruct Hmod as (-> & Hf2 & Hd2 & m2 & l2 & Hl2 & Hm2).
  simpl. rewrite !last_snoc.
  split.
  - split; [done|]. split; [done|]. split; [done|]. split; [done|].
    exists m1. rewrite Hl1. apply elem_of_app. by right.
  - split; [done|]. split; [done|]. split; [done|]. split; [done|].
    exists m2. rewrite Hl2. apply elem_of_app. by right.
Qed.

(** X15 at work: a county that no row has. *)
Lemma stopped_run_exits_zero_witness :
  let W := Scenario.world_of [Scenario.fileA] in
  let a := {| args_input_dir := "in"; args_county := Some "Nowhere";
              args_output := "out"; args_list_counties := false |} in
  let p := {| disk := Scenario.start; shown := [] |} in
  let r := Modern.main W (λ _, true) a p in
  exit_status r.1 = 0
  ∧ files (disk r.2) = ∅
  ∧ last (shown r.2) = Some (Log INFO ProcessingComplete).
Proof.
  intros W a p r.
  assert (Hcond :
    ∃ l, select_distinct_county (max_by_size Scenario.fileA []) = Ok l
         ∧ (l = [] ∨ ∃ target,
              pinned {| input_dir := "in"; output_dir := "out";
                        target_county := Some "Nowhere" |} = Some target
              ∧ target ∉ l)).
  { eexists. split; [vm_compute; reflexivity|]. right.
    eexists. split; [reflexivity|]. compute_done. }
  destruct (stopped_run_exits_zero W (λ _, true) a p eq_refl eq_refl eq_refl
              Hcond) as [_ (Hexit & Hfiles & _ & Hlast & _)].
  split; [exact Hexit|]. split; [exact Hfiles | exact Hlast].
Defined.

(* ===================================================================== *)
(** * Further properties: every county's rows reach its file *)
(* ===================================================================== *)

(** Appending to a string that starts with known characters. *)
Ltac string_simpl :=
  repeat match goal with
    | H : context [(String ?c ?a ++ ?s)%string] |- _ =>
        change (String c a ++ s)%string with (String c (a ++ s)%string) in H
    | H : context [(EmptyString ++ ?s)%string] |- _ =>
        change (EmptyString ++ s)%string with s in H
    | |- context [(String ?c ?a ++ ?s)%string] =>
        change (String c a ++ s)%string with (String c (a ++ s)%string)
    | |- context [(EmptyString ++ ?s)%string] =>
        change (EmptyString ++ s)%string with s
    end.

Lemma string_app_assoc (a b c : string) :
  (a ++ (b ++ c))%string = ((a ++ b) ++ c)%string.
Proof. induction a as [|x a IH]; string_simpl; [done|]. by f_equal. Qed.

Lemma string_app_inj_length (a b x y : string) :
  String.length a = String.length b →
  (a ++ x)%string = (b ++ y)%string → a = b ∧ x = y.
Proof.
  revert b. induction a as [|c a IH]; intros [|d b]; string_simpl; simpl;
    try done.
  intros [= Hlen] [= -> H]. destruct (IH b Hlen H) as [-> ->]. done.
Qed.

Lemma string_last (s : string) n :
  String.length s = S n →
  ∃ p c, s = (p ++ String c "")%string ∧ String.length p = n.
Proof.
  revert n. induction s as [|c s IH]; intros n; simpl; [done|].
  intros [= Hlen]. destruct s as [|d s].
  - exists "", c. simpl in *. by subst.
  - destruct n as [|n]; [done|].
    destruct (IH n Hlen) as (p & c' & -> & Hp).
    exists (String c p), c'. string_simpl. simpl. by rewrite Hp.
Qed.

Lemma slash_shift (cs A B : string) :
  (∀ A', A ≠ String "/" A') →
  (cs ++ A)%string ≠ String "/" (cs ++ B)%string.
Proof.
  intros HA. induction cs as [|c cs IH]; string_simpl.
  - apply HA.
  - intros [= -> H]. by apply IH.
Qed.

(** Two output files of one input file lie at the same path only for
    counties with the same directory name. *)
Lemma out_file_inj out cs cs' fs role role' :
  role ∈ ["attributes"; "geometry"] → role' ∈ ["attributes"; "geometry"] →
  out_file (path_join out cs) cs fs role
  = out_file (path_join out cs') cs' fs role' →
  cs = cs'.
Proof.
  intros Hrole Hrole'. unfold out_file, path_join.
  rewrite <- !string_app_assoc. intros H.
  apply string_app_inv_head in H.
  string_simpl. injection H as H.
  assert (Hlen := f_equal String.length H).
  repeat (progress (simpl in Hlen; rewrite ?string_app_length in Hlen)).
  assert (Hcases : (role = role')
                   ∨ (role = "attributes" ∧ role' = "geometry")
                   ∨ (role = "geometry" ∧ role' = "attributes")).
  { apply elem_of_cons in Hrole as [->|Hrole];
      apply elem_of_cons in Hrole' as [->|Hrole'];
      rewrite ?list_elem_of_singleton in *; subst; auto. }
  destruct Hcases as [<-|[[-> ->]|[-> ->]]].
  - assert (String.length cs = String.length cs') by lia.
    by destruct (string_app_inj_length _ _ _ _ ltac:(done) H).
  - exfalso. simpl in Hlen.
    assert (Hlen' : String.length cs' = S (String.length cs)) by lia.
    destruct (string_last _ _ Hlen') as (p & c & -> & Hp).
    rewrite <- ?string_app_assoc in H. string_simpl.
    destruct (string_app_inj_length _ _ _ _ (eq_sym Hp) H) as [-> Hrest].
    injection Hrest as <- Hrest.
    rewrite <- ?string_app_assoc in Hrest. string_simpl.
    revert Hrest. apply slash_shift. intros A'. discriminate.
  - exfalso. simpl in Hlen.
    assert (Hlen' : String.length cs = S (String.length cs')) by lia.
    destruct (string_last _ _ Hlen') as (p & c & -> & Hp).
    rewrite <- ?string_app_assoc in H. string_simpl.
    destruct (string_app_inj_length _ _ _ _ Hp H) as [-> Hrest].
    injection Hrest as -> Hrest.
    rewrite <- ?string_app_assoc in Hrest. string_simpl.
    symmetry in Hrest.
    revert Hrest. apply slash_shift. intros A'. discriminate.
Qed.

Lemma keep_columns_len keep df : len (keep_columns keep df) = len df.
Proof. unfold len. simpl. by rewrite length_map. Qed.

Lemma no_geometry_kept df : "geometry" ∉ columns (keep_columns not_geometry_name df).
Proof. simpl. rewrite list_elem_of_In, filter_In. intros [_ H]. by cbv in H. Qed.

(** A turn of the hybrid program that returns on a subset with rows has
    written the attribute file of the pair, with the rows of the subset. *)
Lemma by_county_process_county_file W self f is_main results k cs cd st r st' :
  ByCounty.process_county W self f is_main results k cs cd st = (Ok r, st') →
  count_in f k ≠ 0 →
  ∃ a, files st' !! out_file cd cs (stem f) "attributes" = Some (Parquet a)
       ∧ len a = count_in f k ∧ ("geometry" ∉ columns a).
Proof.
  unfold ByCounty.process_county. unfold bind at 1.
  destruct (ByCounty.extract W self f k st) as [[x|e] st1] eqn:Hextract;
    [|done].
  apply extract_Ok in Hextract as (_ & _ & _ & Hx). fold (count_in f k) in Hx.
  destruct x as [gdf|]; [|intros _ Hpos; by rewrite Hx in Hpos].
  unfold ByCounty.write_subset. intros Hrun Hpos.
  destruct (Nat.eqb_spec (len gdf) 0) as [H0|_]; [lia|].
  unfold bind at 1 in Hrun.
  destruct (is_main && has_column "geometry" gdf) eqn:Hbranch.
  - destruct (ByCounty._create_geometry_and_attributes W gdf cs cd (stem f) st1)
      as [[[]|e] st2] eqn:Hwrite; [|done].
    apply create_geometry_and_attributes_Ok in Hwrite as [Hfiles _].
    step. injection Hrun as _ <-. simpl. rewrite Hfiles, lookup_insert_eq.
    eexists. split; [done|]. split; [by rewrite keep_columns_len|].
    apply no_geometry_kept.
  - destruct (ByCounty._save_attributes_only W gdf _ st1)
      as [[[]|e] st2] eqn:Hwrite; [|done].
    step. injection Hrun as _ <-. simpl.
    unfold ByCounty._save_attributes_only, drop_geometry, has_column in Hwrite.
    destruct (bool_decide_reflect ("geometry" ∈ columns gdf)) as [Hin|Hout];
      step; repeat (case_match; simplify_eq); simpl;
      rewrite lookup_insert_eq; eexists; (split; [done|]).
    + split; [by rewrite keep_columns_len | apply no_geometry_kept].
    + done.
Qed.

Lemma by_county_turn_file W self f is_main results k st results' st' :
  ByCounty.county_step W self f is_main results k st = (Ok results', st') →
  failures (log st') = failures (log st) →
  count_in f k ≠ 0 →
  ∃ a, files st' !! out_file (path_join (output_dir self) (county_safe_of k))
                      (county_safe_of k) (stem f) "attributes"
       = Some (Parquet a)
       ∧ len a = count_in f k ∧ ("geometry" ∉ columns a).
Proof.
  unfold ByCounty.county_step. unfold bind at 1.
  destruct (mkdir W _ st) as [[[]|e] st1] eqn:Hmkdir; [|done].
  apply same_outputs_mkdir_files in Hmkdir as [_ Hlog].
  unfold try_except.
  pose proof (by_county_process_county_quiet W self f is_main results k
                (county_safe_of k)
                (path_join (output_dir self) (county_safe_of k)) st1) as Hquiet.
  destruct (ByCounty.process_county W self f is_main results k _ _ st1)
    as [[r|e] st2] eqn:Hrun; simpl in Hquiet;
    apply logs_only_not_failure in Hquiet.
  - intros [= <- <-] _ Hpos. by eapply by_county_process_county_file.
  - step. intros [= <- <-]. simpl. rewrite failures_app. simpl.
    rewrite Hquiet, Hlog. unfold failures at 2. simpl. lia.
Qed.

Lemma modern_turn_file W self f is_main results k st results' st' :
  Modern.county_step W self f is_main results k st = (Ok results', st') →
  failures (log st') = failures (log st) →
  count_in f k ≠ 0 →
  ∃ a, files st' !! out_file (path_join (output_dir self) (county_safe_of k))
                      (county_safe_of k) (stem f) "attributes"
       = Some (Parquet a)
       ∧ len a = count_in f k ∧ ("geometry" ∉ columns a).
Proof.
  unfold Modern.county_step. unfold bind at 1.
  destruct (mkdir W _ st) as [[[]|e] st1] eqn:Hmkdir; [|done].
  apply same_outputs_mkdir_files in Hmkdir as [_ Hlog].
  unfold try_except.
  pose proof (modern_process_county_quiet W self f is_main results k
                (county_safe_of k)
                (path_join (output_dir self) (county_safe_of k)) st1) as Hquiet.
  destruct (Modern.process_county W self f is_main results k _ _ st1)
    as [[r|e] st2] eqn:Hrun; simpl in Hquiet;
    apply logs_only_not_failure in Hquiet.
  - intros [= <- <-] _ _.
    apply modern_process_county_writes in Hrun as (t & Ht & Hfile).
    eexists. split; [exact Hfile|]. split.
    + rewrite project_len. apply where_county_rows in Ht as [_ Hrows].
      unfold len, count_in. by rewrite Hrows.
    + simpl. rewrite list_elem_of_In, filter_In. intros [_ H]. by cbv in H.
  - step. intros [= <- <-]. simpl. rewrite failures_app. simpl.
    rewrite Hquiet, Hlog. unfold failures at 2. simpl. lia.
Qed.

(** ** The loop over the counties, and the files it leaves *)

Section FilesLoop.
Context (f : parquet_file) (turn : dict nat → string → M (dict nat)).
Context (out : string).

Let attr_file (k : string) : string :=
  out_file (path_join out (county_safe_of k)) (county_safe_of k) (stem f)
    "attributes".

Let touched (k : string) (p : string) : Prop :=
  ∃ role, role ∈ ["attributes"; "geometry"]
          ∧ p = out_file (path_join out (county_safe_of k)) (county_safe_of k)
                  (stem f) role.

Hypothesis turn_spec :
  ∀ results k st results' st',
    turn results k st = (Ok results', st') →
    turn_outcome f results k results' st st'.

Hypothesis turn_file :
  ∀ results k st results' st',
    turn results k st = (Ok results', st') →
    failures (log st') = failures (log st) →
    count_in f k ≠ 0 →
    ∃ a, files st' !! attr_file k = Some (Parquet a)
         ∧ len a = count_in f k ∧ ("geometry" ∉ columns a).

Hypothesis turn_within :
  ∀ results k, keeps (writes_within (touched k) (λ _, True)) (turn results k).

Lemma loop_preserves keys results st p :
  (∀ k, k ∈ keys → ¬ touched k p) →
  files (for_each keys turn results st).2 !! p = files st !! p.
Proof.
  intros Hfree.
  assert (Hkeeps : keeps (writes_within (λ q, ∃ k, k ∈ keys ∧ touched k q)
                            (λ _, True)) (for_each keys turn results)).
  { apply keeps_for_each_in; [exact _|]. intros b k Hk st0.
    destruct (turn_within b k st0) as [Hf Hd]. split.
    - intros q. destruct (Hf q) as [?|?]; [by left | right; by exists k].
    - intros d Hd'. destruct (Hd d Hd') as [?|?]; [by left | by right]. }
  destruct (Hkeeps st) as [Hf _].
  destruct (Hf p) as [?|(k & Hk & Htouched)]; [done|].
  by destruct (Hfree k Hk).
Qed.

Lemma loop_files keys results st final st' :
  NoDup keys →
  (∀ k1 k2, k1 ∈ keys → k2 ∈ keys →
            county_safe_of k1 = county_safe_of k2 → k1 = k2) →
  for_each keys turn results st = (Ok final, st') →
  failures (log st') = failures (log st) →
  ∀ k, k ∈ keys → count_in f k ≠ 0 →
    ∃ a, files st' !! attr_file k = Some (Parquet a)
         ∧ len a = count_in f k ∧ ("geometry" ∉ columns a).
Proof.
  intros Hnodup. revert results st.
  induction Hnodup as [|k0 keys Hk0 Hnodup IH]; intros results st Hinj; simpl.
  - intros _ _ k Hk. by apply elem_of_nil in Hk.
  - unfold bind.
    destruct (turn results k0 st) as [[r1|e] st1] eqn:Hturn; [|done].
    intros Hrest Hfail.
    pose proof (loop_failures_mono f turn turn_spec _ _ _ _ _ Hrest) as Hmono.
    assert (Hf1 : failures (log st1) = failures (log st)).
    { destruct (turn_spec _ _ _ _ _ Hturn) as [[Hf _]|[Hf _]]; lia. }
    intros k [->|Hk]%elem_of_cons Hpos.
    + destruct (turn_file _ _ _ _ _ Hturn Hf1 Hpos) as (a & Ha & Hgood).
      exists a. split; [|done]. rewrite <- Ha.
      replace st' with (for_each keys turn r1 st1).2 by (by rewrite Hrest).
      apply loop_preserves. intros k' Hk' (role & Hrole & Hpath).
      apply out_file_inj in Hpath; [|by left|done].
      assert (k0 = k') as -> by (apply Hinj; [left | by right | done]).
      done.
    + eapply (IH r1 st1); [|exact Hrest|congruence|done|done].
      intros k1 k2 Hk1 Hk2. apply Hinj; by right.
Qed.
End FilesLoop.

(** X16. Every county's rows reach its file.  Take a file whose key
    column is spelt [COUNTY] and holds texts or nulls and, for the
    hybrid program, counties without a quote.  When
    [split_file_by_county] returns without having logged a failure, and
    no two of the counties it processes share a
    directory name, then in either program, for every processed county
    with rows in the file: the attribute file of the pair exists at the
    end of the loop, it has exactly as many rows as the file has for
    that county, it has no [geometry] column, and the count recorded for
    the county is that number of rows. *)
Theorem every_county_reaches_its_file :
  ∀ (W : world) (self : splitter) (f : parquet_file)
    (counties : gset string) (is_main : bool) (st : state),
    let todo := ByCounty.counties_to_process self counties in
    let attr_file k :=
      out_file (path_join (output_dir self) (county_safe_of k))
        (county_safe_of k) (stem f) "attributes" in
    let spec (run : result (dict nat) * state) :=
      failures (log run.2) = failures (log st) →
      ∀ results, run.1 = Ok results →
      ∀ k, k ∈ todo → count_in f k ≠ 0 →
        ∃ a, files run.2 !! attr_file k = Some (Parquet a)
             ∧ len a = count_in f k
             ∧ ("geometry" ∉ columns a)
             ∧ dict_get results k = Some (count_in f k) in
    (∀ k1 k2, k1 ∈ todo → k2 ∈ todo →
              county_safe_of k1 = county_safe_of k2 → k1 = k2) →
    plainly_keyed f = true →
    Modern.counties_to_process self counties = todo
    ∧ (quote_free todo = true →
       spec (ByCounty.split_file_by_county W self f counties is_main st))
    ∧ spec (Modern.split_file_by_county W self f counties is_main st).
Proof.
  intros W self f counties is_main st todo attr_file spec Hinj _.
  split; [done|].
  cut (spec (ByCounty.split_file_by_county W self f counties is_main st)
       ∧ spec (Modern.split_file_by_county W self f counties is_main st)).
  { intros [Hby Hmod]. split; [by intros _ | done]. }
  destruct (sorted_elements todo) as [Hnodup Hkeys].
  assert (Hinj' : ∀ k1 k2, k1 ∈ sorted (elements todo) →
                           k2 ∈ sorted (elements todo) →
                           county_safe_of k1 = county_safe_of k2 → k1 = k2).
  { intros k1 k2 H1%Hkeys H2%Hkeys. by apply Hinj. }
  assert (Hloop : ∀ turn st0 results st',
    (∀ results k st results' st',
       turn results k st = (Ok results', st') →
       turn_outcome f results k results' st st') →
    (∀ results k st results' st',
       turn results k st = (Ok results', st') →
       failures (log st') = failures (log st) →
       count_in f k ≠ 0 →
       ∃ a, files st' !! attr_file k = Some (Parquet a)
            ∧ len a = count_in f k ∧ ("geometry" ∉ columns a)) →
    (∀ results k,
       keeps (writes_within
                (λ p, ∃ role, role ∈ ["attributes"; "geometry"]
                              ∧ p = out_file
                                      (path_join (output_dir self)
                                         (county_safe_of k))
                                      (county_safe_of k) (stem f) role)
                (λ _, True)) (turn results k)) →
    for_each (sorted (elements todo)) turn [] st0 = (Ok results, st') →
    failures (log st') = failures (log st0) →
    ∀ k, k ∈ todo → count_in f k ≠ 0 →
      ∃ a, files st' !! attr_file k = Some (Parquet a)
           ∧ len a = count_in f k
           ∧ ("geometry" ∉ columns a)
           ∧ dict_get results k = Some (count_in f k)).
  { intros turn st0 results st' Hspec Hfile Hwithin Hrun Hfail k Hk Hpos.
    apply Hkeys in Hk.
    destruct (loop_files f turn (output_dir self) Hspec Hfile Hwithin _ _ _ _ _
                Hnodup Hinj' Hrun Hfail k Hk Hpos) as (a & Ha & Hlen & Hgeo).
    destruct (loop_counts f turn Hspec _ [] _ _ _ Hnodup (λ _ _, eq_refl) Hrun
                Hfail) as (_ & Hin & _).
    exists a. split; [done|]. split; [done|]. split; [done|].
    specialize (Hin k Hk). unfold count_for in Hin.
    destruct (dict_get results k) as [n|]; simpl in Hin; [by subst|].
    by rewrite <- Hin in Hpos. }
  assert (Hstart : failures (log (logger INFO (ProcessingFile (name f)) st).2)
                   = failures (log st)).
  { simpl. rewrite failures_app. unfold failures at 2. simpl. lia. }
  split.
  - intros Hfail results Hres.
    unfold ByCounty.split_file_by_county in Hfail, Hres.
    rewrite run_logger_bind in Hfail, Hres.
    unfold ByCounty.split_file_by_county. rewrite run_logger_bind.
    fold todo in Hfail, Hres |- *.
    destruct (for_each (sorted (elements todo))
                (ByCounty.county_step W self f is_main) []
                (logger INFO (ProcessingFile (name f)) st).2)
      as [r st'] eqn:Hrun.
    simpl in Hfail, Hres |- *. subst r.
    eapply Hloop; [| | |exact Hrun|congruence].
    + intros ? ? ? ? ?. apply by_county_turn.
    + intros ? ? ? ? ?. apply by_county_turn_file.
    + intros results0 k. apply by_county_step_within; [done| |].
      * exists "attributes". split; [left | done].
      * intros _. exists "geometry". split; [right; left | done].
  - intros Hfail results Hres.
    unfold Modern.split_file_by_county in Hfail, Hres.
    rewrite run_logger_bind in Hfail, Hres.
    unfold Modern.split_file_by_county. rewrite run_logger_bind.
    change (Modern.counties_to_process self counties) with todo
      in Hfail, Hres |- *.
    destruct (for_each (sorted (elements todo))
                (Modern.county_step W self f is_main) []
                (logger INFO (ProcessingFile (name f)) st).2)
      as [r st'] eqn:Hrun.
    simpl in Hfail, Hres |- *. subst r.
    eapply Hloop; [| | |exact Hrun|congruence].
    + intros ? ? ? ? ?. apply modern_turn.
    + intros ? ? ? ? ?. apply modern_turn_file.
    + intros results0 k. apply modern_step_within; [done| |].
      * exists "attributes". split; [left | done].
      * intros _. exists "geometry". split; [right; left | done].
Qed.

(** X16 at work: the main file, split over its two counties. *)
Lemma every_county_reaches_its_file_witness :
  let W := Scenario.world_of [Scenario.fileA] in
  let self := Scenario.splitter_for None in
  let counties : gset string := {["Clackamas"; "Washington"]} in
  let run := ByCounty.split_file_by_county W self Scenario.fileA counties true
               Scenario.start in
  ∃ a, files run.2 !! "out/Clackamas/Clackamas_A_attributes.parquet"
       = Some (Parquet a)
       ∧ len a = 2.
Proof.
  intros W self counties run.
  assert (Hinj : ∀ k1 k2,
    k1 ∈ ByCounty.counties_to_process self counties →
    k2 ∈ ByCounty.counties_to_process self counties →
    county_safe_of k1 = county_safe_of k2 → k1 = k2).
  { change (ByCounty.counties_to_process self counties)
      with ({["Clackamas"]} ∪ {["Washington"]} : gset string).
    intros k1 k2 [->%elem_of_singleton| ->%elem_of_singleton]%elem_of_union
      [->%elem_of_singleton| ->%elem_of_singleton]%elem_of_union;
      vm_compute; congruence. }
  destruct (every_county_reaches_its_file W self Scenario.fileA counties true
              Scenario.start Hinj eq_refl) as (_ & Hby & _).
  specialize (Hby eq_refl).
  assert (Hfail : failures (log run.2) = failures (log Scenario.start))
    by (vm_compute; reflexivity).
  assert (Hres : run.1 = Ok [("Clackamas", 2); ("Washington", 1)])
    by (vm_compute; reflexivity).
  destruct (Hby Hfail _ Hres "Clackamas") as (a & Ha & Hlen & _).
  - change (ByCounty.counties_to_process self counties)
      with ({["Clackamas"]} ∪ {["Washington"]} : gset string).
    apply elem_of_union. left. by apply elem_of_singleton.
  - vm_compute. discriminate.
  - exists a. split; [exact Ha | exact Hlen].
Defined.

(* ===================================================================== *)
(** * Further properties: the summary of a whole run *)
(* ===================================================================== *)

Lemma dict_set_fresh {V} (d : dict V) k (v : V) :
  dict_get d k = None → dict_set d k v = d ++ [(k, v)].
Proof.
  induction d as [|[k' v'] d IH]; simpl; [done|].
  destruct (String.eqb k' k); [done|]. intros H. by rewrite IH.
Qed.

Lemma dict_get_snoc {V} (d : dict V) k (v : V) k' :
  k ≠ k' → dict_get (d ++ [(k, v)]) k' = dict_get d k'.
Proof.
  intros Hne. induction d as [|[k0 v0] d IH]; simpl.
  - by destruct (String.eqb_spec k k').
  - by destruct (String.eqb k0 k').
Qed.

Lemma split_file_failures_mono W self f counties is_main st r st' :
  ByCounty.split_file_by_county W self f counties is_main st = (Ok r, st')
  ∨ Modern.split_file_by_county W self f counties is_main st = (Ok r, st') →
  (failures (log st) ≤ failures (log st'))%nat.
Proof.
  assert (Hstart : failures (log (logger INFO (ProcessingFile (name f)) st).2)
                   = failures (log st)).
  { simpl. rewrite failures_app. unfold failures at 2. simpl. lia. }
  unfold ByCounty.split_file_by_county, Modern.split_file_by_county.
  rewrite !run_logger_bind. intros [Hrun|Hrun].
  - apply (loop_failures_mono f _ (by_county_turn W self f is_main)) in Hrun.
    lia.
  - apply (loop_failures_mono f _ (modern_turn W self f is_main)) in Hrun.
    lia.
Qed.

Lemma split_file_sums W self f counties is_main st r st' :
  pinned self = None →
  ByCounty.split_file_by_county W self f counties is_main st = (Ok r, st')
  ∨ Modern.split_file_by_county W self f counties is_main st = (Ok r, st') →
  failures (log st') = failures (log st) →
  sum_values r = rows_keyed_in counties f.
Proof.
  intros Hpin Hrun Hfail.
  assert (Hstart : failures (log (logger INFO (ProcessingFile (name f)) st).2)
                   = failures (log st)).
  { simpl. rewrite failures_app. unfold failures at 2. simpl. lia. }
  unfold ByCounty.split_file_by_county, Modern.split_file_by_county,
    ByCounty.counties_to_process, Modern.counties_to_process in Hrun.
  rewrite Hpin, !run_logger_bind in Hrun.
  destruct Hrun as [Hrun|Hrun].
  - eapply loop_sums; [|exact Hrun|congruence]. apply by_county_turn.
  - eapply loop_sums; [|exact Hrun|congruence]. apply modern_turn.
Qed.

(** ** The loop over the files *)

Section FilesOfARun.
Context (split : parquet_file → M (dict nat)) (total : parquet_file → nat).

Hypothesis split_mono :
  ∀ f st r st', split f st = (Ok r, st') →
                (failures (log st) ≤ failures (log st'))%nat.

Hypothesis split_sums :
  ∀ f st r st', split f st = (Ok r, st') →
                failures (log st') = failures (log st) →
                sum_values r = total f.

Lemma files_loop_mono listing acc st final st' :
  for_each listing
    (λ all_results file_path,
       results <- split file_path ;;
       ret (dict_set all_results (name file_path) results)) acc st
  = (Ok final, st') →
  (failures (log st) ≤ failures (log st'))%nat.
Proof.
  revert acc st. induction listing as [|f listing IH]; intros acc st; simpl.
  - by intros [= _ <-].
  - unfold bind at 1. unfold bind at 1.
    destruct (split f st) as [[r|e] st1] eqn:Hsplit; [|done].
    simpl. intros Hrest%IH. apply split_mono in Hsplit. lia.
Qed.

Lemma files_loop listing acc st final st' :
  NoDup (map name listing) →
  (∀ f, f ∈ listing → dict_get acc (name f) = None) →
  for_each listing
    (λ all_results file_path,
       results <- split file_path ;;
       ret (dict_set all_results (name file_path) results)) acc st
  = (Ok final, st') →
  failures (log st') = failures (log st) →
  ∃ new, final = acc ++ new
         ∧ Forall2 (λ (entry : string * dict nat) f,
                      entry.1 = name f ∧ sum_values entry.2 = total f)
             new listing.
Proof.
  revert acc st. induction listing as [|f listing IH]; intros acc st; simpl.
  - intros _ _ [= <- <-] _. exists []. by rewrite app_nil_r.
  - intros [Hf Hnodup]%NoDup_cons Hfresh. unfold bind at 1. unfold bind at 1.
    destruct (split f st) as [[r|e] st1] eqn:Hsplit; [|done].
    simpl. intros Hrest Hfail.
    pose proof (files_loop_mono _ _ _ _ _ Hrest) as Hmono2.
    pose proof (split_mono _ _ _ _ Hsplit) as Hmono1.
    rewrite dict_set_fresh in Hrest by (apply Hfresh; left).
    destruct (IH (acc ++ [(name f, r)]) st1 Hnodup) as (new & -> & Hnew);
      [|exact Hrest|lia|].
    + intros f' Hf'. rewrite dict_get_snoc.
      * apply Hfresh. by right.
      * intros Heq. apply Hf. rewrite Heq. apply list_elem_of_fmap.
        by exists f'.
    + exists ((name f, r) :: new). rewrite <- app_assoc. split; [done|].
      constructor; [|done]. simpl. split; [done|].
      eapply split_sums; [exact Hsplit | lia].
Qed.
End FilesOfARun.

Lemma discover_counties_failures self f st counties st' :
  ByCounty.discover_counties self f st = (Ok counties, st')
  ∨ Modern.discover_counties self f st = (Ok counties, st') →
  failures (log st') = failures (log st).
Proof.
  unfold ByCounty.discover_counties, Modern.discover_counties.
  intros H. step.
  destruct (select_distinct_county f) as [l|e]; [|by destruct H].
  assert (∃ n shown,
            log st' = (log st ++ [(INFO, DiscoveringCounties (name f))])
                      ++ [(INFO, FoundCounties n shown)]) as (n & shown & ->)
    by (destruct H as [H|H]; injection H as _ <-; simpl; by eexists _, _).
  rewrite !failures_app. unfold failures at 2 3. simpl. lia.
Qed.

(** The sections a report has for results that add up file by file. *)
Lemma report_sections self native (total : parquet_file → nat)
    (all_results : dict (dict nat)) listing :
  Forall2 (λ (entry : string * dict nat) f,
             entry.1 = name f ∧ sum_values entry.2 = total f)
    all_results listing →
  Forall2 (λ (section : string * list (string * nat) * nat) f,
             section.1.1 = name f ∧ section.2 = total f)
    (file_sections (report_of self all_results native)) listing
  ∧ grand_total (report_of self all_results native)
    = sum_list (map total listing).
Proof.
  simpl. induction 1 as [|[file_name results] f all_results listing [Hn Hs] _
                           [IH1 IH2]]; simpl.
  - split; [constructor | done].
  - simpl in Hn, Hs. split; [by constructor|]. by rewrite IH2, Hs.
Qed.

(** X17. The summary counts every keyed row once.  Take files with
    distinct names whose key column is spelt [COUNTY] and holds texts or
    nulls and, for the hybrid program, a largest file whose counties
    hold no quote.  When a run without a pinned county returns having
    logged no failure and ends
    with the record that the output was saved, then in either program
    the summary file holds one section per listed file, in listing
    order, whose TOTAL is the number of rows of that file whose county
    is one of the counties found in the largest file; and the grand
    total is the sum of these numbers over the files. *)
Theorem summary_counts_every_keyed_row :
  ∀ (W : world) (self : splitter) (st st' : state),
    let listing := glob_parquet W (input_dir self) in
    pinned self = None →
    NoDup (map name listing) →
    forallb plainly_keyed listing = true →
    (ByCounty.process_all_files W self st = (Ok tt, st')
     ∧ match listing with
       | [] => True
       | first :: others =>
           quote_free (keys_of (max_by_size first others)) = true
       end)
    ∨ Modern.process_all_files W self st = (Ok tt, st') →
    failures (log st') = failures (log st) →
    last (log st') = Some (INFO, OutputSaved (output_dir self)) →
    ∃ (r : report) (counties : gset string)
      (first : parquet_file) (others : list parquet_file),
      listing = first :: others
      ∧ (∀ k, k ∈ counties ↔
              ∃ row, row ∈ rows (data (max_by_size first others))
                     ∧ cell (columns (data (max_by_size first others)))
                         row "COUNTY" = VText k)
      ∧ files st' !! summary_file self = Some (Summary r)
      ∧ Forall2 (λ (section : string * list (string * nat) * nat) f,
                   section.1.1 = name f
                   ∧ section.2 = rows_keyed_in counties f)
          (file_sections r) listing
      ∧ grand_total r = sum_list (map (rows_keyed_in counties) listing).
Proof.
  intros W self st st' listing Hpin Hnodup _ Hrun Hfail Hlast.
  assert (Hrun' : ByCounty.process_all_files W self st = (Ok tt, st')
                  ∨ Modern.process_all_files W self st = (Ok tt, st'))
    by (destruct Hrun as [[Hrun _]|Hrun]; auto).
  clear Hrun. rename Hrun' into Hrun.
  unfold ByCounty.process_all_files, Modern.process_all_files in Hrun.
  fold listing in Hrun.
  destruct listing as [|first others] eqn:Hlisting.
  { exfalso. destruct Hrun as [Hrun|Hrun]; injection Hrun as <-;
      simpl in Hlast; rewrite last_snoc in Hlast; discriminate. }
  rewrite <- Hlisting in Hrun, Hnodup |- *.
  set (main_file := max_by_size first others) in *.
  rewrite !run_logger_bind in Hrun.
  set (st0 := (logger INFO (FoundFiles (length listing)) st).2) in *.
  assert (Hf0 : failures (log st0) = failures (log st)).
  { subst st0. simpl. rewrite failures_app. unfold failures at 2. simpl. lia. }
  unfold ByCounty.validate_target_county, Modern.validate_target_county in Hrun.
  rewrite Hpin in Hrun.
  assert (Hgeneric : ∃ counties st1 native all_results st3,
    (ByCounty.discover_counties self main_file st0 = (Ok counties, st1)
     ∨ Modern.discover_counties self main_file st0 = (Ok counties, st1))
    ∧ (for_each listing
         (λ all_results file_path,
            results <- ByCounty.split_file_by_county W self file_path counties
                         (bool_decide (name file_path = name main_file)) ;;
            ret (dict_set all_results (name file_path) results)) []
         (logger INFO (ProcessingAll (size counties)) st1).2
       = (Ok all_results, st3)
       ∨ for_each listing
           (λ all_results file_path,
              results <- Modern.split_file_by_county W self file_path counties
                           (bool_decide (name file_path = name main_file)) ;;
              ret (dict_set all_results (name file_path) results)) []
           (logger INFO (ProcessingAll (size counties)) st1).2
         = (Ok all_results, st3))
    ∧ files st'
      = <[summary_file self := Summary (report_of self all_results native)]>
          (files st3)
    ∧ failures (log st') = failures (log st3)).
  { destruct Hrun as [Hrun|Hrun]; unfold bind at 1 in Hrun.
    - destruct (ByCounty.discover_counties self main_file st0)
        as [[counties|e] st1] eqn:Hdisc; [|done].
      destruct (bool_decide (counties = ∅)).
      { exfalso. injection Hrun as <-. simpl in Hlast.
        rewrite last_snoc in Hlast. discriminate. }
      unfold bind at 1, ret at 1 in Hrun. cbn [negb] in Hrun.
      rewrite run_logger_bind in Hrun. unfold bind at 1 in Hrun.
      match type of Hrun with context [for_each ?l ?b ?a ?s] =>
        destruct (for_each l b a s) as [[all_results|e] st3] eqn:Hloop;
          [|done]
      end.
      unfold ByCounty.create_summary_report, bind, write_file, logger in Hrun.
      destruct (write_ok W _ _); [|done]. injection Hrun as <-. simpl.
      exists counties, st1, false, all_results, st3.
      split; [by left|]. split; [by left|]. split; [done|].
      rewrite !failures_app. unfold failures at 2 3 4. simpl. lia.
    - destruct (Modern.discover_counties self main_file st0)
        as [[counties|e] st1] eqn:Hdisc; [|done].
      destruct (bool_decide (counties = ∅)).
      { exfalso. injection Hrun as <-. simpl in Hlast.
        rewrite last_snoc in Hlast. discriminate. }
      unfold bind at 1, ret at 1 in Hrun. cbn [negb] in Hrun.
      rewrite run_logger_bind in Hrun. unfold bind at 1 in Hrun.
      match type of Hrun with context [for_each ?l ?b ?a ?s] =>
        destruct (for_each l b a s) as [[all_results|e] st3] eqn:Hloop;
          [|done]
      end.
      unfold Modern.create_summary_report, bind, write_file, logger in Hrun.
      destruct (write_ok W _ _); [|done]. injection Hrun as <-. simpl.
      exists counties, st1, true, all_results, st3.
      split; [by right|]. split; [by right|]. split; [done|].
      rewrite !failures_app. unfold failures at 2 3 4. simpl. lia. }
  destruct Hgeneric
    as (counties & st1 & native & all_results & st3 & Hdisc & Hloop & Hfiles
        & Hf3).
  pose proof (discover_counties_failures _ _ _ _ _ Hdisc) as Hf1.
  destruct (discover_counties_Ok _ _ _ _ _ Hdisc) as [Hkeys _].
  set (st2 := (logger INFO (ProcessingAll (size counties)) st1).2) in *.
  assert (Hf2 : failures (log st2) = failures (log st1)).
  { subst st2. simpl. rewrite failures_app. unfold failures at 2. simpl. lia. }
  assert (Hresults : ∃ new, all_results = [] ++ new
    ∧ Forall2 (λ (entry : string * dict nat) f,
                 entry.1 = name f
                 ∧ sum_values entry.2 = rows_keyed_in counties f)
        new listing).
  { destruct Hloop as [Hloop|Hloop].
    - assert (Hmono3 : (failures (log st2) ≤ failures (log st3))%nat).
      { eapply (files_loop_mono
                  (λ f, ByCounty.split_file_by_county W self f counties
                          (bool_decide (name f = name main_file))));
          [|exact Hloop].
        intros f s r s' Hs. eapply split_file_failures_mono. by left. }
      eapply (files_loop
                (λ f, ByCounty.split_file_by_county W self f counties
                        (bool_decide (name f = name main_file))));
        [| |exact Hnodup|done|exact Hloop|lia].
      + intros f s r s' Hs. eapply split_file_failures_mono. by left.
      + intros f s r s' Hs Hsf.
        eapply split_file_sums; [exact Hpin|by left|exact Hsf].
    - assert (Hmono3 : (failures (log st2) ≤ failures (log st3))%nat).
      { eapply (files_loop_mono
                  (λ f, Modern.split_file_by_county W self f counties
                          (bool_decide (name f = name main_file))));
          [|exact Hloop].
        intros f s r s' Hs. eapply split_file_failures_mono. by right. }
      eapply (files_loop
                (λ f, Modern.split_file_by_county W self f counties
                        (bool_decide (name f = name main_file))));
        [| |exact Hnodup|done|exact Hloop|lia].
      + intros f s r s' Hs. eapply split_file_failures_mono. by right.
      + intros f s r s' Hs Hsf.
        eapply split_file_sums; [exact Hpin|by right|exact Hsf]. }
  destruct Hresults as (new & -> & Hnew). simpl in Hfiles.
  destruct (report_sections self native (rows_keyed_in counties) new listing
              Hnew) as [Hsections Htotal].
  exists (report_of self new native), counties, first, others.
  split; [done|]. split; [exact Hkeys|].
  split; [by rewrite Hfiles, lookup_insert_eq|]. done.
Qed.

(** X17 at work: the main file and one auxiliary file. *)
Lemma summary_counts_every_keyed_row_witness :
  let W := Scenario.world_of [Scenario.fileB; Scenario.fileA] in
  let self := Scenario.splitter_for None in
  let run := ByCounty.process_all_files W self Scenario.start in
  run.1 = Ok tt
  ∧ ∃ (r : report) (counties : gset string),
      files run.2 !! "out/split_summary.txt" = Some (Summary r)
      ∧ grand_total r
        = sum_list (map (rows_keyed_in counties)
                      [Scenario.fileB; Scenario.fileA]).
Proof.
  intros W self run. split; [vm_compute; reflexivity|].
  assert (Hrun : ByCounty.process_all_files W self Scenario.start
                 = (Ok tt, run.2)) by (vm_compute; reflexivity).
  assert (Hnodup : NoDup (map name (glob_parquet W (input_dir self))))
    by (apply (bool_decide_unpack _); vm_compute; exact I).
  assert (Hquotes : quote_free (keys_of (max_by_size Scenario.fileB
                                           [Scenario.fileA])) = true)
    by (vm_compute; reflexivity).
  destruct (summary_counts_every_keyed_row W self Scenario.start run.2
              eq_refl Hnodup eq_refl (or_introl (conj Hrun Hquotes)))
    as (r & counties & first & others & _ & _ & Hfile & _ & Htotal).
  - vm_compute. reflexivity.
  - vm_compute. reflexivity.
  - exists r, counties. split; [exact Hfile | exact Htotal].
Defined.

(* ===================================================================== *)
(** * Further properties: which reader serves a county *)
(* ===================================================================== *)

(** X18. The two modes of the hybrid program read a file in opposite
    orders.  Without a pinned county the geometry-aware read comes first:
    when it accepts the file the subset is its rows for the county and
    the engine is not asked, so neither a file the engine cannot scan nor
    a quote in the county name matters; when it refuses the file the
    engine's query is the fallback, with a warning, and extraction fails
    only if that fails too.  With a pinned county the engine's query
    comes first and has no fallback: a file the engine cannot scan fails
    the pair although the geometry-aware read would accept it. *)
Theorem extraction_fallbacks :
  ∀ (W : world) (self : splitter) (f : parquet_file) (county : string)
    (st : state),
    has_column "COUNTY" (data f) = true →
    let subset :=
      {| columns := columns (data f);
         rows := rows_of_county (columns (data f)) county (rows (data f)) |} in
    let run := ByCounty.extract W self f county st in
    match pinned self with
    | None =>
        (geo_readable f = true → run = (Ok (Some subset), st))
        ∧ (geo_readable f = false → scannable f = true →
           literal_ok county = true →
           run.1 = Ok (Some (to_df W subset))
           ∧ log run.2
             = log st ++ [(WARNING, FailedToReadGeoParquet);
                          (INFO, FallingBackToParquet (name f))])
        ∧ (geo_readable f = false → scannable f = false →
           run.1 = Raise (EngineError "read_parquet"))
    | Some _ =>
        scannable f = false → run = (Raise (EngineError "read_parquet"), st)
    end.
Proof.
  intros W self f county st Hcounty subset run. subst run.
  unfold ByCounty.extract, ByCounty.path_A, ByCounty.path_B,
    gpd_read_parquet, filter_county, where_county, read_parquet.
  unfold bind, try_except, call, logger, ret.
  destruct (pinned self) as [target|].
  - intros ->. reflexivity.
  - split; [|split].
    + intros ->. by rewrite Hcounty.
    + intros -> -> ->. simpl. rewrite Hcounty. simpl.
      split; [done|]. by rewrite <- app_assoc.
    + intros -> ->. reflexivity.
Qed.

(** X18 at work: a file only the geometry-aware reader accepts. *)
Lemma extraction_fallbacks_witness :
  let W := Scenario.world_of [Faults.unscannable] in
  (ByCounty.extract W (Scenario.splitter_for None) Faults.unscannable "Lane"
     Scenario.start).1
  = Ok (Some {| columns := ["COUNTY"]; rows := [ [VText "Lane"] ] |})
  ∧ (ByCounty.extract W (Scenario.splitter_for (Some "Lane"))
       Faults.unscannable "Lane" Scenario.start).1
    = Raise (EngineError "read_parquet").
Proof.
  intros W. split.
  - pose proof (extraction_fallbacks W (Scenario.splitter_for None)
                  Faults.unscannable "Lane" Scenario.start eq_refl) as H.
    simpl in H. destruct H as [H _]. by rewrite (H eq_refl).
  - pose proof (extraction_fallbacks W (Scenario.splitter_for (Some "Lane"))
                  Faults.unscannable "Lane" Scenario.start eq_refl) as H.
    simpl in H. by rewrite (H eq_refl).
Defined.

(* ===================================================================== *)
(** * Further properties: the spatial extension *)
(* ===================================================================== *)

(** X19. The DuckDB-only program needs the spatial extension, the
    hybrid program's constructor does not.  When the extension cannot be
    loaded, [main] of the DuckDB-only program ends with the engine's
    error right after making the output directory: one error is logged,
    no file is listed or written.  The constructor of the hybrid program
    returns the splitter all the same, having made the output directory
    and logged a warning. *)
Theorem modern_needs_spatial_extension :
  ∀ (W : world) (path_exists : string → bool) (a : args) (p : process),
    path_exists (args_input_dir a) = true →
    args_list_counties a = false →
    mkdir_ok W (args_output a) = true →
    spatial_ok W = false →
    let modern := Modern.main W path_exists a p in
    let self := {| input_dir := args_input_dir a;
                   output_dir := args_output a;
                   target_county := args_county a |} in
    (modern.1 = Uncaught (EngineError "spatial")
     ∧ files (disk modern.2) = files (disk p)
     ∧ dirs (disk modern.2) = {[args_output a]} ∪ dirs (disk p)
     ∧ log (disk modern.2) = log (disk p) ++ [(ERROR, SetupFailed)])
    ∧ ∀ st,
        ByCounty.__init__ W (args_input_dir a) (args_output a) (args_county a)
          st
        = (Ok self,
           {| dirs := {[args_output a]} ∪ dirs st; files := files st;
              log := log st ++ [(WARNING, SpatialNotLoaded)] |}).
Proof.
  intros W path_exists a p Hexists Hlist Hmk Hspatial modern self.
  subst modern. unfold Modern.main.
  rewrite Hexists, Hlist. cbn [negb].
  unfold run, Modern.__init__, Modern._setup_duckdb, ByCounty.__init__.
  unfold bind, mkdir, logger, ret, raise.
  rewrite Hmk, Hspatial. simpl. rewrite !disk_log_target. simpl.
  split; [done|]. intros st. done.
Qed.

(** X19 at work. *)
Lemma modern_needs_spatial_extension_witness :
  let W := Faults.no_spatial [Scenario.fileA] in
  let a := {| args_input_dir := "in"; args_county := None;
              args_output := "out"; args_list_counties := false |} in
  let p := {| disk := Scenario.start; shown := [] |} in
  (Modern.main W (λ _, true) a p).1 = Uncaught (EngineError "spatial")
  ∧ (ByCounty.__init__ W "in" "out" None Scenario.start).1
    = Ok (Scenario.splitter_for None).
Proof.
  intros W a p.
  destruct (modern_needs_spatial_extension W (λ _, true) a p
              eq_refl eq_refl eq_refl eq_refl) as [(Hmodern & _) Hhybrid].
  split; [exact Hmodern|]. exact (f_equal fst (Hhybrid Scenario.start)).
Defined.
